(** * xml-helper-ts: the XML parser, the XSD schema builder and the validator

    A shallow embedding of [src/xml-parser.ts], [src/xsd-parser.ts] and
    [src/xml-validator.ts], and the properties of the specification that
    are about them.

    Conventions.
    - A JavaScript string is a [string]; its code units are the [ascii]
      characters (the Latin-1 range).
    - A plain object used as a dictionary ([Record<string, T>]) is read as
      JavaScript reads it: the properties of the object first, then those of
      its prototype, [Object.prototype] ([Js.objectPrototype]).  The
      attributes of a node are an association list of the properties of the
      object in insertion order, which is the order [Object.entries]
      enumerates them in; [Js.set] is the assignment, which keeps no string
      under [__proto__], and [Js.truthyAt] the read.  The three mappings of a
      schema are [gmap]s of the definitions assigned to them, the one
      assigned under [__proto__] being the prototype of the mapping;
      [XmlValidator.lookup] is the read.
    - The Number [parseInt] gives is kept as the integer read, or [None] for
      NaN; where the code compares or prints it, it is the double nearest
      to the integer ([Double]).
    - The cursor of the parser is mutable state: parser operations are
      functions in a state-and-exception monad.  Loops and the recursion on
      nested elements take a [fuel] argument.
    - The validator pushes on [this.errors]: validator operations return the
      diagnostics they push, or the exception that escapes. *)

From Stdlib Require Import String Ascii ZArith Lia Bool List.
From stdpp Require Import base list strings gmap.

Local Open Scope string_scope.
Local Open Scope nat_scope.

(** ** JavaScript strings *)

Module Js.

Definition TAB : ascii := "009"%char.
Definition LF : ascii := "010"%char.
Definition VT : ascii := "011"%char.
Definition FF : ascii := "012"%char.
Definition CR : ascii := "013"%char.
Definition NBSP : ascii := "160"%char.
Definition QUOTE : ascii := "034"%char.

(** [s[i] || ''] : the one-character string at index [i], or the empty
    string out of range. *)
Definition charAt (s : string) (i : nat) : string :=
  match String.get i s with
  | Some c => String c ""
  | None => ""
  end.

(** [charCodeAt(0)] of a non-empty string: the number whose binary digits
    are the eight bits of the character, lowest first. *)
Fixpoint double (n : nat) : nat :=
  match n with
  | 0 => 0
  | S n' => S (S (double n'))
  end.

Definition bit (b : bool) : nat := if b then 1 else 0.

Definition code (c : ascii) : nat :=
  let 'Ascii b0 b1 b2 b3 b4 b5 b6 b7 := c in
  bit b0 + double (bit b1 + double (bit b2 + double (bit b3 + double (bit b4
    + double (bit b5 + double (bit b6 + double (bit b7))))))).

Definition inRange (lo hi : nat) (c : ascii) : bool :=
  (lo <=? code c) && (code c <=? hi).

Definition isDigit (c : ascii) : bool := inRange 48 57 c.
Definition isUpper (c : ascii) : bool := inRange 65 90 c.
Definition isLower (c : ascii) : bool := inRange 97 122 c.

(** The characters [String.prototype.trim] strips, within Latin-1. *)
Definition isTrimSpace (c : ascii) : bool :=
  inRange 9 13 c || (code c =? 32) || (code c =? 160).

Fixpoint trimStart (s : string) : string :=
  match s with
  | String c s' => if isTrimSpace c then trimStart s' else s
  | "" => ""
  end.

Fixpoint rev (s : string) : string :=
  match s with
  | String c s' => rev s' ++ String c ""
  | "" => ""
  end.

Definition trim (s : string) : string := rev (trimStart (rev (trimStart s))).

(** Truthiness of a string: the empty string is falsy. *)
Definition truthy (s : string) : bool := negb (String.eqb s "").

Definition startsWith (s p : string) : bool := String.prefix p s.

Definition endsWith (s p : string) : bool := String.prefix (rev p) (rev s).

(** [s.indexOf(':')], with [None] for [-1]. *)
Fixpoint indexOf (c : ascii) (s : string) : option nat :=
  match s with
  | "" => None
  | String d s' => if Ascii.eqb d c then Some 0 else S <$> indexOf c s'
  end.

(** [s.substring(i)] for [i] within the string. *)
Fixpoint substringFrom (i : nat) (s : string) : string :=
  match i, s with
  | 0, _ => s
  | S i', String _ s' => substringFrom i' s'
  | S _, "" => ""
  end.

(** A plain object with string values, as the properties of the object
    itself in insertion order. *)
Definition Dict : Type := list (string * string).

(** [object[key]] for a key that [Object.prototype] has no property of
    (every key the code reads by its name is one), [None] for [undefined]. *)
Fixpoint get (key : string) (object : Dict) : option string :=
  match object with
  | [] => None
  | (k, v) :: rest => if String.eqb k key then Some v else get key rest
  end.

(** Writing the property [key] of the object itself: a key that is present
    keeps its place. *)
Fixpoint store (key value : string) (object : Dict) : Dict :=
  match object with
  | [] => [(key, value)]
  | (k, v) :: rest =>
      if String.eqb k key then (key, value) :: rest else (k, v) :: store key value rest
  end.

(** [object[key] = value] for a string [value]. An object that has no
    property [__proto__] of its own inherits the accessor of
    [Object.prototype], whose setter does nothing with a string: nothing is
    stored. *)
Definition set (key value : string) (object : Dict) : Dict :=
  match get key object with
  | None => if String.eqb key "__proto__" then object else store key value object
  | Some _ => store key value object
  end.

(** What [object[key]] finds on [Object.prototype], where the lookup goes
    on when [key] is no property of a plain object itself: one of its eleven
    methods, a function with a [name], or for [__proto__] the prototype,
    which has no property [name]. A value found on a prototype is described
    by what the code asks of it: a [Method] is truthy and has the [name]
    given and no other property the code reads; a [Plain] value is an
    object, an array, a string, a number or [undefined], truthy or not, of
    which the code reads no property that is there. *)
Inductive Inherited : Type :=
| Method (name : string)
| Plain (truthy : bool).

Definition objectPrototype (key : string) : option Inherited :=
  if String.eqb key "constructor" then Some (Method "Object")
  else if existsb (String.eqb key)
            ["toString"; "toLocaleString"; "valueOf"; "hasOwnProperty"; "isPrototypeOf";
             "propertyIsEnumerable"; "__defineGetter__"; "__defineSetter__";
             "__lookupGetter__"; "__lookupSetter__"]
  then Some (Method key)
  else if String.eqb key "__proto__" then Some (Plain true)
  else None.

Definition truthyInherited (member : Inherited) : bool :=
  match member with
  | Method _ => true
  | Plain truthy => truthy
  end.

(** [!!object[key]] for a plain object with string values. *)
Definition truthyAt (key : string) (object : Dict) : bool :=
  match get key object with
  | Some value => truthy value
  | None =>
      match objectPrototype key with
      | Some member => truthyInherited member
      | None => false
      end
  end.

(** [x || d] for an optional string [x]: [undefined] and [''] are falsy. *)
Definition orElse (x : option string) (d : string) : string :=
  match x with
  | Some v => if truthy v then v else d
  | None => d
  end.

End Js.

(** [parseInt(s, radix)]: leading white space, an optional sign, for radix 16
    an optional [0x], then the longest run of digits of the radix; [None] is
    [NaN].  [radix = None] is the call without a radix, which reads [0x] as
    sixteen and anything else as ten.  The result is the integer the digits
    denote; the Number [parseInt] returns is the double nearest to it,
    [Double.nearest], which is what a comparison and a template literal
    see ([Double.ltb], [Double.toString]).  (Beyond twenty significant
    digits the standard leaves an engine some freedom in the rounding; V8
    gives the nearest double.) *)
Module ParseInt.

Definition digitValue (c : ascii) : option nat :=
  if Js.isDigit c then Some (Js.code c - 48)
  else if Js.isLower c then Some (Js.code c - 87)
  else if Js.isUpper c then Some (Js.code c - 55)
  else None.

Fixpoint digits (radix : nat) (acc : option Z) (s : string) : option Z :=
  match s with
  | "" => acc
  | String c s' =>
      match digitValue c with
      | Some d =>
          if d <? radix
          then digits radix (Some (default 0%Z acc * Z.of_nat radix + Z.of_nat d)%Z) s'
          else acc
      | None => acc
      end
  end.

Definition stripSign (s : string) : bool * string :=
  match s with
  | String "-" s' => (true, s')
  | String "+" s' => (false, s')
  | _ => (false, s)
  end.

Definition stripHex (s : string) : option string :=
  match s with
  | String "0" (String "x" s') => Some s'
  | String "0" (String "X" s') => Some s'
  | _ => None
  end.

Definition parseInt (s : string) (radix : option nat) : option Z :=
  let '(neg, body) := stripSign (Js.trimStart s) in
  let '(r, body) :=
    match radix with
    | Some 16 => (16, default body (stripHex body))
    | Some r => (r, body)
    | None => match stripHex body with Some b => (16, b) | None => (10, body) end
    end in
  (fun z => if neg then (- z)%Z else z) <$> digits r None body.

End ParseInt.

(** ** Numbers that are integers

    A Number is a double. One that is an integer is that integer; an
    integer is held as the double nearest to it (ties to the even
    significand), [Infinity] from [2^1024 - 2^970] on. *)
Module Double.

Inductive t : Type :=
| Infinity (negative : bool)
| Finite (z : Z).

(** A positive integer with 53 significant bits. *)
Definition roundPositive (p : Z) : Z :=
  let shift := (Z.log2 p - 52)%Z in
  if (shift <=? 0)%Z then p
  else
    let unit := (2 ^ shift)%Z in
    let q := (p / unit)%Z in
    let r := (p mod unit)%Z in
    let half := (unit / 2)%Z in
    let q := if (half <? r)%Z || ((r =? half)%Z && Z.odd q) then (q + 1)%Z else q in
    (q * unit)%Z.

Definition nearest (z : Z) : t :=
  let m := roundPositive (Z.abs z) in
  if (2 ^ 1024 <=? m)%Z then Infinity (z <? 0)%Z
  else Finite (if (z <? 0)%Z then (- m)%Z else m).

(** [a < b] *)
Definition ltb (a b : t) : bool :=
  match a, b with
  | Infinity true, Infinity true => false
  | Infinity true, _ => true
  | Finite _, Infinity negative => negb negative
  | Finite x, Finite y => (x <? y)%Z
  | Infinity false, _ => false
  end.

(** The decimal digits of a natural number. *)
Fixpoint digits (fuel : nat) (n : Z) (shown : string) : string :=
  match fuel with
  | 0 => shown
  | S fuel' =>
      let shown := String (ascii_of_N (Z.to_N (48 + n mod 10))) shown in
      if (n / 10 =? 0)%Z then shown else digits fuel' (n / 10)%Z shown
  end.
Definition show (n : Z) : string := digits (S (Z.to_nat (Z.log2 n))) n "".

Fixpoint zeros (n : nat) : string :=
  match n with
  | 0 => ""
  | S n' => String "0" (zeros n')
  end.

(** [Number::toString(x)] for a positive integral double [x]: the integers
    [n], [k] and [s] with [s] of [k] digits, [s * 10^(n - k)] a decimal that
    reads as [x], and [k] as small as possible; of several [s], the one
    nearest to [x], the even one of two. For [k] digits and a power of ten
    the candidates are the two multiples next to [x]. *)
Definition reads (x : Z) (k n : nat) (s : Z) : bool :=
  (10 ^ Z.of_nat (k - 1) <=? s)%Z && (s <? 10 ^ Z.of_nat k)%Z
  && match nearest (s * 10 ^ Z.of_nat (n - k)) with
     | Finite y => (y =? x)%Z
     | Infinity _ => false
     end.

Definition candidates (x : Z) (k : nat) : list (Z * nat) :=
  let n0 := String.length (show x) in
  List.filter (fun '(s, n) => reads x k n s)
    (flat_map
       (fun n => let low := (x / 10 ^ Z.of_nat (n - k))%Z in [(low, n); ((low + 1)%Z, n)])
       [n0; n0 + 1]).

Definition distance (x : Z) (k : nat) (candidate : Z * nat) : Z :=
  Z.abs (candidate.1 * 10 ^ Z.of_nat (candidate.2 - k) - x).

Definition nearer (x : Z) (k : nat) (a b : Z * nat) : Z * nat :=
  if (distance x k b <? distance x k a)%Z then b
  else if (distance x k b =? distance x k a)%Z && Z.even b.1 then b
  else a.

Fixpoint shortest (x : Z) (tried : nat) (k : nat) : option (Z * nat * nat) :=
  match tried with
  | 0 => None
  | S tried' =>
      match candidates x k with
      | [] => shortest x tried' (S k)
      | candidate :: others =>
          let best := fold_left (nearer x k) others candidate in
          Some (best.1, k, best.2)
      end
  end.

Definition showPositive (x : Z) : string :=
  match shortest x 17 1 with
  | None => show x
  | Some (s, k, n) =>
      if n <=? 21 then show s ++ zeros (n - k)
      else
        match show s with
        | String d "" => String d "" ++ "e+" ++ show (Z.of_nat (n - 1))
        | String d rest => String d ("." ++ rest) ++ "e+" ++ show (Z.of_nat (n - 1))
        | "" => ""
        end
  end.

(** [String(x)], and [x] in a template literal. *)
Definition toString (x : t) : string :=
  match x with
  | Infinity negative => if negative then "-Infinity" else "Infinity"
  | Finite z =>
      if (z =? 0)%Z then "0"
      else if (z <? 0)%Z then "-" ++ showPositive (- z)
      else showPositive z
  end.

End Double.

(** ** The platform

    What the code takes from the JavaScript runtime and this development
    does not define: regular expressions built from a string, numbers other
    than those [parseInt] returns, and [String.fromCharCode]. *)
Class Numbers := {
  (** A number, as [Number(...)] returns it. *)
  number : Type
}.

Class Platform := {
  numbers :: Numbers;
  (** [String.fromCharCode(n)] for the Number [n] a [parseInt] returns, given
      by the integer read. *)
  fromCharCode : option Z -> string;
  (** [Number(s)] for a string [s]. *)
  toNumber : string -> number;
  (** The number that is the length of a string. *)
  ofLength : nat -> number;
  (** [a < b] on numbers. *)
  numLt : number -> number -> bool;
  numIsNaN : number -> bool;
  (** [String(n)]. *)
  numToString : number -> string;
  (** A compiled regular expression. *)
  regexp : Type;
  (** [new RegExp(s)]; [None] when the constructor throws a SyntaxError. *)
  RegExp : string -> option regexp;
  (** [re.test(s)]. *)
  test : regexp -> string -> bool
}.

(** ** The node, diagnostic and schema types ([src/types.ts])

    One module per interface, so that the fields keep their names. The
    optional [namespace] fields of a node and of an element definition are
    never written by the code of the repository and are left out. *)

Module Types.

Module XmlNode.
#[warning="-register-all"]
Inductive t : Type :=
  mk (name : string) (attributes : Js.Dict) (children : list t) (text : option string).

Definition name (n : t) : string := let 'mk a _ _ _ := n in a.
Definition attributes (n : t) : Js.Dict := let 'mk _ a _ _ := n in a.
Definition children (n : t) : list t := let 'mk _ _ c _ := n in c.
Definition text (n : t) : option string := let 'mk _ _ _ x := n in x.
End XmlNode.

Module ValidationError.
Record t : Type := mk {
  line : nat;
  column : nat;
  message : string;
  code : string
}.
End ValidationError.

Module XsdAttribute.
(** [use] is the attribute text as written: the builder casts it. *)
Record t : Type := mk {
  name : string;
  type : string;
  use : string;
  defaultValue : option string;
  fixedValue : option string
}.
End XsdAttribute.

Module XsdRestriction.
Section WithNumbers.
Context `{Numbers}.
(** [value: string | number] *)
Inductive Value : Type :=
| VString (s : string)
| VNumber (n : number).
(** [type] is the local name of the facet element: the builder casts it. *)
Record t : Type := mk {
  type : string;
  value : Value
}.
End WithNumbers.
End XsdRestriction.

(** [maxOccurs: number | 'unbounded']. An occurrence bound is a result of
    [parseInt]: the double nearest to the integer given, or [NaN] for
    [None]. *)
Inductive MaxOccurs : Type :=
| Unbounded
| Bounded (n : option Z).

Module XsdElement.
Section WithNumbers.
Context `{Numbers}.
#[warning="-register-all"]
Inductive t : Type := mk {
  name : string;
  type : string;
  minOccurs : option Z;
  maxOccurs : MaxOccurs;
  attributes : list XsdAttribute.t;
  children : list t;
  restrictions : option (list XsdRestriction.t)
}.
End WithNumbers.
End XsdElement.

Module XsdComplexType.
Section WithNumbers.
Context `{Numbers}.
Record t : Type := mk {
  name : string;
  elements : list XsdElement.t;
  attributes : list XsdAttribute.t
}.
End WithNumbers.
End XsdComplexType.

Module XsdSimpleType.
Section WithNumbers.
Context `{Numbers}.
Record t : Type := mk {
  name : string;
  baseType : string;
  restrictions : list XsdRestriction.t
}.
End WithNumbers.
End XsdSimpleType.

Module XsdSchema.
Section WithNumbers.
Context `{Numbers}.
Record t : Type := mk {
  targetNamespace : option string;
  elements : gmap string XsdElement.t;
  complexTypes : gmap string XsdComplexType.t;
  simpleTypes : gmap string XsdSimpleType.t;
  namespaces : gmap string string
}.
End WithNumbers.
End XsdSchema.

End Types.

Notation "a === b" := (String.eqb a b) (at level 70, no associativity).
Notation "a !== b" := (negb (String.eqb a b)) (at level 70, no associativity).

(** ** The parser ([src/xml-parser.ts]) *)

Module XmlParser.

(** The four private fields of the parser. *)
Record State : Type := mkState {
  xml : string;
  position : nat;
  line : nat;
  column : nat
}.

(** The outcome of an operation on the cursor: a value, a thrown [Error]
    with its message, or no outcome within the fuel given. Both outcomes
    carry the fields as the operation left them. *)
Inductive Res (A : Type) : Type :=
| Ok (a : A) (st : State)
| Throw (msg : string) (st : State)
| OutOfFuel.
Arguments Ok {A} a st.
Arguments Throw {A} msg st.
Arguments OutOfFuel {A}.

Definition P (A : Type) : Type := State -> Res A.

Definition ret {A} (a : A) : P A := fun st => Ok a st.

Definition bind {A B} (m : P A) (k : A -> P B) : P B :=
  fun st =>
    match m st with
    | Ok a st' => k a st'
    | Throw msg st' => Throw msg st'
    | OutOfFuel => OutOfFuel
    end.

Definition throw {A} (msg : string) : P A := fun st => Throw msg st.

Notation "'let*' x ':=' m 'in' k" := (bind m (fun x => k))
  (at level 10, x name, m at level 100, k at level 200).
Notation "m ;; k" := (bind m (fun _ => k))
  (at level 100, k at level 200, right associativity).

Definition current (st : State) : string := Js.charAt (xml st) (position st).

Definition peek (offset : nat) (st : State) : string :=
  Js.charAt (xml st) (position st + offset).

Definition inBounds (st : State) : bool := position st <? String.length (xml st).

Definition advanceState (st : State) : State :=
  if inBounds st then
    if Js.charAt (xml st) (position st) === String Js.LF ""
    then mkState (xml st) (position st + 1) (line st + 1) 1
    else mkState (xml st) (position st + 1) (line st) (column st + 1)
  else st.

Definition advance : P unit := fun st => Ok tt (advanceState st).

Definition isWhitespace (char : string) : bool :=
  (char === " ") || (char === String Js.TAB "") || (char === String Js.LF "")
  || (char === String Js.CR "").

Definition isNameStartChar (char : string) : bool :=
  match char with
  | "" => false
  | String c _ =>
      (Js.isLower c || Js.isUpper c || Ascii.eqb c "_")
      || Js.inRange 192 214 c || Js.inRange 216 246 c || (248 <=? Js.code c)
  end.

Definition isNameChar (char : string) : bool :=
  match char with
  | "" => false
  | String c _ =>
      (Js.isLower c || Js.isUpper c || Js.isDigit c || Ascii.eqb c "_"
       || Ascii.eqb c ":" || Ascii.eqb c "." || Ascii.eqb c "-")
      || Js.inRange 192 214 c || Js.inRange 216 246 c || (248 <=? Js.code c)
  end.

Fixpoint skipWhitespace (fuel : nat) : P unit :=
  fun st =>
    match fuel with
    | 0 => OutOfFuel
    | S fuel' =>
        if inBounds st && isWhitespace (current st)
        then (advance ;; skipWhitespace fuel') st
        else Ok tt st
    end.

Fixpoint parseNameLoop (fuel : nat) (name : string) : P string :=
  fun st =>
    match fuel with
    | 0 => OutOfFuel
    | S fuel' =>
        if inBounds st then
          let char := current st in
          if isNameChar char
          then (advance ;; parseNameLoop fuel' (name ++ char)) st
          else Ok name st
        else Ok name st
    end.

Definition parseName (fuel : nat) : P string :=
  fun st =>
    let firstChar := current st in
    if negb (isNameStartChar firstChar)
    then Throw ("Invalid name start character: '" ++ firstChar ++ "'") st
    else
      (let* name := parseNameLoop fuel "" in
       if negb (Js.truthy name) then throw "Expected element name" else ret name) st.

Fixpoint skipDeclarationLoop (fuel : nat) : P unit :=
  fun st =>
    match fuel with
    | 0 => OutOfFuel
    | S fuel' =>
        if inBounds st && negb ((current st === "?") && (peek 1 st === ">"))
        then (advance ;; skipDeclarationLoop fuel') st
        else Ok tt st
    end.

Definition skipDeclaration (fuel : nat) : P unit :=
  skipDeclarationLoop fuel ;;
  (fun st => if current st === "?" then advance st else Ok tt st) ;;
  (fun st => if current st === ">" then advance st else Ok tt st).

(** [this.position += n], the one assignment to the cursor that does not go
    through [advance]. *)
Definition jump (n : nat) : P unit :=
  fun st => Ok tt (mkState (xml st) (position st + n) (line st) (column st)).

Fixpoint skipXmlCommentLoop (fuel : nat) : P unit :=
  fun st =>
    match fuel with
    | 0 => OutOfFuel
    | S fuel' =>
        if position st + 2 <? String.length (xml st) then
          if String.substring (position st) 3 (xml st) === "-->"
          then jump 3 st
          else (advance ;; skipXmlCommentLoop fuel') st
        else Ok tt st
    end.

Definition skipXmlComment (fuel : nat) : P unit :=
  jump 4 ;; skipXmlCommentLoop fuel.

Fixpoint skipDoctypeLoop (fuel : nat) (depth : Z) : P unit :=
  fun st =>
    match fuel with
    | 0 => OutOfFuel
    | S fuel' =>
        if inBounds st then
          if current st === "<"
          then (advance ;; skipDoctypeLoop fuel' (depth + 1)%Z) st
          else if current st === ">" then
            if (depth - 1 =? 0)%Z then advance st
            else (advance ;; skipDoctypeLoop fuel' (depth - 1)%Z) st
          else (advance ;; skipDoctypeLoop fuel' depth) st
        else Ok tt st
    end.

Definition skipDoctype (fuel : nat) : P unit := skipDoctypeLoop fuel 0%Z.

Definition skipComment (fuel : nat) : P unit :=
  fun st =>
    if peek 4 st === "<!--" then skipXmlComment fuel st
    else if peek 9 st === "<!DOCTYPE" then skipDoctype fuel st
    else Ok tt st.

Fixpoint skipProcessingInstruction (fuel : nat) : P unit :=
  fun st =>
    match fuel with
    | 0 => OutOfFuel
    | S fuel' =>
        if position st + 1 <? String.length (xml st) then
          if (current st === "?") && (peek 1 st === ">")
          then (advance ;; advance) st
          else (advance ;; skipProcessingInstruction fuel') st
        else Ok tt st
    end.

(** The loop of [parse] over what precedes the root element. *)
Fixpoint skipProlog (fuel : nat) : P unit :=
  fun st =>
    match fuel with
    | 0 => OutOfFuel
    | S fuel' =>
        if inBounds st && (current st === "<") then
          if peek 1 st === "!"
          then (skipComment fuel' ;; skipWhitespace fuel' ;; skipProlog fuel') st
          else if peek 1 st === "?"
          then (skipProcessingInstruction fuel' ;; skipWhitespace fuel' ;;
                skipProlog fuel') st
          else Ok tt st
        else Ok tt st
    end.

(** The result of [parse]. *)
Record ParseResult : Type := mkParseResult {
  node : option Types.XmlNode.t;
  errors : list Types.ValidationError.t
}.

Section WithPlatform.
Context `{Platform}.

Fixpoint parseEntityLoop (fuel : nat) (entity : string) : P string :=
  fun st =>
    match fuel with
    | 0 => OutOfFuel
    | S fuel' =>
        if inBounds st && (current st !== ";")
        then (advance ;; parseEntityLoop fuel' (entity ++ current st)) st
        else Ok entity st
    end.

Definition decodeEntity (entity : string) : string :=
  if entity === "amp" then "&"
  else if entity === "lt" then "<"
  else if entity === "gt" then ">"
  else if entity === "quot" then String Js.QUOTE ""
  else if entity === "apos" then "'"
  else if Js.startsWith entity "#" then
    let code :=
      if Js.startsWith entity "#x"
      then ParseInt.parseInt (Js.substringFrom 2 entity) (Some 16)
      else ParseInt.parseInt (Js.substringFrom 1 entity) (Some 10) in
    fromCharCode code
  else "&" ++ entity ++ ";".

Definition parseEntity (fuel : nat) : P string :=
  fun st =>
    if current st !== "&" then Throw "Expected entity" st
    else
      (advance ;;
       let* entity := parseEntityLoop fuel "" in
       fun st =>
         if current st !== ";" then Throw "Unterminated entity" st
         else (advance ;; ret (decodeEntity entity)) st) st.

Fixpoint parseAttributeValueLoop (fuel : nat) (quote value : string) : P string :=
  fun st =>
    match fuel with
    | 0 => OutOfFuel
    | S fuel' =>
        if inBounds st && (current st !== quote) then
          if current st === "&"
          then (let* decoded := parseEntity fuel' in
                parseAttributeValueLoop fuel' quote (value ++ decoded)) st
          else (advance ;; parseAttributeValueLoop fuel' quote (value ++ current st)) st
        else Ok value st
    end.

Definition parseAttributeValue (fuel : nat) : P string :=
  fun st =>
    let quote := current st in
    if (quote !== String Js.QUOTE "") && (quote !== "'")
    then Throw ("Expected quote but found '" ++ quote ++ "'") st
    else
      (advance ;;
       let* value := parseAttributeValueLoop fuel quote "" in
       fun st =>
         if current st !== quote then Throw "Unterminated attribute value" st
         else (advance ;; ret value) st) st.

Fixpoint parseAttributesLoop (fuel : nat) (attributes : Js.Dict)
  : P Js.Dict :=
  fun st =>
    match fuel with
    | 0 => OutOfFuel
    | S fuel' =>
        if inBounds st then
          (skipWhitespace fuel' ;;
           fun st =>
             if (current st === ">") || (current st === "/") || (current st === "?")
             then Ok attributes st
             else
               (let* name := parseName fuel' in
                skipWhitespace fuel' ;;
                fun st =>
                  if current st !== "="
                  then Throw ("Expected '=' after attribute name '" ++ name ++ "'") st
                  else
                    (advance ;;
                     skipWhitespace fuel' ;;
                     let* value := parseAttributeValue fuel' in
                     parseAttributesLoop fuel' (Js.set name value attributes)) st) st) st
        else Ok attributes st
    end.

Definition parseAttributes (fuel : nat) : P Js.Dict :=
  parseAttributesLoop fuel [].

Definition parseEndTag (fuel : nat) (expectedName : string) : P unit :=
  fun st =>
    if (current st === "<") && (peek 1 st === "/") then
      (advance ;;
       advance ;;
       let* endTagName := parseName fuel in
       if endTagName !== expectedName
       then throw ("End tag '" ++ endTagName ++ "' does not match start tag '"
                   ++ expectedName ++ "'")
       else
         skipWhitespace fuel ;;
         fun st =>
           if current st !== ">" then Throw "Expected '>' in end tag" st
           else advance st) st
    else Ok tt st.

Definition buildElementNode (name : string) (attributes : Js.Dict)
    (children : list Types.XmlNode.t) (text : string) : Types.XmlNode.t :=
  if Js.truthy (Js.trim text) && (length children =? 0)
  then Types.XmlNode.mk name attributes children (Some (Js.trim text))
  else Types.XmlNode.mk name attributes children None.

Definition textNode (text : string) : Types.XmlNode.t :=
  Types.XmlNode.mk "#text" [] [] (Some (Js.trim text)).

Fixpoint parseElement (fuel : nat) : P Types.XmlNode.t :=
  fun st =>
    match fuel with
    | 0 => OutOfFuel
    | S fuel' =>
        if current st !== "<"
        then Throw ("Expected '<' but found '" ++ current st ++ "'") st
        else
          (advance ;;
           fun st =>
             if current st === "/" then Throw "Unexpected end tag" st
             else
               (let* name := parseName fuel' in
                let* attributes := parseAttributes fuel' in
                skipWhitespace fuel' ;;
                fun st =>
                  if (current st === "/") && (peek 1 st === ">")
                  then (advance ;; advance ;;
                        ret (Types.XmlNode.mk name attributes [] None)) st
                  else if current st !== ">"
                  then Throw ("Expected '>' but found '" ++ current st ++ "'") st
                  else (advance ;; parseElementContent fuel' name attributes) st) st) st
    end

with parseElementContent (fuel : nat) (name : string)
    (attributes : Js.Dict) : P Types.XmlNode.t :=
  match fuel with
  | 0 => fun _ => OutOfFuel
  | S fuel' =>
      let* content := parseElementContentLoop fuel' [] "" in
      parseEndTag fuel' name ;;
      ret (buildElementNode name attributes content.1 content.2)
  end

with parseElementContentLoop (fuel : nat) (children : list Types.XmlNode.t)
    (text : string) : P (list Types.XmlNode.t * string) :=
  fun st =>
    match fuel with
    | 0 => OutOfFuel
    | S fuel' =>
        if inBounds st then
          (skipWhitespace fuel' ;;
           fun st =>
             if current st === "<" then
               if peek 1 st === "/" then Ok (children, text) st
               else
                 let flush := Js.truthy (Js.trim text) in
                 let children := if flush then (children ++ [textNode text])%list else children in
                 let text := if flush then "" else text in
                 (let* child := parseElement fuel' in
                  parseElementContentLoop fuel' (children ++ [child])%list text) st
             else
               (advance ;; parseElementContentLoop fuel' children (text ++ current st)) st) st
        else Ok (children, text) st
    end.

(** The body of the [try] block of [parse]. *)
Definition document (fuel : nat) : P Types.XmlNode.t :=
  skipWhitespace fuel ;;
  (fun st =>
     if peek 5 st === "<?xml"
     then (skipDeclaration fuel ;; skipWhitespace fuel) st
     else Ok tt st) ;;
  skipProlog fuel ;;
  parseElement fuel.

Definition initial (xmlString : string) : State := mkState xmlString 0 1 1.

(** [parse] with its [try] and [catch]; [None] when the fuel does not
    suffice. *)
Definition parseWith (fuel : nat) (xmlString : string) : option ParseResult :=
  match document fuel (initial xmlString) with
  | Ok root _ => Some (mkParseResult (Some root) [])
  | Throw msg st =>
      Some (mkParseResult None [Types.ValidationError.mk (line st) (column st) msg "PARSE_ERROR"])
  | OutOfFuel => None
  end.

(** Fuel that suffices whenever any amount does (see [parseWith_stable]);
    [parse xmlString = None] says the call does not return. *)
Definition fuelFor (xmlString : string) : nat := String.length xmlString + 4.

Definition parse (xmlString : string) : option ParseResult :=
  parseWith (fuelFor xmlString) xmlString.

End WithPlatform.

End XmlParser.

(** ** Regular expressions

    The regular-expression literals of the validator, all of the form
    [/^...$/], are given as terms of [Regex.t]; [Regex.fullMatch] decides
    whether the whole string belongs to the language, by derivatives. *)

Module Regex.

Inductive t : Type :=
| Void
| Eps
| Chr (set : ascii -> bool)
| Cat (a b : t)
| Alt (a b : t)
| Star (a : t).

Fixpoint nullable (r : t) : bool :=
  match r with
  | Void => false
  | Eps => true
  | Chr _ => false
  | Cat a b => nullable a && nullable b
  | Alt a b => nullable a || nullable b
  | Star _ => true
  end.

Definition cat (a b : t) : t :=
  match a, b with
  | Void, _ => Void
  | _, Void => Void
  | Eps, _ => b
  | _, Eps => a
  | _, _ => Cat a b
  end.

Definition alt (a b : t) : t :=
  match a, b with
  | Void, _ => b
  | _, Void => a
  | _, _ => Alt a b
  end.

Fixpoint derive (c : ascii) (r : t) : t :=
  match r with
  | Void => Void
  | Eps => Void
  | Chr set => if set c then Eps else Void
  | Cat a b =>
      if nullable a then alt (cat (derive c a) b) (derive c b) else cat (derive c a) b
  | Alt a b => alt (derive c a) (derive c b)
  | Star a => cat (derive c a) (Star a)
  end.

Fixpoint fullMatch (r : t) (s : string) : bool :=
  match s with
  | "" => nullable r
  | String c s' => fullMatch (derive c r) s'
  end.

Definition char (c : ascii) : t := Chr (Ascii.eqb c).
Definition anyChar : t := Chr (fun _ => true).
(** [\d] *)
Definition digit : t := Chr Js.isDigit.
(** [r?], [r+], [r{n}], [r{n,m}], [r{n,}] *)
Definition opt (r : t) : t := Alt Eps r.
Definition plus (r : t) : t := Cat r (Star r).
Fixpoint times (n : nat) (r : t) : t :=
  match n with
  | 0 => Eps
  | S n' => Cat r (times n' r)
  end.
Definition between (n m : nat) (r : t) : t := Cat (times n r) (times (m - n) (opt r)).
Definition atLeast (n : nat) (r : t) : t := Cat (times n r) (Star r).

Fixpoint seq (rs : list t) : t :=
  match rs with
  | [] => Eps
  | r :: rs' => Cat r (seq rs')
  end.

(** [re.test(s)] for a regular expression without assertions: some
    substring of [s] belongs to the language. *)
Definition search (r : t) (s : string) : bool :=
  fullMatch (Cat (Star anyChar) (Cat r (Star anyChar))) s.

(** The literals of [validateSimpleValue]. *)
(** [/^-?\d+$/] *)
Definition integerLiteral : t := seq [opt (char "-"); plus digit].
(** [/^-?\d*\.?\d+$/] *)
Definition decimalLiteral : t := seq [opt (char "-"); Star digit; opt (char "."); plus digit].
(** [/^\d{4}-\d{2}-\d{2}$/] *)
Definition dateLiteral : t :=
  seq [times 4 digit; char "-"; times 2 digit; char "-"; times 2 digit].
(** [\d{2}:\d{2}:\d{2}(\.\d+)?(Z|[+-]\d{2}:\d{2})?] *)
Definition clock : t :=
  seq [times 2 digit; char ":"; times 2 digit; char ":"; times 2 digit;
       opt (seq [char "."; plus digit]);
       opt (Alt (char "Z")
                (seq [Chr (fun c => Ascii.eqb c "+" || Ascii.eqb c "-");
                      times 2 digit; char ":"; times 2 digit]))].
(** [/^\d{4}-\d{2}-\d{2}T\d{2}:\d{2}:\d{2}(\.\d+)?(Z|[+-]\d{2}:\d{2})?$/] *)
Definition dateTimeLiteral : t := seq [dateLiteral; char "T"; clock].
(** [/^\d{2}:\d{2}:\d{2}(\.\d+)?(Z|[+-]\d{2}:\d{2})?$/] *)
Definition timeLiteral : t := clock.

End Regex.

(** ** The schema builder ([src/xsd-parser.ts]) *)

Module XsdParser.
Import Types.

(** The result of [parseSchema]. *)
Section Result.
Context `{Numbers}.
Record SchemaResult : Type := mkSchemaResult {
  schema : option XsdSchema.t;
  errors : list ValidationError.t
}.

End Result.

Section WithPlatform.
Context `{Platform}.

Definition getLocalName (name : string) : string :=
  match Js.indexOf ":" name with
  | None => name
  | Some colonIndex => Js.substringFrom (colonIndex + 1) name
  end.

Definition parseAttribute (attributeNode : XmlNode.t) : XsdAttribute.t :=
  let attributes := XmlNode.attributes attributeNode in
  XsdAttribute.mk
    (Js.orElse (Js.get "name" attributes) "")
    (Js.orElse (Js.get "type" attributes) "string")
    (Js.orElse (Js.get "use" attributes) "optional")
    (Js.get "default" attributes)
    (Js.get "fixed" attributes).

(** [isNaN(Number(value)) ? value : Number(value)] *)
Definition coerce (value : string) : XsdRestriction.Value :=
  if numIsNaN (toNumber value) then XsdRestriction.VString value
  else XsdRestriction.VNumber (toNumber value).

Definition parseRestrictionChildren (restrictions : list XsdRestriction.t)
    (restrictionChildren : list XmlNode.t) : list XsdRestriction.t :=
  fold_left
    (fun restrictions restrictionChild =>
       match Js.get "value" (XmlNode.attributes restrictionChild) with
       | Some value =>
           (restrictions ++
              [XsdRestriction.mk (getLocalName (XmlNode.name restrictionChild))
                 (coerce value)])%list
       | None => restrictions
       end)
    restrictionChildren restrictions.

Definition parseSimpleType (simpleTypeNode : XmlNode.t) : XsdSimpleType.t :=
  fold_left
    (fun simpleType child =>
       if getLocalName (XmlNode.name child) === "restriction" then
         XsdSimpleType.mk
           (XsdSimpleType.name simpleType)
           (Js.orElse (Js.get "base" (XmlNode.attributes child)) "string")
           (parseRestrictionChildren (XsdSimpleType.restrictions simpleType)
              (XmlNode.children child))
       else simpleType)
    (XmlNode.children simpleTypeNode)
    (XsdSimpleType.mk (Js.orElse (Js.get "name" (XmlNode.attributes simpleTypeNode)) "")
       "string" []).

Definition parseMaxOccurs (attributes : Js.Dict) : MaxOccurs :=
  match Js.get "maxOccurs" attributes with
  | Some "unbounded" => Unbounded
  | maxOccurs => Bounded (ParseInt.parseInt (Js.orElse maxOccurs "1") None)
  end.

(** The element as [parseElement] initialises it, before its children are
    looked at. *)
Definition newElement (elementNode : XmlNode.t) : XsdElement.t :=
  let attributes := XmlNode.attributes elementNode in
  XsdElement.mk
    (Js.orElse (Js.get "name" attributes) "")
    (Js.orElse (Js.get "type" attributes) "string")
    (ParseInt.parseInt (Js.orElse (Js.get "minOccurs" attributes) "1") None)
    (parseMaxOccurs attributes)
    [] [] None.

Definition setType (element : XsdElement.t) (type : string)
    (restrictions : option (list XsdRestriction.t)) : XsdElement.t :=
  XsdElement.mk (XsdElement.name element) type (XsdElement.minOccurs element)
    (XsdElement.maxOccurs element) (XsdElement.attributes element)
    (XsdElement.children element) restrictions.

(** [parseElement] and [parseComplexType] call each other along the tree.
    The complex type [parseElement] builds for an inline [complexType] child
    is dropped, as in the source. *)
Fixpoint parseElement (elementNode : XmlNode.t) : XsdElement.t :=
  fold_left
    (fun element child =>
       let localName := getLocalName (XmlNode.name child) in
       if localName === "complexType" then
         let complexType := parseComplexType child in
         setType element ("#inline-" ++ XsdElement.name element)
           (XsdElement.restrictions element)
       else if localName === "simpleType" then
         let simpleType := parseSimpleType child in
         setType element ("#inline-" ++ XsdElement.name element)
           (Some (XsdSimpleType.restrictions simpleType))
       else element)
    (XmlNode.children elementNode)
    (newElement elementNode)

with parseComplexType (complexTypeNode : XmlNode.t) : XsdComplexType.t :=
  fold_left
    (fun complexType child =>
       let localName := getLocalName (XmlNode.name child) in
       if (localName === "sequence") || (localName === "choice") || (localName === "all")
       then
         fold_left
           (fun complexType sequenceChild =>
              if getLocalName (XmlNode.name sequenceChild) === "element" then
                XsdComplexType.mk (XsdComplexType.name complexType)
                  (XsdComplexType.elements complexType ++ [parseElement sequenceChild])%list
                  (XsdComplexType.attributes complexType)
              else complexType)
           (XmlNode.children child)
           complexType
       else if localName === "attribute" then
         XsdComplexType.mk (XsdComplexType.name complexType)
           (XsdComplexType.elements complexType)
           (XsdComplexType.attributes complexType ++ [parseAttribute child])%list
       else complexType)
    (XmlNode.children complexTypeNode)
    (XsdComplexType.mk
       (Js.orElse (Js.get "name" (XmlNode.attributes complexTypeNode)) "") [] []).

Definition parseNamespaces (attributes : Js.Dict) : gmap string string :=
  fold_left
    (fun namespaces '(key, value) =>
       if Js.startsWith key "xmlns:" then
         let prefix := Js.substringFrom 6 key in
         if prefix === "__proto__" then namespaces else <[prefix := value]> namespaces
       else if key === "xmlns" then <["" := value]> namespaces
       else namespaces)
    attributes ∅.

(** [buildSchema] returns the schema or throws an [Error] with a message.
    The three mappings are plain objects written by [mapping[name] = x]:
    the entries are the properties of the object itself, and the entry
    under [__proto__], if there is one, is the prototype of the object,
    which is what the assignment under that name sets ([XmlValidator.lookup]
    reads a mapping accordingly). A string assigned under [__proto__], as in
    [namespaces], is ignored. *)
Definition buildSchema (schemaNode : XmlNode.t) : XsdSchema.t + string :=
  if (XmlNode.name schemaNode !== "schema")
     && negb (Js.endsWith (XmlNode.name schemaNode) ":schema")
  then inr "Root element must be schema"
  else
    inl
      (fold_left
         (fun schema child =>
            let localName := getLocalName (XmlNode.name child) in
            if localName === "element" then
              let element := parseElement child in
              XsdSchema.mk (XsdSchema.targetNamespace schema)
                (<[XsdElement.name element := element]> (XsdSchema.elements schema))
                (XsdSchema.complexTypes schema) (XsdSchema.simpleTypes schema)
                (XsdSchema.namespaces schema)
            else if localName === "complexType" then
              let complexType := parseComplexType child in
              XsdSchema.mk (XsdSchema.targetNamespace schema)
                (XsdSchema.elements schema)
                (<[XsdComplexType.name complexType := complexType]>
                   (XsdSchema.complexTypes schema))
                (XsdSchema.simpleTypes schema) (XsdSchema.namespaces schema)
            else if localName === "simpleType" then
              let simpleType := parseSimpleType child in
              XsdSchema.mk (XsdSchema.targetNamespace schema)
                (XsdSchema.elements schema) (XsdSchema.complexTypes schema)
                (<[XsdSimpleType.name simpleType := simpleType]>
                   (XsdSchema.simpleTypes schema))
                (XsdSchema.namespaces schema)
            else schema)
         (XmlNode.children schemaNode)
         (XsdSchema.mk (Js.get "targetNamespace" (XmlNode.attributes schemaNode))
            ∅ ∅ ∅ (parseNamespaces (XmlNode.attributes schemaNode)))).

(** [parseSchema], given the fuel for the parser. *)
Definition parseSchemaWith (fuel : nat) (xsdString : string) : option SchemaResult :=
  match XmlParser.parseWith fuel xsdString with
  | None => None
  | Some (XmlParser.mkParseResult node errors) =>
      match node with
      | Some node =>
          if 0 <? length errors then Some (mkSchemaResult None errors)
          else
            match buildSchema node with
            | inl schema => Some (mkSchemaResult (Some schema) [])
            | inr msg =>
                Some (mkSchemaResult None
                        (errors ++ [ValidationError.mk 1 1 msg "SCHEMA_ERROR"])%list)
            end
      | None => Some (mkSchemaResult None errors)
      end
  end.

Definition parseSchema (xsdString : string) : option SchemaResult :=
  parseSchemaWith (XmlParser.fuelFor xsdString) xsdString.

End WithPlatform.
End XsdParser.

(** ** The validator ([src/xml-validator.ts]) *)

Module XmlValidator.
Import Types.

(** What a private operation of the validator does: it pushes diagnostics
    on [this.errors] and returns, or an exception escapes it. *)
Inductive Outcome : Type :=
| Done (pushed : list ValidationError.t)
| Thrown (error : string).

Definition andThen (a b : Outcome) : Outcome :=
  match a with
  | Done pushed =>
      match b with
      | Done pushed' => Done (pushed ++ pushed')
      | Thrown error => Thrown error
      end
  | Thrown error => Thrown error
  end.

Notation "a ;; b" := (andThen a b) (at level 100, b at level 200, right associativity).

Definition skip : Outcome := Done [].

(** [for (const x of l) body(x)] *)
Fixpoint forEach {A} (body : A -> Outcome) (l : list A) : Outcome :=
  match l with
  | [] => skip
  | x :: l' => body x ;; forEach body l'
  end.

Definition addError (line column : nat) (message code : string) : Outcome :=
  Done [ValidationError.mk line column message code].

(** [if (c) addError(...)] *)
Definition when (c : bool) (o : Outcome) : Outcome := if c then o else skip.

(** A count in a template literal: its decimal digits. *)
Fixpoint showDigits (fuel n : nat) (shown : string) : string :=
  match fuel with
  | 0 => shown
  | S fuel' =>
      let shown := String (ascii_of_nat (48 + n mod 10)) shown in
      if n / 10 =? 0 then shown else showDigits fuel' (n / 10) shown
  end.
Definition showNat (n : nat) : string := showDigits (S n) n "".
(** A result of [parseInt] in a template literal. *)
Definition showInt (n : option Z) : string :=
  match n with
  | Some z => Double.toString (Double.nearest z)
  | None => "NaN"
  end.

(** [count < bound] and [count > bound] for a count and a result of
    [parseInt]; both are false on [NaN]. *)
Definition countLt (count : nat) (bound : option Z) : bool :=
  match bound with
  | Some z => Double.ltb (Double.nearest (Z.of_nat count)) (Double.nearest z)
  | None => false
  end.
Definition countGt (count : nat) (bound : option Z) : bool :=
  match bound with
  | Some z => Double.ltb (Double.nearest z) (Double.nearest (Z.of_nat count))
  | None => false
  end.

Definition isBuiltInType (type : string) : bool :=
  existsb (String.eqb type)
    ["string"; "int"; "integer"; "decimal"; "float"; "double"; "boolean";
     "date"; "dateTime"; "time"; "base64Binary"; "hexBinary"].

Definition validateSimpleValue (value type : string) : bool :=
  if type === "string" then true
  else if (type === "int") || (type === "integer")
  then Regex.fullMatch Regex.integerLiteral value
  else if (type === "decimal") || (type === "float") || (type === "double")
  then Regex.fullMatch Regex.decimalLiteral value
  else if type === "boolean"
  then (value === "true") || (value === "false") || (value === "1") || (value === "0")
  else if type === "date" then Regex.fullMatch Regex.dateLiteral value
  else if type === "dateTime" then Regex.fullMatch Regex.dateTimeLiteral value
  else if type === "time" then Regex.fullMatch Regex.timeLiteral value
  else true.

(** [xmlNode.text || xmlNode.children.find(child => child.name === '#text')?.text || ''] *)
Definition textContentOf (xmlNode : XmlNode.t) : string :=
  Js.orElse (XmlNode.text xmlNode)
    (Js.orElse
       (match List.find (fun child => XmlNode.name child === "#text")
                (XmlNode.children xmlNode) with
        | Some child => XmlNode.text child
        | None => None
        end)
       "").

(** ** Reading a mapping of the schema

    [mapping[key]]: a property of the object itself, or else what its
    prototype chain has under [key]. The prototype is [Object.prototype],
    unless a definition named [__proto__] has been assigned: then that
    definition is the prototype, the lookup of [__proto__] gives it, and
    its fields are inherited before those of [Object.prototype]. *)
Inductive Found (A : Type) : Type :=
| Own (x : A)
| Foreign (member : Js.Inherited)
| Absent.
Arguments Own {A} x.
Arguments Foreign {A} member.
Arguments Absent {A}.

(** [!found], negated: a definition is an object. *)
Definition truthyFound {A} (found : Found A) : bool :=
  match found with
  | Own _ => true
  | Foreign member => Js.truthyInherited member
  | Absent => false
  end.

Definition lookup {A} (field : A -> string -> option Js.Inherited)
    (mapping : gmap string A) (key : string) : Found A :=
  match mapping !! key with
  | Some x => Own x
  | None =>
      match mapping !! "__proto__" ≫= (fun prototype => field prototype key) with
      | Some member => Foreign member
      | None =>
          match Js.objectPrototype key with
          | Some member => Foreign member
          | None => Absent
          end
      end
  end.

(** A Number is falsy when it is [0] or [NaN]. *)
Definition truthyInt (n : option Z) : bool :=
  match n with
  | Some z => negb (z =? 0)%Z
  | None => false
  end.

Section Fields.
Context `{Numbers}.

(** The properties of the objects [parseElement], [parseComplexType] and
    [parseSimpleType] make, as inherited values. *)
Definition elementField (element : XsdElement.t) (key : string) : option Js.Inherited :=
  if key === "name" then Some (Js.Plain (Js.truthy (XsdElement.name element)))
  else if key === "type" then Some (Js.Plain (Js.truthy (XsdElement.type element)))
  else if key === "minOccurs" then Some (Js.Plain (truthyInt (XsdElement.minOccurs element)))
  else if key === "maxOccurs" then
    Some (Js.Plain (match XsdElement.maxOccurs element with
                    | Unbounded => true
                    | Bounded n => truthyInt n
                    end))
  else if (key === "attributes") || (key === "children") then Some (Js.Plain true)
  else if key === "namespace" then Some (Js.Plain false)
  else if key === "restrictions" then
    match XsdElement.restrictions element with
    | Some _ => Some (Js.Plain true)
    | None => None
    end
  else None.

Definition complexTypeField (complexType : XsdComplexType.t) (key : string)
  : option Js.Inherited :=
  if key === "name" then Some (Js.Plain (Js.truthy (XsdComplexType.name complexType)))
  else if (key === "elements") || (key === "attributes") then Some (Js.Plain true)
  else None.

Definition simpleTypeField (simpleType : XsdSimpleType.t) (key : string)
  : option Js.Inherited :=
  if key === "name" then Some (Js.Plain (Js.truthy (XsdSimpleType.name simpleType)))
  else if key === "baseType" then Some (Js.Plain (Js.truthy (XsdSimpleType.baseType simpleType)))
  else if key === "restrictions" then Some (Js.Plain true)
  else None.

End Fields.

(** The exception of reading a property of [undefined] or of iterating
    over [undefined]: a TypeError, whose message is the engine's. *)
Definition TypeError : Outcome := Thrown "TypeError".

Section WithPlatform.
Context `{Platform}.

(** [Number(restriction.value)] and [String(restriction.value)] *)
Definition NumberOf (value : XsdRestriction.Value) : number :=
  match value with
  | XsdRestriction.VString s => toNumber s
  | XsdRestriction.VNumber n => n
  end.
Definition StringOf (value : XsdRestriction.Value) : string :=
  match value with
  | XsdRestriction.VString s => s
  | XsdRestriction.VNumber n => numToString n
  end.

(** The body of the loop of [validateRestrictions]. When [new RegExp]
    throws, the exception is a SyntaxError; of its message, which is the
    engine's, the start every engine shares is kept. *)
Definition validateRestriction (value : string) (line column : nat)
    (elementName : string) (restriction : XsdRestriction.t) : Outcome :=
  let type := XsdRestriction.type restriction in
  let shown := StringOf (XsdRestriction.value restriction) in
  let subject := "Value '" ++ value ++ "' in element '" ++ elementName ++ "'" in
  if type === "minLength" then
    when (numLt (ofLength (String.length value)) (NumberOf (XsdRestriction.value restriction)))
      (addError line column (subject ++ " is too short. Minimum length is " ++ shown)
         "MIN_LENGTH_VIOLATION")
  else if type === "maxLength" then
    when (numLt (NumberOf (XsdRestriction.value restriction)) (ofLength (String.length value)))
      (addError line column (subject ++ " is too long. Maximum length is " ++ shown)
         "MAX_LENGTH_VIOLATION")
  else if type === "pattern" then
    match RegExp shown with
    | None => Thrown ("SyntaxError: Invalid regular expression: /" ++ shown ++ "/")
    | Some regex =>
        when (negb (test regex value))
          (addError line column (subject ++ " does not match pattern '" ++ shown ++ "'")
             "PATTERN_VIOLATION")
    end
  else if type === "enumeration" then skip
  else if type === "minInclusive" then
    when (numLt (toNumber value) (NumberOf (XsdRestriction.value restriction)))
      (addError line column (subject ++ " is below minimum " ++ shown)
         "MIN_INCLUSIVE_VIOLATION")
  else if type === "maxInclusive" then
    when (numLt (NumberOf (XsdRestriction.value restriction)) (toNumber value))
      (addError line column (subject ++ " is above maximum " ++ shown)
         "MAX_INCLUSIVE_VIOLATION")
  else skip.

Definition validateRestrictions (value : string) (restrictions : list XsdRestriction.t)
    (line column : nat) (elementName : string) : Outcome :=
  forEach (validateRestriction value line column elementName) restrictions.

Definition truthyOpt (x : option string) : bool :=
  match x with
  | Some v => Js.truthy v
  | None => false
  end.

(** [validateAttributes] for an element definition whose [type] is the key
    [type] of the mapping. What the mapping inherits under the key has no
    [attributes] to iterate over. *)
Definition validateAttributesOf (schema : XsdSchema.t) (xmlNode : XmlNode.t)
    (type : string) (line column : nat) : Outcome :=
  match lookup complexTypeField (XsdSchema.complexTypes schema) type with
  | Absent => skip
  | Foreign member => if Js.truthyInherited member then TypeError else skip
  | Own complexType =>
      forEach
        (fun xsdAttr =>
           when ((XsdAttribute.use xsdAttr === "required")
                 && negb (Js.truthyAt (XsdAttribute.name xsdAttr)
                            (XmlNode.attributes xmlNode)))
             (addError line column
                ("Required attribute '" ++ XsdAttribute.name xsdAttr ++ "' is missing")
                "MISSING_REQUIRED_ATTRIBUTE"))
        (XsdComplexType.attributes complexType) ;;
      forEach
        (fun '(attrName, attrValue) =>
           match List.find (fun a => XsdAttribute.name a === attrName)
                   (XsdComplexType.attributes complexType) with
           | None =>
               addError line column ("Attribute '" ++ attrName ++ "' is not allowed")
                 "UNEXPECTED_ATTRIBUTE"
           | Some xsdAttr =>
               when (truthyOpt (XsdAttribute.fixedValue xsdAttr)
                     && (attrValue !== default "" (XsdAttribute.fixedValue xsdAttr)))
                 (addError line column
                    ("Attribute '" ++ attrName ++ "' must have value '"
                     ++ default "" (XsdAttribute.fixedValue xsdAttr) ++ "'")
                    "FIXED_VALUE_VIOLATION") ;;
               when (negb (validateSimpleValue attrValue (XsdAttribute.type xsdAttr)))
                 (addError line column
                    ("Invalid value '" ++ attrValue ++ "' for attribute '" ++ attrName
                     ++ "' of type '" ++ XsdAttribute.type xsdAttr ++ "'")
                    "INVALID_ATTRIBUTE_VALUE")
           end)
        (XmlNode.attributes xmlNode)
  end.

Definition validateAttributes (schema : XsdSchema.t) (xmlNode : XmlNode.t)
    (xsdElement : XsdElement.t) (line column : nat) : Outcome :=
  validateAttributesOf schema xmlNode (XsdElement.type xsdElement) line column.

Definition validateSimpleContent (xmlNode : XmlNode.t) (xsdElement : XsdElement.t)
    (line column : nat) : Outcome :=
  if (0 <? length (XmlNode.children xmlNode))
     && existsb (fun child => XmlNode.name child !== "#text") (XmlNode.children xmlNode)
  then
    addError line column
      ("Element '" ++ XmlNode.name xmlNode
       ++ "' should contain simple content but has child elements")
      "INVALID_CONTENT"
  else
    let textContent := textContentOf xmlNode in
    when (negb (validateSimpleValue textContent (XsdElement.type xsdElement)))
      (addError line column
         ("Invalid value '" ++ textContent ++ "' for element '" ++ XmlNode.name xmlNode
          ++ "' of type '" ++ XsdElement.type xsdElement ++ "'")
         "INVALID_ELEMENT_VALUE") ;;
    match XsdElement.restrictions xsdElement with
    | Some restrictions =>
        validateRestrictions textContent restrictions line column (XmlNode.name xmlNode)
    | None => skip
    end.

Definition validateSimpleTypeContent (xmlNode : XmlNode.t) (simpleType : XsdSimpleType.t)
    (line column : nat) : Outcome :=
  let textContent := textContentOf xmlNode in
  when (negb (validateSimpleValue textContent (XsdSimpleType.baseType simpleType)))
    (addError line column
       ("Invalid value '" ++ textContent ++ "' for base type '"
        ++ XsdSimpleType.baseType simpleType ++ "'")
       "INVALID_SIMPLE_TYPE_VALUE") ;;
  validateRestrictions textContent (XsdSimpleType.restrictions simpleType) line column
    (XmlNode.name xmlNode).

Definition validateInlineContent (xmlNode : XmlNode.t) (xsdElement : XsdElement.t)
    (line column : nat) : Outcome :=
  match XsdElement.restrictions xsdElement with
  | Some restrictions =>
      validateRestrictions (textContentOf xmlNode) restrictions line column
        (XmlNode.name xmlNode)
  | None => skip
  end.

(** [xmlNode.children.filter(child => child.name !== '#text')] *)
Definition childElementsOf (xmlNode : XmlNode.t) : list XmlNode.t :=
  List.filter (fun child => XmlNode.name child !== "#text") (XmlNode.children xmlNode).

(** [childElements.filter(child => child.name === xsdElement.name)] *)
Definition matchingChildrenOf (childElements : list XmlNode.t) (xsdElement : XsdElement.t)
  : list XmlNode.t :=
  List.filter (fun child => XmlNode.name child === XsdElement.name xsdElement) childElements.

(** The two occurrence checks on one particle. *)
Definition checkOccurs (matchingChildren : list XmlNode.t) (xsdElement : XsdElement.t)
    (line column : nat) : Outcome :=
  when (countLt (length matchingChildren) (XsdElement.minOccurs xsdElement))
    (addError line column
       ("Element '" ++ XsdElement.name xsdElement ++ "' occurs "
        ++ showNat (length matchingChildren) ++ " times but minimum is "
        ++ showInt (XsdElement.minOccurs xsdElement))
       "MIN_OCCURS_VIOLATION") ;;
  match XsdElement.maxOccurs xsdElement with
  | Unbounded => skip
  | Bounded maxOccurs =>
      when (countGt (length matchingChildren) maxOccurs)
        (addError line column
           ("Element '" ++ XsdElement.name xsdElement ++ "' occurs "
            ++ showNat (length matchingChildren) ++ " times but maximum is "
            ++ showInt maxOccurs)
           "MAX_OCCURS_VIOLATION")
  end.

(** The last loop of [validateComplexContent]. *)
Definition checkUnexpected (childElements : list XmlNode.t) (complexType : XsdComplexType.t)
    (line column : nat) : Outcome :=
  forEach
    (fun childElement =>
       when (negb (existsb (fun xsdEl => XsdElement.name xsdEl === XmlNode.name childElement)
                     (XsdComplexType.elements complexType)))
         (addError line column ("Unexpected element '" ++ XmlNode.name childElement ++ "'")
            "UNEXPECTED_ELEMENT"))
    childElements.

(** [validateElement], by recursion on the node. Its call of
    [validateComplexContent] is written in place, and the loop over
    [matchingChildren] runs over all children and skips those the two filters
    drop; [validateElement_unfold] gives it back in the words of the
    source. A truthy value a mapping inherits under the type has no
    [elements] and no [restrictions] to iterate over. *)
Fixpoint validateElement (schema : XsdSchema.t) (xmlNode : XmlNode.t)
    (xsdElement : XsdElement.t) (line column : nat) {struct xmlNode} : Outcome :=
  if XmlNode.name xmlNode !== XsdElement.name xsdElement then
    addError line column
      ("Expected element '" ++ XsdElement.name xsdElement ++ "' but found '"
       ++ XmlNode.name xmlNode ++ "'")
      "ELEMENT_MISMATCH"
  else
    validateAttributes schema xmlNode xsdElement line column ;;
    if isBuiltInType (XsdElement.type xsdElement) then
      validateSimpleContent xmlNode xsdElement line column
    else
      match lookup complexTypeField (XsdSchema.complexTypes schema)
              (XsdElement.type xsdElement) with
      | Own complexType =>
          forEach
            (fun particle =>
               checkOccurs (matchingChildrenOf (childElementsOf xmlNode) particle)
                 particle line column ;;
               forEach
                 (fun child =>
                    if (XmlNode.name child !== "#text")
                       && (XmlNode.name child === XsdElement.name particle)
                    then validateElement schema child particle line column
                    else skip)
                 (XmlNode.children xmlNode))
            (XsdComplexType.elements complexType) ;;
          checkUnexpected (childElementsOf xmlNode) complexType line column
      | inherited =>
          if truthyFound inherited then TypeError
          else
            match lookup simpleTypeField (XsdSchema.simpleTypes schema)
                    (XsdElement.type xsdElement) with
            | Own simpleType => validateSimpleTypeContent xmlNode simpleType line column
            | inherited =>
                if truthyFound inherited then TypeError
                else if Js.startsWith (XsdElement.type xsdElement) "#inline-"
                then validateInlineContent xmlNode xsdElement line column
                else skip
            end
      end.

(** The body of the first loop of [validateComplexContent]: one particle
    against the child elements. *)
Definition validateParticle (schema : XsdSchema.t) (childElements : list XmlNode.t)
    (line column : nat) (xsdElement : XsdElement.t) : Outcome :=
  let matchingChildren := matchingChildrenOf childElements xsdElement in
  checkOccurs matchingChildren xsdElement line column ;;
  forEach
    (fun childElement => validateElement schema childElement xsdElement line column)
    matchingChildren.

Definition validateComplexContent (schema : XsdSchema.t) (xmlNode : XmlNode.t)
    (complexType : XsdComplexType.t) (line column : nat) : Outcome :=
  let childElements := childElementsOf xmlNode in
  forEach (validateParticle schema childElements line column)
    (XsdComplexType.elements complexType) ;;
  checkUnexpected childElements complexType line column.

(** [validateElement] when [xsdElement] is a value the element mapping
    inherits: its [name] is that of a method and [undefined] otherwise, its
    [type] is [undefined], which as a key reads ['undefined'] and of which
    [startsWith] cannot be read. *)
Definition validateInherited (schema : XsdSchema.t) (xmlNode : XmlNode.t)
    (member : Js.Inherited) (line column : nat) : Outcome :=
  let name :=
    match member with
    | Js.Method name => Some name
    | Js.Plain _ => None
    end in
  if match name with
     | Some name => XmlNode.name xmlNode !== name
     | None => true
     end
  then
    addError line column
      ("Expected element '" ++ default "undefined" name ++ "' but found '"
       ++ XmlNode.name xmlNode ++ "'")
      "ELEMENT_MISMATCH"
  else
    validateAttributesOf schema xmlNode "undefined" line column ;;
    match lookup complexTypeField (XsdSchema.complexTypes schema) "undefined" with
    | Own complexType => validateComplexContent schema xmlNode complexType line column
    | inherited =>
        if truthyFound inherited then TypeError
        else
          match lookup simpleTypeField (XsdSchema.simpleTypes schema) "undefined" with
          | Own simpleType => validateSimpleTypeContent xmlNode simpleType line column
          | _ => TypeError
          end
    end.

(** [validate]: the diagnostics returned, or the exception that escapes. *)
Definition validate (schema : XsdSchema.t) (xmlNode : XmlNode.t) : Outcome :=
  match lookup elementField (XsdSchema.elements schema) (XmlNode.name xmlNode) with
  | Own rootElement => validateElement schema xmlNode rootElement 1 1
  | Foreign member =>
      if Js.truthyInherited member then validateInherited schema xmlNode member 1 1
      else
        addError 1 1 ("Root element '" ++ XmlNode.name xmlNode ++ "' not found in schema")
          "ELEMENT_NOT_FOUND"
  | Absent =>
      addError 1 1 ("Root element '" ++ XmlNode.name xmlNode ++ "' not found in schema")
        "ELEMENT_NOT_FOUND"
  end.

End WithPlatform.
End XmlValidator.

(** ** A platform for the examples

    [Fragment.platform] fixes the three platform functions on a fragment of
    ECMAScript, enough to run the code on concrete inputs:
    - patterns made of literal characters, [.], classes, the escapes
      [\d \w \s \D \W \S] and escaped punctuation, groups, [|], the greedy
      quantifiers [* + ? {n} {n,} {n,m}], and in a pattern without [|]
      outside its groups [^] as first and [$] as last character; on these
      [RegExp] answers as the constructor does, a value or a SyntaxError.
      A pattern outside the fragment is refused as well: nothing below is
      stated about such a pattern;
    - numbers written as decimal integers, each standing for the double
      nearest to it; on another string [Number] answers [NaN] here, and
      nothing below is stated about such a string;
    - [String.fromCharCode] on codes below 256.
    The theorems about the code hold for every platform; this one supplies
    their witnesses. *)

Module Fragment.

Inductive Parsed : Type :=
| POk (r : Regex.t) (rest : string)
| PSyntaxError
| PUnsupported.

Definition isWord (c : ascii) : bool :=
  Js.isLower c || Js.isUpper c || Js.isDigit c || Ascii.eqb c "_".
Definition isSpace (c : ascii) : bool := Js.isTrimSpace c.
Definition isLineTerminator (c : ascii) : bool := Ascii.eqb c Js.LF || Ascii.eqb c Js.CR.

(** The set an escape [\c] stands for. *)
Definition escapeSet (c : ascii) : option (ascii -> bool) :=
  if Ascii.eqb c "d" then Some Js.isDigit
  else if Ascii.eqb c "D" then Some (fun x => negb (Js.isDigit x))
  else if Ascii.eqb c "w" then Some isWord
  else if Ascii.eqb c "W" then Some (fun x => negb (isWord x))
  else if Ascii.eqb c "s" then Some isSpace
  else if Ascii.eqb c "S" then Some (fun x => negb (isSpace x))
  else if isWord c then None
  else Some (Ascii.eqb c).

Definition union (a b : ascii -> bool) : ascii -> bool := fun c => a c || b c.

Inductive ParsedClass : Type :=
| CSet (set : ascii -> bool) (rest : string)
| CSyntaxError
| CUnsupported.

(** The items of a class, from after its opening bracket to its closing
    bracket. *)
Fixpoint parseClassItems (s : string) (set : ascii -> bool) : ParsedClass :=
  match s with
  | "" => CSyntaxError
  | String "]" rest => CSet set rest
  | String "\" (String c rest) =>
      match escapeSet c with
      | Some e => parseClassItems rest (union set e)
      | None => CUnsupported
      end
  | String "\" "" => CSyntaxError
  | String a (String "-" (String b rest as tail)) =>
      if Ascii.eqb b "]"
      then parseClassItems tail (union set (union (Ascii.eqb a) (Ascii.eqb "-")))
      else if Ascii.eqb b "\" then CUnsupported
      else if Js.code b <? Js.code a then CSyntaxError
      else parseClassItems rest (union set (Js.inRange (Js.code a) (Js.code b)))
  | String a rest => parseClassItems rest (union set (Ascii.eqb a))
  end.

Definition parseClass (s : string) : Parsed :=
  let '(negated, body) :=
    match s with
    | String "^" rest => (true, rest)
    | _ => (false, s)
    end in
  match parseClassItems body (fun _ => false) with
  | CSet set rest => POk (Regex.Chr (fun c => if negated then negb (set c) else set c)) rest
  | CSyntaxError => PSyntaxError
  | CUnsupported => PUnsupported
  end.

Fixpoint readNat (s : string) (acc : option nat) : option nat * string :=
  match s with
  | String c rest =>
      if Js.isDigit c then readNat rest (Some (default 0 acc * 10 + (Js.code c - 48)))
      else (acc, s)
  | "" => (acc, s)
  end.

(** A quantifier after the atom [a], if there is one. *)
Definition parseQuantifier (a : Regex.t) (s : string) : Parsed :=
  let quantified :=
    match s with
    | String "*" rest => POk (Regex.Star a) rest
    | String "+" rest => POk (Regex.plus a) rest
    | String "?" rest => POk (Regex.opt a) rest
    | String "{" rest =>
        match readNat rest None with
        | (Some n, String "}" rest') => POk (Regex.times n a) rest'
        | (Some n, String "," rest') =>
            match readNat rest' None with
            | (None, String "}" rest'') => POk (Regex.atLeast n a) rest''
            | (Some m, String "}" rest'') =>
                if m <? n then PSyntaxError else POk (Regex.between n m a) rest''
            | _ => PUnsupported
            end
        | _ => PUnsupported
        end
    | _ => POk a s
    end in
  match quantified with
  | POk r rest =>
      if String.eqb rest s then quantified
      else
        match rest with
        | String "?" _ => PUnsupported
        | String "*" _ => PSyntaxError
        | String "+" _ => PSyntaxError
        | String "{" _ => PUnsupported
        | _ => quantified
        end
  | _ => quantified
  end.

Definition isMeta (c : ascii) : bool :=
  existsb (Ascii.eqb c) ["{"; "}"; "]"; "^"; "$"]%char.

Fixpoint parseDisjunction (fuel : nat) (s : string) : Parsed :=
  match fuel with
  | 0 => PUnsupported
  | S fuel' =>
      match parseSequence fuel' s Regex.Eps with
      | POk r (String "|" rest) =>
          match parseDisjunction fuel' rest with
          | POk r' rest' => POk (Regex.Alt r r') rest'
          | failure => failure
          end
      | other => other
      end
  end

with parseSequence (fuel : nat) (s : string) (acc : Regex.t) : Parsed :=
  match fuel with
  | 0 => PUnsupported
  | S fuel' =>
      match s with
      | "" => POk acc s
      | String "|" _ => POk acc s
      | String ")" _ => POk acc s
      | _ =>
          match parseAtom fuel' s with
          | POk a rest =>
              match parseQuantifier a rest with
              | POk q rest' => parseSequence fuel' rest' (Regex.Cat acc q)
              | failure => failure
              end
          | failure => failure
          end
      end
  end

with parseAtom (fuel : nat) (s : string) : Parsed :=
  match fuel with
  | 0 => PUnsupported
  | S fuel' =>
      match s with
      | "" => PSyntaxError
      | String "(" rest =>
          let body :=
            match rest with
            | String "?" (String ":" rest') => Some rest'
            | String "?" _ => None
            | _ => Some rest
            end in
          match body with
          | None => PUnsupported
          | Some body =>
              match parseDisjunction fuel' body with
              | POk r (String ")" rest') => POk r rest'
              | POk _ _ => PSyntaxError
              | failure => failure
              end
          end
      | String "[" rest => parseClass rest
      | String "." rest => POk (Regex.Chr (fun c => negb (isLineTerminator c))) rest
      | String "\" (String c rest) =>
          match escapeSet c with
          | Some e => POk (Regex.Chr e) rest
          | None => PUnsupported
          end
      | String "\" "" => PSyntaxError
      | String c rest =>
          if Ascii.eqb c "*" || Ascii.eqb c "+" || Ascii.eqb c "?" then PSyntaxError
          else if isMeta c then PUnsupported
          else POk (Regex.char c) rest
      end
  end.

Record Compiled : Type := mkCompiled {
  anchoredStart : bool;
  body : Regex.t;
  anchoredEnd : bool
}.

(** Splits a final unescaped [$] off a pattern. *)
Fixpoint stripEnd (s : string) : string * bool :=
  match s with
  | "" => ("", false)
  | String "$" "" => ("", true)
  | String "\" (String c rest) =>
      let '(rest', anchored) := stripEnd rest in (String "\" (String c rest'), anchored)
  | String c rest => let '(rest', anchored) := stripEnd rest in (String c rest', anchored)
  end.

Definition compile (pattern : string) : option Compiled :=
  let '(anchoredStart, pattern) :=
    match pattern with
    | String "^" rest => (true, rest)
    | _ => (false, pattern)
    end in
  let '(pattern, anchoredEnd) := stripEnd pattern in
  match parseDisjunction (3 * String.length pattern + 3) pattern with
  | POk r "" =>
      match r with
      | Regex.Alt _ _ =>
          if anchoredStart || anchoredEnd then None else Some (mkCompiled false r false)
      | _ => Some (mkCompiled anchoredStart r anchoredEnd)
      end
  | _ => None
  end.

(** [re.test(s)]: a match may start and end anywhere, unless anchored. *)
Definition testCompiled (re : Compiled) (s : string) : bool :=
  let any := Regex.Star Regex.anyChar in
  Regex.fullMatch
    (Regex.Cat (if anchoredStart re then Regex.Eps else any)
       (Regex.Cat (body re) (if anchoredEnd re then Regex.Eps else any)))
    s.

Fixpoint allDigits (s : string) : bool :=
  match s with
  | "" => true
  | String c rest => Js.isDigit c && allDigits rest
  end.

Definition decimalToNumber (s : string) : option Z :=
  let s := Js.trim s in
  if String.eqb s "" then Some 0%Z
  else
    let '(_, digits) := ParseInt.stripSign s in
    if negb (String.eqb digits "") && allDigits digits
    then ParseInt.parseInt s (Some 10)
    else None.

Definition ltNumber (a b : option Z) : bool :=
  match a, b with
  | Some x, Some y => Double.ltb (Double.nearest x) (Double.nearest y)
  | _, _ => false
  end.

Definition latin1FromCharCode (code : option Z) : string :=
  match code with
  | Some z => String (ascii_of_N (Z.to_N (z mod 256))) ""
  | None => String zero ""
  end.

#[export] Instance integers : Numbers := {| number := option Z |}.

#[export] Instance platform : Platform := {|
  numbers := integers;
  fromCharCode := latin1FromCharCode;
  toNumber := decimalToNumber;
  ofLength := fun n => Some (Z.of_nat n);
  numLt := ltNumber;
  numIsNaN := fun n => match n with Some _ => false | None => true end;
  numToString := XmlValidator.showInt;
  regexp := Compiled;
  RegExp := compile;
  test := testCompiled
|}.

End Fragment.

(** * Properties of the parser *)

Module XmlParserFacts.
Import XmlParser.

(** ** Characters and the cursor *)

Lemma get_none (s : string) (i : nat) : String.length s <= i -> String.get i s = None.
Proof.
  revert i. induction s as [|c s IH]; intros i Hi; [by destruct i|].
  destruct i as [|i]; simpl in *; [lia|]. apply IH. lia.
Qed.

Lemma get_some (s : string) (i : nat) :
  i < String.length s -> exists c, String.get i s = Some c.
Proof.
  revert i. induction s as [|c s IH]; intros i Hi; simpl in *; [lia|].
  destruct i as [|i]; [by eexists|]. apply IH. lia.
Qed.

Lemma charAt_length (s : string) (i : nat) : String.length (Js.charAt s i) <= 1.
Proof. unfold Js.charAt. destruct (String.get i s); simpl; lia. Qed.

Lemma eqb_length (a b : string) : (a === b) = true -> String.length a = String.length b.
Proof. intros Heq. apply String.eqb_eq in Heq. by subst. Qed.

(** [peek] gives one character at most: it never equals a longer string. *)
Lemma peek_short (offset : nat) (st : State) (literal : string) :
  2 <= String.length literal -> (peek offset st === literal) = false.
Proof.
  intros Hlen. destruct (peek offset st === literal) eqn:Heq; [|done].
  apply eqb_length in Heq. pose proof (charAt_length (xml st) (position st + offset)).
  unfold peek in Heq. lia.
Qed.

Lemma inBounds_true (st : State) :
  inBounds st = true <-> position st < String.length (xml st).
Proof. unfold inBounds. apply Nat.ltb_lt. Qed.

Lemma inBounds_false (st : State) :
  inBounds st = false <-> String.length (xml st) <= position st.
Proof. unfold inBounds. apply Nat.ltb_ge. Qed.

Lemma current_out (st : State) : inBounds st = false -> current st = "".
Proof.
  intros Hout. unfold current, Js.charAt.
  by rewrite get_none by by apply inBounds_false.
Qed.

Lemma current_in (st : State) : current st <> "" -> inBounds st = true.
Proof.
  intros Hcur. destruct (inBounds st) eqn:Hb; [done|]. by apply current_out in Hb.
Qed.

Lemma eqb_current_in (st : State) (c : ascii) :
  (current st === String c "") = true -> inBounds st = true.
Proof.
  intros Heq. apply String.eqb_eq in Heq. apply current_in. by rewrite Heq.
Qed.

Lemma peek_in (st : State) (c : ascii) :
  (peek 1 st === String c "") = true -> position st + 1 < String.length (xml st).
Proof.
  intros Heq. apply String.eqb_eq in Heq. unfold peek, Js.charAt in Heq.
  destruct (decide (position st + 1 < String.length (xml st))) as [|Hge]; [done|].
  rewrite get_none in Heq by lia. done.
Qed.

(** ** Every move of the cursor is a run of [advance] *)

Definition Reach (st st' : State) : Prop := exists n, st' = Nat.iter n advanceState st.

Lemma Reach_refl (st : State) : Reach st st.
Proof. by exists 0. Qed.

Lemma Reach_advance (st : State) : Reach st (advanceState st).
Proof. by exists 1. Qed.

Lemma Reach_trans (a b c : State) : Reach a b -> Reach b c -> Reach a c.
Proof.
  intros [n ->] [m ->]. exists (m + n). by rewrite Nat.iter_add.
Qed.

Lemma advanceState_xml (st : State) : xml (advanceState st) = xml st.
Proof. unfold advanceState. by repeat case_match. Qed.

Lemma advanceState_position (st : State) :
  position (advanceState st) = if inBounds st then position st + 1 else position st.
Proof. unfold advanceState. by repeat case_match. Qed.

Lemma Reach_xml (st st' : State) : Reach st st' -> xml st' = xml st.
Proof.
  intros [n ->]. induction n as [|n IH]; [done|].
  simpl. by rewrite advanceState_xml.
Qed.

Lemma Reach_position (st st' : State) : Reach st st' -> position st <= position st'.
Proof.
  intros [n ->]. induction n as [|n IH]; [done|].
  simpl. rewrite advanceState_position. case_match; lia.
Qed.

(** The cursor is on the input or just behind it. *)
Definition wf (st : State) : Prop := position st <= String.length (xml st).

Lemma advanceState_wf (st : State) : wf st -> wf (advanceState st).
Proof.
  unfold wf. rewrite advanceState_xml, advanceState_position.
  destruct (inBounds st) eqn:Hb; [apply inBounds_true in Hb|]; lia.
Qed.

Lemma Reach_wf (st st' : State) : Reach st st' -> wf st -> wf st'.
Proof.
  intros [n ->] Hwf. induction n as [|n IH]; [done|]. simpl. by apply advanceState_wf.
Qed.

(** What is left of the input. *)
Definition rem (st : State) : nat := String.length (xml st) - position st.

Lemma Reach_rem (st st' : State) : Reach st st' -> rem st' <= rem st.
Proof.
  intros HR. unfold rem. rewrite (Reach_xml _ _ HR).
  pose proof (Reach_position _ _ HR). lia.
Qed.

Lemma advanceState_rem (st : State) :
  inBounds st = true -> rem (advanceState st) + 1 = rem st.
Proof.
  intros Hb. unfold rem. rewrite advanceState_xml, advanceState_position, Hb.
  apply inBounds_true in Hb. lia.
Qed.

(** ** More fuel changes no outcome

    [below r r']: the outcome [r], reached with less fuel, is not an outcome
    yet or is the outcome [r']. *)

Definition below {A} (r r' : Res A) : Prop := r = OutOfFuel \/ r = r'.

Lemma below_refl {A} (r : Res A) : below r r.
Proof. by right. Qed.

Lemma below_bind {A B} (m m' : P A) (k k' : A -> P B) (st : State) :
  below (m st) (m' st) ->
  (forall a st1, below (k a st1) (k' a st1)) ->
  below (bind m k st) (bind m' k' st).
Proof.
  unfold bind. intros [Hm|Hm] Hk; [left; by rewrite Hm|].
  rewrite <- Hm. destruct (m st); [apply Hk|by right..].
Qed.

Create HintDb fuel discriminated.
#[local] Hint Extern 1 (_ <= _) => lia : fuel.

Ltac below_step :=
  first
    [ apply below_refl
    | by left
    | match goal with
      | Hc : (peek _ _ === _) = true |- _ =>
          rewrite peek_short in Hc by (simpl; lia); discriminate
      end
    | apply below_bind; [|intros ??]
    | match goal with
      | IH : forall _ _, _ -> below _ _ |- _ => apply IH; lia
      | IH : forall _ _ _, _ -> below _ _ |- _ => apply IH; lia
      | IH : forall _ _ _ _, _ -> below _ _ |- _ => apply IH; lia
      end
    | solve [eauto 3 with fuel]
    | case_match ].

Ltac monotone_loop fuel :=
  let IH := fresh "IH" in
  induction fuel as [|fuel IH];
  [ intros; by left
  | intros [|?] **; [lia|]; simpl; repeat below_step ].

Ltac monotone_body := intros; repeat below_step.

Lemma skipWhitespace_monotone fuel fuel' st :
  fuel <= fuel' -> below (skipWhitespace fuel st) (skipWhitespace fuel' st).
Proof. revert fuel' st. monotone_loop fuel. Qed.
#[local] Hint Resolve skipWhitespace_monotone : fuel.

Lemma parseNameLoop_monotone fuel fuel' name st :
  fuel <= fuel' -> below (parseNameLoop fuel name st) (parseNameLoop fuel' name st).
Proof. revert fuel' name st. monotone_loop fuel. Qed.
#[local] Hint Resolve parseNameLoop_monotone : fuel.

Lemma parseName_monotone fuel fuel' st :
  fuel <= fuel' -> below (parseName fuel st) (parseName fuel' st).
Proof. unfold parseName. monotone_body. Qed.
#[local] Hint Resolve parseName_monotone : fuel.

Lemma skipProcessingInstruction_monotone fuel fuel' st :
  fuel <= fuel' ->
  below (skipProcessingInstruction fuel st) (skipProcessingInstruction fuel' st).
Proof. revert fuel' st. monotone_loop fuel. Qed.
#[local] Hint Resolve skipProcessingInstruction_monotone : fuel.

(** [skipComment] does nothing: [peek] gives one character, which is
    neither of the two words it is compared with. *)
Lemma skipComment_noop fuel st : skipComment fuel st = Ok tt st.
Proof. unfold skipComment. by rewrite !peek_short by (simpl; lia). Qed.

Lemma skipProlog_monotone fuel fuel' st :
  fuel <= fuel' -> below (skipProlog fuel st) (skipProlog fuel' st).
Proof.
  revert fuel' st. induction fuel as [|fuel IH]; [intros; by left|].
  intros [|fuel'] st Hle; [lia|]. simpl. unfold bind. rewrite !skipComment_noop.
  fold (bind (skipWhitespace fuel) (fun _ => skipProlog fuel) st).
  fold (bind (skipWhitespace fuel') (fun _ => skipProlog fuel') st).
  fold (bind (skipProcessingInstruction fuel)
          (fun _ => bind (skipWhitespace fuel) (fun _ => skipProlog fuel)) st).
  fold (bind (skipProcessingInstruction fuel')
          (fun _ => bind (skipWhitespace fuel') (fun _ => skipProlog fuel')) st).
  repeat below_step.
Qed.
#[local] Hint Resolve skipProlog_monotone : fuel.

Section WithPlatform.
Context `{Platform}.

Lemma parseEntityLoop_monotone fuel fuel' entity st :
  fuel <= fuel' -> below (parseEntityLoop fuel entity st) (parseEntityLoop fuel' entity st).
Proof. revert fuel' entity st. monotone_loop fuel. Qed.
#[local] Hint Resolve parseEntityLoop_monotone : fuel.

Lemma parseEntity_monotone fuel fuel' st :
  fuel <= fuel' -> below (parseEntity fuel st) (parseEntity fuel' st).
Proof. unfold parseEntity. monotone_body. Qed.
#[local] Hint Resolve parseEntity_monotone : fuel.

Lemma parseAttributeValueLoop_monotone fuel fuel' quote value st :
  fuel <= fuel' ->
  below (parseAttributeValueLoop fuel quote value st)
    (parseAttributeValueLoop fuel' quote value st).
Proof. revert fuel' quote value st. monotone_loop fuel. Qed.
#[local] Hint Resolve parseAttributeValueLoop_monotone : fuel.

Lemma parseAttributeValue_monotone fuel fuel' st :
  fuel <= fuel' -> below (parseAttributeValue fuel st) (parseAttributeValue fuel' st).
Proof. unfold parseAttributeValue. monotone_body. Qed.
#[local] Hint Resolve parseAttributeValue_monotone : fuel.

Lemma parseAttributesLoop_monotone fuel fuel' attributes st :
  fuel <= fuel' ->
  below (parseAttributesLoop fuel attributes st) (parseAttributesLoop fuel' attributes st).
Proof. revert fuel' attributes st. monotone_loop fuel. Qed.
#[local] Hint Resolve parseAttributesLoop_monotone : fuel.

Lemma parseEndTag_monotone fuel fuel' expectedName st :
  fuel <= fuel' ->
  below (parseEndTag fuel expectedName st) (parseEndTag fuel' expectedName st).
Proof. unfold parseEndTag. monotone_body. Qed.
#[local] Hint Resolve parseEndTag_monotone : fuel.

Lemma parseElement_monotone_all fuel :
  (forall fuel' st, fuel <= fuel' -> below (parseElement fuel st) (parseElement fuel' st))
  /\ (forall fuel' name attributes st, fuel <= fuel' ->
        below (parseElementContent fuel name attributes st)
          (parseElementContent fuel' name attributes st))
  /\ (forall fuel' children text st, fuel <= fuel' ->
        below (parseElementContentLoop fuel children text st)
          (parseElementContentLoop fuel' children text st)).
Proof.
  induction fuel as [|fuel (IHe & IHc & IHl)]; [by repeat split; intros; left|].
  unfold parseAttributes in *.
  repeat split; intros [|fuel'] **; try lia; simpl; repeat below_step.
Qed.

Lemma parseElement_monotone fuel fuel' st :
  fuel <= fuel' -> below (parseElement fuel st) (parseElement fuel' st).
Proof. apply parseElement_monotone_all. Qed.
#[local] Hint Resolve parseElement_monotone : fuel.

Lemma document_monotone fuel fuel' st :
  fuel <= fuel' -> below (document fuel st) (document fuel' st).
Proof.
  intros Hle. unfold document. repeat below_step.
Qed.

End WithPlatform.

(** ** Termination and progress

    [spec m st p]: run from [st], [m] needs no more fuel; it leaves the
    cursor where a run of [advance] from [st] leaves it, and at least [p]
    characters further if it returns. *)

Definition total {A} (r : Res A) (Q : A -> State -> Prop) (E : State -> Prop) : Prop :=
  match r with
  | Ok a st' => Q a st'
  | Throw _ st' => E st'
  | OutOfFuel => False
  end.

Definition spec {A} (m : P A) (st : State) (p : nat) : Prop :=
  total (m st) (fun _ st' => Reach st st' /\ position st + p <= position st')
    (fun st' => Reach st st').

Lemma total_bind {A B} (m : P A) (k : A -> P B) (st : State) (p : nat)
    (Q : B -> State -> Prop) (E : State -> Prop) :
  spec m st p ->
  (forall st1, Reach st st1 -> E st1) ->
  (forall a st1, Reach st st1 -> position st + p <= position st1 -> total (k a st1) Q E) ->
  total (bind m k st) Q E.
Proof.
  unfold spec, bind, total. intros Hm HE Hk.
  destruct (m st) as [a st1|msg st1|]; [|by apply HE|done].
  destruct Hm as [HR Hp]. by apply Hk.
Qed.

Lemma total_call {A} (m : P A) (st : State) (p : nat)
    (Q : A -> State -> Prop) (E : State -> Prop) :
  spec m st p ->
  (forall a st1, Reach st st1 -> position st + p <= position st1 -> Q a st1) ->
  (forall st1, Reach st st1 -> E st1) ->
  total (m st) Q E.
Proof.
  unfold spec, total. intros Hm HQ HE.
  destruct (m st) as [a st1|msg st1|]; [|by apply HE|done].
  destruct Hm as [HR Hp]. by apply HQ.
Qed.

Lemma Reach_length (st st' : State) :
  Reach st st' -> String.length (xml st') = String.length (xml st).
Proof. intros HR. by rewrite (Reach_xml _ _ HR). Qed.

Lemma spec_advance (st : State) : spec advance st 0.
Proof. unfold spec; simpl. split; [apply Reach_advance|]. rewrite advanceState_position. case_match; lia. Qed.

Lemma spec_advance_in (st : State) : inBounds st = true -> spec advance st 1.
Proof.
  intros Hb. unfold spec; simpl. split; [apply Reach_advance|].
  rewrite advanceState_position, Hb. lia.
Qed.

#[local] Arguments advance : simpl never.

Ltac note_reach :=
  repeat match goal with
    | H : Reach ?a ?b |- _ =>
        lazymatch goal with
        | _ : String.length (xml b) = String.length (xml a) |- _ => fail
        | _ => pose proof (Reach_length _ _ H); pose proof (Reach_position _ _ H);
               pose proof (Reach_wf _ _ H)
        end
    | H : inBounds _ = true |- _ => apply inBounds_true in H
    | H : inBounds _ = false |- _ => apply inBounds_false in H
    | H : (_ <? _) = true |- _ => apply Nat.ltb_lt in H
    | H : (_ <? _) = false |- _ => apply Nat.ltb_ge in H
    end.

Ltac arith := note_reach; unfold rem, wf in *; lia.

Ltac reach := eauto 8 using Reach_refl, Reach_advance, Reach_trans.

Create HintDb spec discriminated.
#[local] Hint Extern 1 (wf _) => arith : spec.
#[local] Hint Extern 1 (_ <= _) => arith : spec.
#[local] Hint Extern 1 (_ < _) => arith : spec.
#[local] Hint Resolve spec_advance : spec.

Ltac in_bounds :=
  match goal with
  | H : (current ?st === String _ "") = true |- inBounds ?st = true =>
      apply (eqb_current_in _ _ H)
  | H : inBounds ?st = true |- inBounds ?st = true => exact H
  | H : andb (inBounds ?st) _ = true |- inBounds ?st = true =>
      by apply andb_prop in H as [? _]
  end.
#[local] Hint Extern 1 (inBounds _ = true) => in_bounds : spec.

Ltac split_tests :=
  repeat match goal with
    | H : negb _ = false |- _ => apply negb_false_iff in H
    | H : negb _ = true |- _ => apply negb_true_iff in H
    | H : _ && _ = true |- _ => apply andb_prop in H as [? ?]
    end.

Ltac spec_step :=
  cbv beta; split_tests;
  first
    [ match goal with
      | |- total (Ok _ _) _ _ => simpl; split; [reach | arith]
      | |- total (Throw _ _) _ _ => simpl; reach
      | |- total (bind advance _ ?st) _ _ =>
          first
            [ eapply total_bind;
              [ apply spec_advance_in; in_bounds | intros; reach | intros ? ? ? ? ]
            | destruct (inBounds st) eqn:?;
              [ eapply total_bind;
                [ apply spec_advance_in; assumption | intros; reach | intros ? ? ? ? ]
              | eapply total_bind;
                [ apply spec_advance | intros; reach | intros ? ? ? ? ] ] ]
      | |- total (bind _ _ _) _ _ =>
          eapply total_bind; [ solve [eauto 4 with spec] | intros; reach | intros ? ? ? ? ]
      | |- total (throw _ _) _ _ => simpl; reach
      | |- total (ret _ _) _ _ => simpl; split; [reach | arith]
      | |- total (advance _) _ _ => simpl; split; [reach | arith]
      | |- total (if _ then _ else _) _ _ => case_match
      | |- total ((if ?c then _ else _) _) _ _ => destruct c eqn:?
      | |- total (match _ with _ => _ end) _ _ => case_match
      | |- total (_ _) _ _ =>
          eapply total_call;
          [ solve [eauto 4 with spec] | intros; split; [reach | arith] | intros; reach ]
      end ].

Ltac spec_loop fuel :=
  let IH := fresh "IH" in
  induction fuel as [|fuel IH]; intros; [arith|];
  unfold spec; simpl; repeat spec_step.

Lemma skipWhitespace_spec fuel st :
  wf st -> rem st < fuel -> spec (skipWhitespace fuel) st 0.
Proof. revert st. spec_loop fuel. Qed.
#[local] Hint Resolve skipWhitespace_spec : spec.

Lemma parseNameLoop_spec fuel name st :
  wf st -> rem st < fuel -> spec (parseNameLoop fuel name) st 0.
Proof. revert name st. spec_loop fuel. Qed.
#[local] Hint Resolve parseNameLoop_spec : spec.

Lemma isNameStartChar_isNameChar char :
  isNameStartChar char = true -> isNameChar char = true.
Proof.
  destruct char as [|c rest]; [done|]. simpl.
  rewrite !orb_true_iff. tauto.
Qed.

Lemma isNameStartChar_in st : isNameStartChar (current st) = true -> inBounds st = true.
Proof.
  intros Hc. apply current_in. intros Heq. by rewrite Heq in Hc.
Qed.

Lemma parseName_spec fuel st : wf st -> rem st < fuel -> spec (parseName fuel) st 1.
Proof.
  intros Hwf Hfuel. unfold spec, parseName.
  destruct (isNameStartChar (current st)) eqn:Hstart; simpl negb; cbv iota;
    [|repeat spec_step].
  destruct fuel as [|fuel]; [lia|].
  unfold bind at 1. simpl parseNameLoop.
  rewrite (isNameStartChar_in _ Hstart), (isNameStartChar_isNameChar _ Hstart).
  pose proof (isNameStartChar_in _ Hstart).
  fold (bind (advance ;; parseNameLoop fuel ("" ++ current st))
          (fun name => if negb (Js.truthy name) then throw "Expected element name"
                       else ret name) st).
  eapply total_bind with (p := 1); [|intros; reach|intros ????; repeat spec_step].
  unfold spec. repeat spec_step.
Qed.
#[local] Hint Resolve parseName_spec : spec.

Lemma skipProcessingInstruction_spec fuel st :
  wf st -> rem st < fuel -> spec (skipProcessingInstruction fuel) st 0.
Proof. revert st. spec_loop fuel. Qed.
#[local] Hint Resolve skipProcessingInstruction_spec : spec.

Section WithPlatform.
Context `{Platform}.

Lemma parseEntityLoop_spec fuel entity st :
  wf st -> rem st < fuel -> spec (parseEntityLoop fuel entity) st 0.
Proof. revert entity st. spec_loop fuel. Qed.
#[local] Hint Resolve parseEntityLoop_spec : spec.

Lemma parseEntity_spec fuel st : wf st -> rem st < fuel -> spec (parseEntity fuel) st 1.
Proof. intros. unfold spec, parseEntity. repeat spec_step. Qed.
#[local] Hint Resolve parseEntity_spec : spec.

Lemma parseAttributeValueLoop_spec fuel quote value st :
  wf st -> rem st + 2 <= fuel -> spec (parseAttributeValueLoop fuel quote value) st 0.
Proof. revert quote value st. spec_loop fuel. Qed.
#[local] Hint Resolve parseAttributeValueLoop_spec : spec.

Lemma parseAttributeValue_spec fuel st :
  wf st -> rem st + 2 <= fuel -> spec (parseAttributeValue fuel) st 0.
Proof. intros. unfold spec, parseAttributeValue. repeat spec_step. Qed.
#[local] Hint Resolve parseAttributeValue_spec : spec.

Lemma parseAttributesLoop_spec fuel attributes st :
  wf st -> rem st + 3 <= fuel -> spec (parseAttributesLoop fuel attributes) st 0.
Proof. revert attributes st. spec_loop fuel. Qed.
#[local] Hint Resolve parseAttributesLoop_spec : spec.

Lemma parseEndTag_spec fuel expectedName st :
  wf st -> rem st < fuel -> spec (parseEndTag fuel expectedName) st 0.
Proof. intros. unfold spec, parseEndTag. repeat spec_step. Qed.
#[local] Hint Resolve parseEndTag_spec : spec.

Lemma parseElement_spec_all fuel :
  (forall st, wf st -> rem st + 4 <= fuel -> spec (parseElement fuel) st 1)
  /\ (forall name attributes st, wf st -> rem st + 6 <= fuel ->
        spec (parseElementContent fuel name attributes) st 0)
  /\ (forall children text st, wf st -> rem st + 5 <= fuel ->
        spec (parseElementContentLoop fuel children text) st 0).
Proof.
  induction fuel as [|fuel (IHe & IHc & IHl)]; [repeat split; intros; arith|].
  unfold parseAttributes in *.
  repeat split; intros; unfold spec; simpl; repeat spec_step.
Qed.

Lemma parseElement_spec fuel st :
  wf st -> rem st + 4 <= fuel -> spec (parseElement fuel) st 1.
Proof. apply parseElement_spec_all. Qed.

End WithPlatform.

(** ** The loop before the root element

    On [<!] the loop of [parse] calls [skipComment], which does nothing, and
    [skipWhitespace], which has nothing to skip: it runs for ever. *)

Definition hangs (st : State) : Prop := forall fuel, skipProlog fuel st = OutOfFuel.

Lemma current_eq st c c' :
  (current st === String c "") = true -> c <> c' -> (current st === String c' "") = false.
Proof.
  intros Heq Hne. apply String.eqb_eq in Heq. rewrite Heq.
  apply String.eqb_neq. congruence.
Qed.

Lemma skipProlog_stuck st :
  (current st === "<") = true -> (peek 1 st === "!") = true -> hangs st.
Proof.
  intros Hc Hp fuel. induction fuel as [|fuel IH]; [done|].
  simpl. rewrite (eqb_current_in _ _ Hc), Hc, Hp. simpl. unfold bind.
  rewrite skipComment_noop. destruct fuel as [|fuel]; [done|].
  simpl skipWhitespace. unfold isWhitespace.
  rewrite !(current_eq _ _ _ Hc) by done.
  rewrite andb_false_r. apply IH.
Qed.

Lemma below_agree {A} (F : nat -> P A) :
  (forall fuel fuel' st, fuel <= fuel' -> below (F fuel st) (F fuel' st)) ->
  forall fuel fuel' st,
    F fuel st = OutOfFuel \/ F fuel' st = OutOfFuel \/ F fuel st = F fuel' st.
Proof.
  intros Hmono fuel fuel' st.
  destruct (Nat.le_ge_cases fuel fuel') as [Hle|Hle].
  - destruct (Hmono _ _ st Hle); auto.
  - destruct (Hmono _ _ st Hle) as [?|Heq]; auto.
Qed.

Lemma skipProcessingInstruction_start fuel st :
  (current st === "<") = true -> (peek 1 st === "?") = true ->
  wf st -> rem st < fuel -> spec (skipProcessingInstruction fuel) st 1.
Proof.
  intros Hc Hp Hwf Hfuel. destruct fuel as [|fuel]; [lia|].
  unfold spec. simpl.
  pose proof (peek_in _ _ Hp) as Hin. apply Nat.ltb_lt in Hin. rewrite Hin.
  rewrite (current_eq _ _ "?"%char Hc) by done. simpl.
  repeat spec_step.
Qed.

Lemma skipProlog_spec fuel st :
  wf st -> rem st + 2 <= fuel -> hangs st \/ spec (skipProlog fuel) st 0.
Proof.
  revert st. induction fuel as [|fuel IH]; intros st Hwf Hfuel; [arith|].
  destruct (inBounds st && (current st === "<")) eqn:Htest;
    [|right; unfold spec; simpl; rewrite Htest; repeat spec_step].
  apply andb_prop in Htest as [Hb Hc].
  destruct (peek 1 st === "!") eqn:Hbang; [left; by apply skipProlog_stuck|].
  destruct (peek 1 st === "?") eqn:Hpi;
    [|right; unfold spec; simpl; rewrite Hb, Hc, Hbang, Hpi; repeat spec_step].
  pose proof (skipProcessingInstruction_start fuel st Hc Hpi Hwf ltac:(arith)) as Hs1.
  unfold spec, total in Hs1.
  destruct (skipProcessingInstruction fuel st) as [[] st1|msg st1|] eqn:E1; [| |done].
  2:{ right. unfold spec. simpl. rewrite Hb, Hc, Hbang, Hpi. simpl.
      unfold bind. rewrite E1. simpl. reach. }
  destruct Hs1 as [HR1 Hp1].
  pose proof (skipWhitespace_spec fuel st1 ltac:(arith) ltac:(arith)) as Hs2.
  unfold spec, total in Hs2.
  destruct (skipWhitespace fuel st1) as [[] st2|msg st2|] eqn:E2; [| |done].
  2:{ right. unfold spec. simpl. rewrite Hb, Hc, Hbang, Hpi. simpl.
      unfold bind. rewrite E1, E2. simpl. reach. }
  destruct Hs2 as [HR2 Hp2].
  destruct (IH st2 ltac:(arith) ltac:(arith)) as [Hhang|Hs3].
  - left. intros [|fuel0]; [done|]. simpl. rewrite Hb, Hc, Hbang, Hpi. simpl.
    unfold bind.
    destruct (below_agree _ skipProcessingInstruction_monotone fuel0 fuel st)
      as [-> | [Hoof | ->] ]; [done|congruence|].
    rewrite E1.
    destruct (below_agree _ skipWhitespace_monotone fuel0 fuel st1)
      as [-> | [Hoof | ->] ]; [done|congruence|].
    rewrite E2. apply Hhang.
  - right. unfold spec. simpl. rewrite Hb, Hc, Hbang, Hpi. simpl.
    unfold bind. rewrite E1, E2.
    unfold spec, total in Hs3 |- *.
    destruct (skipProlog fuel st2); [|reach|done].
    destruct Hs3. split; [reach|arith].
Qed.

Section Document.
Context `{Platform}.

(** [parse] does not return on [xmlString]. *)
Definition diverges (xmlString : string) : Prop :=
  forall fuel, document fuel (initial xmlString) = OutOfFuel.

Lemma initial_wf xmlString : wf (initial xmlString).
Proof. unfold wf. simpl. lia. Qed.

Lemma document_spec xmlString :
  diverges xmlString \/ spec (document (fuelFor xmlString)) (initial xmlString) 0.
Proof.
  set (st := initial xmlString). set (fuel := fuelFor xmlString).
  assert (Hwf : wf st) by apply initial_wf.
  assert (Hfuel : rem st + 4 <= fuel) by (unfold rem, fuel, fuelFor; simpl; lia).
  pose proof (skipWhitespace_spec fuel st Hwf ltac:(lia)) as Hs1.
  unfold spec, total in Hs1.
  destruct (skipWhitespace fuel st) as [[] st1|msg st1|] eqn:E1; [| |done].
  2:{ right. unfold spec, document, bind. rewrite E1. simpl. reach. }
  destruct Hs1 as [HR1 Hp1].
  destruct (skipProlog_spec fuel st1 ltac:(arith) ltac:(arith)) as [Hhang|Hs2].
  - left. intros fuel0. unfold document, bind. fold st.
    destruct (below_agree _ skipWhitespace_monotone fuel0 fuel st)
      as [-> | [Hoof | ->] ]; [done|congruence|].
    rewrite E1, peek_short by (simpl; lia). by rewrite Hhang.
  - right. unfold spec, document, bind. rewrite E1, peek_short by (simpl; lia).
    unfold spec, total in Hs2.
    destruct (skipProlog fuel st1) as [[] st2|msg st2|] eqn:E2; [|simpl; reach|done].
    destruct Hs2 as [HR2 Hp2].
    pose proof (parseElement_spec fuel st2 ltac:(arith) ltac:(arith)) as Hs3.
    unfold spec, total in Hs3 |- *.
    destruct (parseElement fuel st2); [|reach|done].
    destruct Hs3. split; [reach|arith].
Qed.

(** The fuel of [parse] is enough: more fuel gives the same result. *)
Lemma parseWith_stable xmlString fuel :
  fuelFor xmlString <= fuel -> parseWith fuel xmlString = parse xmlString.
Proof.
  intros Hle. unfold parse, parseWith.
  destruct (document_spec xmlString) as [Hdiv|Hs]; [by rewrite !Hdiv|].
  destruct (document_monotone _ _ (initial xmlString) Hle) as [Hoof|<-]; [|done].
  unfold spec in Hs. by rewrite Hoof in Hs.
Qed.

(** With any fuel, [parse] either has no result yet or has its result. *)
Lemma parseWith_parse xmlString fuel result :
  parseWith fuel xmlString = Some result -> parse xmlString = Some result.
Proof.
  intros Hres. destruct (Nat.le_ge_cases (fuelFor xmlString) fuel) as [Hle|Hle].
  - by rewrite <- (parseWith_stable _ _ Hle).
  - unfold parse, parseWith in *.
    destruct (document_monotone _ _ (initial xmlString) Hle) as [Hoof|<-]; [|done].
    by rewrite Hoof in Hres.
Qed.

Lemma parse_none_diverges xmlString : parse xmlString = None <-> diverges xmlString.
Proof.
  split.
  - intros Hnone. destruct (document_spec xmlString) as [Hdiv|Hs]; [done|].
    unfold parse, parseWith, spec, total in *.
    destruct (document _ _); done.
  - intros Hdiv. unfold parse, parseWith. by rewrite Hdiv.
Qed.

End Document.

(** ** Runs over a given input

    [remaining st] is the input from the cursor on. The loops are followed
    over a prefix of it. *)

Definition remaining (st : State) : string := Js.substringFrom (position st) (xml st).

Definition tail (s : string) : string :=
  match s with
  | "" => ""
  | String _ s' => s'
  end.

Lemma substringFrom_succ i s : Js.substringFrom (S i) s = tail (Js.substringFrom i s).
Proof.
  revert s. induction i as [|i IH]; intros [|c s]; try done.
  change (Js.substringFrom (S (S i)) (String c s)) with (Js.substringFrom (S i) s).
  rewrite IH. by destruct i, s.
Qed.

Lemma charAt_substringFrom s i k :
  Js.charAt s (i + k) = Js.charAt (Js.substringFrom i s) k.
Proof.
  revert s. induction i as [|i IH]; intros s; [done|].
  destruct s as [|c s]; [by destruct k|]. apply IH.
Qed.

Lemma substringFrom_length s i : String.length (Js.substringFrom i s) = String.length s - i.
Proof.
  revert s. induction i as [|i IH]; intros s; [simpl; lia|].
  destruct s as [|c s]; [done|]. apply IH.
Qed.

Lemma remaining_length st : String.length (remaining st) = rem st.
Proof. apply substringFrom_length. Qed.

Lemma current_remaining st : current st = Js.charAt (remaining st) 0.
Proof.
  unfold current, remaining. by rewrite <- charAt_substringFrom, Nat.add_0_r.
Qed.

Lemma peek_remaining st k : peek k st = Js.charAt (remaining st) k.
Proof. unfold peek, remaining. by rewrite <- charAt_substringFrom. Qed.

Lemma inBounds_remaining st :
  inBounds st = match remaining st with "" => false | _ => true end.
Proof.
  pose proof (remaining_length st) as Hlen. unfold rem in Hlen.
  destruct (remaining st); simpl in Hlen.
  - apply inBounds_false. lia.
  - apply inBounds_true. lia.
Qed.

Lemma remaining_advance st : remaining (advanceState st) = tail (remaining st).
Proof.
  unfold remaining. rewrite advanceState_xml, advanceState_position.
  destruct (inBounds st) eqn:Hb.
  - by rewrite Nat.add_1_r, substringFrom_succ.
  - rewrite inBounds_remaining in Hb. unfold remaining in Hb.
    by destruct (Js.substringFrom _ _).
Qed.

Lemma remaining_initial xmlString : remaining (initial xmlString) = xmlString.
Proof. done. Qed.

(** The view of the cursor a test of the parser takes. *)
Lemma look st c r :
  remaining st = String c r ->
  inBounds st = true /\ current st = String c "" /\ peek 1 st = Js.charAt r 0
  /\ remaining (advanceState st) = r.
Proof.
  intros Hr. rewrite inBounds_remaining, current_remaining, peek_remaining,
    remaining_advance, Hr. by destruct r.
Qed.

Lemma look_end st :
  remaining st = "" ->
  inBounds st = false /\ current st = "" /\ peek 1 st = "" /\ advanceState st = st.
Proof.
  intros Hr. rewrite inBounds_remaining, current_remaining, peek_remaining, Hr.
  repeat split; try done.
  unfold advanceState. by rewrite inBounds_remaining, Hr.
Qed.

Definition space (c : ascii) : bool := isWhitespace (String c "").
Definition nameChar (c : ascii) : bool := isNameChar (String c "").
Definition nameStart (c : ascii) : bool := isNameStartChar (String c "").

Fixpoint all (p : ascii -> bool) (s : string) : bool :=
  match s with
  | "" => true
  | String c s' => p c && all p s'
  end.

(** A name token: what [parseName] reads back whole. *)
Definition validName (name : string) : bool :=
  match name with
  | "" => false
  | String c _ => nameStart c && all nameChar name
  end.

Fixpoint dropSpaces (s : string) : string :=
  match s with
  | "" => ""
  | String c s' => if space c then dropSpaces s' else s
  end.

(** The characters of [s] other than the four [skipWhitespace] skips. *)
Fixpoint withoutSpaces (s : string) : string :=
  match s with
  | "" => ""
  | String c s' => if space c then withoutSpaces s' else String c (withoutSpaces s')
  end.

(** The head of [s] is not in [p]. *)
Definition stops (p : ascii -> bool) (s : string) : Prop :=
  match s with
  | "" => True
  | String c _ => p c = false
  end.

#[local] Arguments String.append : simpl nomatch.

Lemma append_nil_r (s : string) : s ++ "" = s.
Proof. induction s; simpl; congruence. Qed.

Lemma append_assoc (a b c : string) : (a ++ b) ++ c = a ++ (b ++ c).
Proof. induction a; simpl; congruence. Qed.

Lemma append_length (a b : string) :
  String.length (a ++ b) = String.length a + String.length b.
Proof. induction a; simpl; congruence. Qed.

Ltac decide_tests :=
  repeat first
    [ progress change (negb true) with false
    | progress change (negb false) with true
    | progress change (true && true) with true
    | progress cbv beta iota ].

Ltac lengths :=
  repeat first [ progress simpl String.length | rewrite append_length ]; simpl; try lia.

Ltac looking Hr :=
  let Hb := fresh "Hb" in let Hc := fresh "Hc" in
  let Hp := fresh "Hp" in let Ha := fresh "Ha" in
  first
    [ destruct (look _ _ _ Hr) as (Hb & Hc & Hp & Ha)
    | destruct (look_end _ Hr) as (Hb & Hc & Hp & Ha) ].

Lemma skipWhitespace_run fuel st :
  rem st < fuel ->
  exists st', skipWhitespace fuel st = Ok tt st'
              /\ remaining st' = dropSpaces (remaining st).
Proof.
  revert st. induction fuel as [|fuel IH]; intros st Hfuel; [lia|].
  destruct (remaining st) as [|c r] eqn:Hr; looking Hr; simpl; rewrite Hb, Hc.
  - by exists st.
  - fold (space c). destruct (space c) eqn:Hs; simpl; [|by exists st].
    unfold bind, advance. rewrite <- Ha. apply IH.
    pose proof (advanceState_rem st Hb). lia.
Qed.

Lemma dropSpaces_stops s : stops space s -> dropSpaces s = s.
Proof. destruct s as [|c s]; [done|]. simpl. by intros ->. Qed.

Lemma parseNameLoop_run w : forall fuel acc st r,
  remaining st = w ++ r -> all nameChar w = true -> stops nameChar r ->
  String.length w < fuel ->
  exists st', parseNameLoop fuel acc st = Ok (acc ++ w) st' /\ remaining st' = r.
Proof.
  induction w as [|c w IH]; intros fuel acc st r Hr Hall Hstop Hfuel;
    (destruct fuel as [|fuel]; [simpl in Hfuel; lia|]); simpl in Hr.
  - rewrite append_nil_r. destruct r as [|c r]; looking Hr; simpl; rewrite Hb.
    + by exists st.
    + rewrite Hc. fold (nameChar c). simpl in Hstop. rewrite Hstop. by exists st.
  - looking Hr. simpl in Hall. apply andb_prop in Hall as [Hn Hall].
    simpl. rewrite Hb, Hc. fold (nameChar c). rewrite Hn.
    unfold bind, advance.
    destruct (IH fuel (acc ++ String c "") (advanceState st) r Ha Hall Hstop)
      as (st' & Hrun & Hrem); [simpl in Hfuel; lia|].
    exists st'. rewrite Hrun. by rewrite append_assoc.
Qed.

Lemma parseName_run name fuel st r :
  validName name = true -> remaining st = name ++ r -> stops nameChar r ->
  String.length name < fuel ->
  exists st', parseName fuel st = Ok name st' /\ remaining st' = r.
Proof.
  intros Hvalid Hr Hstop Hfuel. destruct name as [|c w]; [done|].
  simpl in Hvalid. apply andb_prop in Hvalid as [Hstart Hall].
  pose proof Hr as Hr'. simpl in Hr'. looking Hr'.
  unfold parseName. rewrite Hc. fold (nameStart c). rewrite Hstart. decide_tests.
  destruct (parseNameLoop_run (String c w) fuel "" st r Hr) as (st' & Hrun & Hrem);
    [done..|].
  exists st'. unfold bind. rewrite Hrun. simpl. done.
Qed.

Definition notMarkup (c : ascii) : bool := negb (Ascii.eqb c "<").

(** The input ends, or an end tag begins. *)
Definition closes (rest : string) : Prop :=
  rest = "" \/ exists r, rest = String "<" (String "/" r).

Lemma dropSpaces_length s : String.length (dropSpaces s) <= String.length s.
Proof. induction s as [|c s IH]; simpl; [lia|]. destruct (space c); simpl; lia. Qed.

Lemma dropSpaces_app_nil text rest :
  dropSpaces text = "" -> dropSpaces (text ++ rest) = dropSpaces rest.
Proof.
  induction text as [|c text IH]; simpl; [done|]. by destruct (space c).
Qed.

Lemma dropSpaces_app_cons text rest c t :
  dropSpaces text = String c t -> dropSpaces (text ++ rest) = String c (t ++ rest).
Proof.
  induction text as [|c' text IH]; simpl; [done|].
  destruct (space c'); [done|]. intros [= -> ->]. done.
Qed.

Lemma dropSpaces_nil_without text : dropSpaces text = "" -> withoutSpaces text = "".
Proof.
  induction text as [|c text IH]; simpl; [done|]. by destruct (space c).
Qed.

Lemma dropSpaces_cons_inv p text c t :
  dropSpaces text = String c t -> all p text = true ->
  space c = false /\ withoutSpaces text = String c (withoutSpaces t)
  /\ p c = true /\ all p t = true.
Proof.
  induction text as [|c' text IH]; simpl; [done|].
  intros Hd Hall. apply andb_prop in Hall as [Hp Hall].
  destruct (space c') eqn:Hs; [by apply IH|].
  injection Hd as -> ->. by rewrite Hs.
Qed.

Lemma closes_stops rest : closes rest -> stops space rest.
Proof. intros [->|[r ->]]; done. Qed.

Section Runs.
Context `{Platform}.

(** Character data up to the end of the input or to an end tag: the loop
    of [parseElementContent] keeps every character of it that is not white
    space, as it stands. *)
Lemma parseElementContentLoop_text fuel : forall text children acc st rest,
  remaining st = text ++ rest -> all notMarkup text = true -> closes rest ->
  rem st + 2 <= fuel ->
  exists st',
    parseElementContentLoop fuel children acc st
    = Ok (children, acc ++ withoutSpaces text) st'
    /\ remaining st' = rest.
Proof.
  induction fuel as [|fuel IH]; intros text children acc st rest Hr Hall Hcl Hfuel; [lia|].
  destruct (remaining st) as [|c0 r0] eqn:Hr0.
  { looking Hr0. simpl. rewrite Hb. exists st.
    destruct text; [|done]. simpl in Hr. subst rest. by rewrite append_nil_r. }
  looking Hr0. simpl. rewrite Hb. clear Hc Hp Ha.
  destruct (skipWhitespace_run fuel st ltac:(lia)) as (st1 & Hrun & Hrem1).
  unfold bind at 1. rewrite Hrun. rewrite Hr0, Hr in Hrem1.
  assert (Hle : rem st1 <= rem st).
  { rewrite <- !remaining_length, Hrem1, Hr0, Hr. apply dropSpaces_length. }
  clear Hr0 Hr Hb.
  destruct (dropSpaces text) as [|c t] eqn:Hd.
  - rewrite (dropSpaces_app_nil _ _ Hd), (dropSpaces_stops _ (closes_stops _ Hcl)) in Hrem1.
    rewrite (dropSpaces_nil_without _ Hd), append_nil_r.
    destruct Hcl as [->|[r ->]]; looking Hrem1; rewrite Hc; simpl.
    + unfold bind, advance. rewrite Ha.
      destruct fuel as [|fuel]; [lia|]. simpl. rewrite Hb, append_nil_r. by exists st1.
    + rewrite Hp. simpl. by exists st1.
  - rewrite (dropSpaces_app_cons _ _ _ _ Hd) in Hrem1.
    destruct (dropSpaces_cons_inv notMarkup _ _ _ Hd Hall) as (Hs & -> & Hnm & Hall').
    looking Hrem1. rewrite Hc.
    replace (String c "" === "<") with false
      by (symmetry; apply String.eqb_neq; unfold notMarkup in Hnm;
          destruct (Ascii.eqb_spec c "<"); [done|congruence]).
    unfold bind, advance.
    destruct (IH t children (acc ++ String c "") (advanceState st1) rest Ha Hall' Hcl)
      as (st' & Hrun' & Hrem'); [pose proof (advanceState_rem st1 Hb); lia|].
    exists st'. rewrite Hrun'. by rewrite append_assoc.
Qed.

(** At the end of the input [parseEndTag] checks nothing. *)
Lemma parseEndTag_end fuel expectedName st :
  inBounds st = false -> parseEndTag fuel expectedName st = Ok tt st.
Proof. intros Hb. unfold parseEndTag. by rewrite (current_out _ Hb). Qed.

Lemma nameStart_nameChar c : nameStart c = true -> nameChar c = true.
Proof. apply isNameStartChar_isNameChar. Qed.

Lemma nameStart_not c c' : nameStart c = true -> nameStart c' = false -> c <> c'.
Proof. congruence. Qed.

Lemma eqb_char_false c c' : c <> c' -> (String c "" === String c' "") = false.
Proof. intros Hne. apply String.eqb_neq. congruence. Qed.

Lemma validName_start name :
  validName name = true ->
  exists c w, name = String c w /\ nameStart c = true /\ all nameChar name = true.
Proof.
  destruct name as [|c w]; [done|]. simpl. intros Hv.
  apply andb_prop in Hv as [Hs Ha]. by exists c, w.
Qed.

Lemma parseEndTag_run fuel name st r :
  validName name = true ->
  remaining st = "</" ++ name ++ ">" ++ r ->
  rem st < fuel ->
  exists st', parseEndTag fuel name st = Ok tt st' /\ remaining st' = r.
Proof.
  intros Hvalid Hr Hfuel.
  assert (Hlen : rem st = 3 + String.length name + String.length r).
  { rewrite <- remaining_length, Hr. lengths. }
  simpl in Hr. looking Hr. unfold parseEndTag. rewrite Hc, Hp. simpl.
  unfold bind at 1, advance at 1. clear Hb Hc Hp.
  looking Ha. unfold bind at 1, advance at 1. clear Hb Hc Hp Ha.
  destruct (parseName_run name fuel _ (">" ++ r) Hvalid Ha0) as (st1 & Hrun & Hrem1);
    [done|lia|].
  unfold bind at 1. rewrite Hrun. rewrite String.eqb_refl. decide_tests.
  destruct (skipWhitespace_run fuel st1) as (st2 & Hrun2 & Hrem2).
  { rewrite <- remaining_length, Hrem1. simpl. lia. }
  unfold bind at 1. rewrite Hrun2. rewrite Hrem1 in Hrem2. simpl in Hrem2.
  looking Hrem2. rewrite Hc. simpl. unfold advance. by eexists.
Qed.

(** An element with no attribute and no child element, closed by its end
    tag or by the end of the input. *)
Lemma parseElement_text fuel name text closing st :
  validName name = true -> all notMarkup text = true ->
  (closing = "" \/ exists r, closing = "</" ++ name ++ ">" ++ r) ->
  remaining st = "<" ++ name ++ ">" ++ text ++ closing ->
  rem st + 4 <= fuel ->
  exists st',
    parseElement fuel st = Ok (buildElementNode name [] [] (withoutSpaces text)) st'.
Proof.
  intros Hvalid Hall Hclosing Hr Hfuel.
  destruct (validName_start _ Hvalid) as (c & w & Hname & Hstart & _).
  assert (Hlen : rem st = 2 + String.length name + String.length (text ++ closing)).
  { rewrite <- remaining_length, Hr. lengths. }
  destruct fuel as [|fuel]; [lia|]. simpl in Hr. looking Hr.
  simpl parseElement. rewrite Hc. decide_tests.
  unfold bind at 1, advance at 1. clear Hb Hc Hp.
  assert (Hcur : current (advanceState st) = String c "").
  { rewrite Hname in Ha. simpl in Ha. by destruct (look _ _ _ Ha) as (_ & -> & _). }
  rewrite Hcur, (eqb_char_false c "/") by (by apply (nameStart_not _ _ Hstart)).
  destruct (parseName_run name fuel _ (">" ++ text ++ closing) Hvalid Ha)
    as (st1 & Hrun1 & Hrem1); [done|lia|].
  unfold bind at 1. rewrite Hrun1.
  assert (Hrem1' : rem st1 = 1 + String.length (text ++ closing)).
  { rewrite <- remaining_length, Hrem1. simpl. done. }
  (* no attribute *)
  destruct fuel as [|fuel]; [lia|].
  unfold bind at 1, parseAttributes. simpl parseAttributesLoop.
  simpl in Hrem1. looking Hrem1. rewrite Hb. clear Hb Hc Hp Ha0.
  destruct (skipWhitespace_run fuel st1 ltac:(lia)) as (st2 & Hrun2 & Hrem2).
  unfold bind at 1. rewrite Hrun2. rewrite Hrem1 in Hrem2. simpl in Hrem2.
  looking Hrem2. rewrite Hc. simpl orb. cbv iota. clear Hb Hc Hp Ha0.
  assert (Hrem2' : rem st2 = 1 + String.length (text ++ closing)).
  { rewrite <- remaining_length, Hrem2. simpl. done. }
  destruct (skipWhitespace_run (S fuel) st2 ltac:(lia)) as (st3 & Hrun3 & Hrem3).
  unfold bind at 1. rewrite Hrun3. rewrite Hrem2 in Hrem3. simpl in Hrem3.
  looking Hrem3. rewrite Hc. simpl. unfold bind at 1, advance at 1. clear Hb Hc Hp.
  (* the content *)
  assert (Hcl : closes closing).
  { destruct Hclosing as [->|[r ->]]; [by left|right; by eexists]. }
  destruct (parseElementContentLoop_text fuel text [] "" _ closing Ha0 Hall Hcl)
    as (st4 & Hrun4 & Hrem4).
  { rewrite <- remaining_length, Ha0. lia. }
  unfold bind at 1. rewrite Hrun4. simpl fst. simpl snd. simpl String.append.
  unfold bind at 1.
  destruct Hclosing as [->|[r ->]].
  - rewrite parseEndTag_end by (by rewrite inBounds_remaining, Hrem4).
    by eexists.
  - destruct (parseEndTag_run fuel name st4 r Hvalid Hrem4) as (st5 & Hrun5 & _).
    { rewrite <- remaining_length, Hrem4. rewrite append_length in Hlen.
      simpl in *. lia. }
    rewrite Hrun5. by eexists.
Qed.

Lemma skipProlog_root fuel st c r :
  remaining st = String "<" (String c r) -> c <> "!"%char -> c <> "?"%char ->
  skipProlog (S fuel) st = Ok tt st.
Proof.
  intros Hr Hbang Hpi. looking Hr. simpl skipProlog. rewrite Hb, Hc, Hp.
  change (Js.charAt (String c r) 0) with (String c "").
  by rewrite (eqb_char_false c "!"), (eqb_char_false c "?") by done.
Qed.

(** The same for a whole document. *)
Lemma parse_text name text closing :
  validName name = true -> all notMarkup text = true ->
  (closing = "" \/ exists r, closing = "</" ++ name ++ ">" ++ r) ->
  parse ("<" ++ name ++ ">" ++ text ++ closing)
  = Some (mkParseResult (Some (buildElementNode name [] [] (withoutSpaces text))) []).
Proof.
  intros Hvalid Hall Hclosing.
  remember ("<" ++ name ++ ">" ++ text ++ closing) as xmlString eqn:Hxml.
  destruct (validName_start _ Hvalid) as (c & w & Hname & Hstart & _).
  assert (Hr : remaining (initial xmlString)
               = String "<" (String c (w ++ ">" ++ text ++ closing))).
  { by rewrite remaining_initial, Hxml, Hname. }
  unfold parse, parseWith, document.
  assert (Hfuel : String.length xmlString + 4 <= fuelFor xmlString) by (unfold fuelFor; lia).
  destruct (fuelFor xmlString) as [|fuel]; [lia|].
  destruct (skipWhitespace_run (S fuel) (initial xmlString))
    as (st1 & Hrun1 & Hrem1); [unfold rem; simpl; lia|].
  unfold bind at 1. rewrite Hrun1. rewrite Hr in Hrem1.
  change (dropSpaces _) with (String "<" (String c (w ++ ">" ++ text ++ closing))) in Hrem1.
  unfold bind at 1. rewrite peek_short by (simpl; lia).
  assert (Hrem1' : rem st1 = String.length xmlString).
  { by rewrite <- remaining_length, Hrem1, Hxml, Hname. }
  unfold bind at 1.
  rewrite (skipProlog_root fuel st1 c _ Hrem1)
    by (by apply (nameStart_not _ _ Hstart)).
  destruct (parseElement_text (S fuel) name text closing st1 Hvalid Hall Hclosing)
    as (st2 & ->); [by rewrite Hrem1, Hname|lia|done].
Qed.

End Runs.

(** ** Line and column

    The position of the specification, read off the consumed input: the
    line is one more than its newlines, the column one more than the
    characters after its last newline. *)

Fixpoint newlines (s : string) : nat :=
  match s with
  | "" => 0
  | String c s' => (if Ascii.eqb c Js.LF then 1 else 0) + newlines s'
  end.

Fixpoint hasNewline (s : string) : bool :=
  match s with
  | "" => false
  | String c s' => Ascii.eqb c Js.LF || hasNewline s'
  end.

Fixpoint sinceNewline (s : string) : nat :=
  match s with
  | "" => 0
  | String c s' =>
      if hasNewline s' then sinceNewline s'
      else if Ascii.eqb c Js.LF then String.length s'
      else S (String.length s')
  end.

(** The input before the cursor. *)
Definition consumed (st : State) : string := String.substring 0 (position st) (xml st).

Definition tracked (st : State) : Prop :=
  line st = 1 + newlines (consumed st) /\ column st = 1 + sinceNewline (consumed st).

Lemma substring_snoc s p c :
  String.get p s = Some c ->
  String.substring 0 (S p) s = String.substring 0 p s ++ String c "".
Proof.
  revert p. induction s as [|a s IH]; intros p Hget; [by destruct p|].
  destruct p as [|p]; simpl in *.
  - injection Hget as ->. by destruct s.
  - by rewrite <- IH.
Qed.

Lemma newlines_snoc s c :
  newlines (s ++ String c "") = newlines s + (if Ascii.eqb c Js.LF then 1 else 0).
Proof. induction s as [|a s IH]; simpl; [lia|]. rewrite IH. lia. Qed.

Lemma hasNewline_snoc s c :
  hasNewline (s ++ String c "") = hasNewline s || Ascii.eqb c Js.LF.
Proof.
  induction s as [|a s IH]; simpl; [by rewrite orb_false_r|].
  by rewrite IH, orb_assoc.
Qed.

Lemma hasNewline_false_since s : hasNewline s = false -> sinceNewline s = String.length s.
Proof.
  induction s as [|a s IH]; simpl; [done|].
  intros Hn. apply orb_false_elim in Hn as [-> Hn]. by rewrite Hn.
Qed.

Lemma sinceNewline_snoc s c :
  sinceNewline (s ++ String c "")
  = if Ascii.eqb c Js.LF then 0 else S (sinceNewline s).
Proof.
  induction s as [|a s IH]; simpl; [by destruct (Ascii.eqb c Js.LF)|].
  rewrite hasNewline_snoc, IH, append_length. simpl.
  destruct (hasNewline s) eqn:Hn; simpl; [done|].
  rewrite (hasNewline_false_since _ Hn).
  destruct (Ascii.eqb c Js.LF), (Ascii.eqb a Js.LF); lia.
Qed.

Lemma tracked_initial xmlString : tracked (initial xmlString).
Proof. unfold tracked, consumed. simpl. by destruct xmlString. Qed.

Lemma tracked_advance st : tracked st -> tracked (advanceState st).
Proof.
  intros [Hline Hcol]. unfold advanceState.
  destruct (inBounds st) eqn:Hb; [|done].
  apply inBounds_true in Hb. destruct (get_some _ _ Hb) as [c Hget].
  unfold tracked, consumed, Js.charAt. rewrite Hget.
  change (String c "" === String Js.LF "") with (if Ascii.eqb c Js.LF then true else false).
  unfold consumed in Hline, Hcol.
  destruct (Ascii.eqb c Js.LF) eqn:Hc; simpl;
    replace (position st + 1) with (S (position st)) by lia;
    rewrite (substring_snoc _ _ _ Hget), newlines_snoc, sinceNewline_snoc, Hc;
    lia.
Qed.

Lemma tracked_Reach st st' : Reach st st' -> tracked st -> tracked st'.
Proof.
  intros [n ->] Ht. induction n as [|n IH]; [done|]. simpl. by apply tracked_advance.
Qed.

Lemma consumed_prefix st : wf st -> exists rest, xml st = consumed st ++ rest.
Proof.
  unfold wf, consumed. generalize (position st) as p. generalize (xml st) as s.
  induction s as [|a s IH]; intros p Hp; simpl in *.
  - exists "". by destruct p.
  - destruct p as [|p]; [by eexists|].
    destruct (IH p ltac:(lia)) as [rest Hrest]. exists rest. simpl. congruence.
Qed.

(** ** Runs that return

    What a run that returns went through: [ok_inv] takes the equation of
    the run apart, call by call. *)

Lemma all_app p a b : all p (a ++ b) = all p a && all p b.
Proof. induction a as [|c a IH]; simpl; [done|]. by rewrite IH, andb_assoc. Qed.

Lemma bind_Ok {A B} (m : P A) (k : A -> P B) st b st' :
  bind m k st = Ok b st' -> exists a st1, m st = Ok a st1 /\ k a st1 = Ok b st'.
Proof. unfold bind. destruct (m st) as [a st1| |]; [|done..]. by exists a, st1. Qed.

Ltac ok_inv :=
  repeat match goal with
    | H : Throw _ _ = Ok _ _ |- _ => discriminate H
    | H : OutOfFuel = Ok _ _ |- _ => discriminate H
    | H : throw _ _ = Ok _ _ |- _ => discriminate H
    | H : Ok _ _ = Ok _ _ |- _ => inversion H; subst; clear H
    | H : ret _ _ = Ok _ _ |- _ => inversion H; subst; clear H
    | H : advance _ = Ok _ _ |- _ => inversion H; subst; clear H
    | H : bind _ _ _ = Ok _ _ |- _ =>
        let a := fresh "a" in let st := fresh "st" in
        let Hm := fresh "Hm" in
        apply bind_Ok in H as (a & st & Hm & H)
    | H : (if ?c then _ else _) = Ok _ _ |- _ => destruct c eqn:?
    | H : (if ?c then _ else _) _ = Ok _ _ |- _ => destruct c eqn:?
    end.

End XmlParserFacts.

(** * The parser at the end of the input *)

Module EndOfInput.
Import XmlParser XmlParserFacts.

#[local] Arguments String.append : simpl nomatch.
#[local] Arguments advance : simpl never.

(** The characters of an end tag. *)
Definition tagChar (c : ascii) : bool :=
  nameChar c || Ascii.eqb c "<" || Ascii.eqb c "/" || Ascii.eqb c ">".

(** None of them ends a scan of the parser, is white space or begins a
    name. *)
Lemma tagChar_plain c :
  tagChar c = true ->
  c <> ";"%char /\ c <> "&"%char /\ c <> "?"%char /\ c <> "'"%char /\ c <> Js.QUOTE
  /\ c <> "="%char /\ c <> "!"%char /\ space c = false.
Proof.
  destruct c as [[] [] [] [] [] [] [] []]; vm_compute; intros Htag;
    first [discriminate Htag | repeat split; discriminate].
Qed.

Lemma all_weaken (p q : ascii -> bool) s :
  (forall c, p c = true -> q c = true) -> all p s = true -> all q s = true.
Proof.
  intros Hpq. induction s as [|c s IH]; simpl; [done|].
  intros Hall. apply andb_prop in Hall as [Hp Hall]. by rewrite (Hpq _ Hp), IH.
Qed.

Lemma det {A} (r r' : Res A) a st : below r r' -> r = Ok a st -> r' = Ok a st.
Proof. intros [->| <-]; done. Qed.

Lemma eqb_single c d : (String c "" === String d "") = Ascii.eqb c d.
Proof.
  destruct (Ascii.eqb_spec c d) as [->|Hne]; [by rewrite String.eqb_refl|].
  apply String.eqb_neq. congruence.
Qed.

Lemma eqb_single_false c d : c <> d -> (String c "" === String d "") = false.
Proof. intros Hne. rewrite eqb_single. by apply Ascii.eqb_neq. Qed.

(** One turn of each loop. *)
Lemma skipWhitespace_S fuel st :
  skipWhitespace (S fuel) st
  = if inBounds st && isWhitespace (current st)
    then (advance ;; skipWhitespace fuel) st
    else Ok tt st.
Proof. done. Qed.

Lemma parseNameLoop_S fuel acc st :
  parseNameLoop (S fuel) acc st
  = if inBounds st then
      if isNameChar (current st)
      then (advance ;; parseNameLoop fuel (acc ++ current st)) st
      else Ok acc st
    else Ok acc st.
Proof. done. Qed.

Lemma skipProcessingInstruction_S fuel st :
  skipProcessingInstruction (S fuel) st
  = if position st + 1 <? String.length (xml st) then
      if (current st === "?") && (peek 1 st === ">")
      then (advance ;; advance) st
      else (advance ;; skipProcessingInstruction fuel) st
    else Ok tt st.
Proof. done. Qed.

Lemma skipProlog_S fuel st :
  skipProlog (S fuel) st
  = if inBounds st && (current st === "<") then
      if peek 1 st === "!"
      then (skipWhitespace fuel ;; skipProlog fuel) st
      else if peek 1 st === "?"
      then (skipProcessingInstruction fuel ;; skipWhitespace fuel ;; skipProlog fuel) st
      else Ok tt st
    else Ok tt st.
Proof.
  simpl. unfold bind at 1. by rewrite skipComment_noop.
Qed.

Lemma ahead st : (position st + 1 <? String.length (xml st)) = (1 <? String.length (remaining st)).
Proof.
  rewrite remaining_length. unfold rem.
  destruct (position st + 1 <? _) eqn:Ha; symmetry;
    [apply Nat.ltb_lt in Ha; apply Nat.ltb_lt|apply Nat.ltb_ge in Ha; apply Nat.ltb_ge]; lia.
Qed.

Section EndTag.
Context `{Platform}.
Variable name : string.
Hypothesis Hvalid : validName name = true.

Definition endTag : string := "</" ++ name ++ ">".

(** The same cursor on the input and on the input followed by the end
    tag. *)
Definition sim (st st' : State) : Prop := remaining st' = remaining st ++ endTag.

(** Both inputs are read to their ends. *)
Definition finished (st st' : State) : Prop := remaining st = "" /\ remaining st' = "".

(** The two runs go together: on the same cursor, or both at the end,
    once the end tag is read on the longer input. *)
Definition inStep (st st' : State) : Prop := sim st st' \/ finished st st'.

(** The cursor is in the end tag. *)
Definition deep (st' : State) : Prop := all tagChar (remaining st') = true.

Lemma endTag_chars : all tagChar endTag = true.
Proof.
  destruct (validName_start _ Hvalid) as (c & w & Hname & _ & Hall).
  unfold endTag. simpl. rewrite all_app. simpl.
  rewrite (all_weaken nameChar tagChar _ ltac:(intros ? Hc; unfold tagChar; by rewrite Hc) Hall).
  done.
Qed.

(** What the two cursors are on. *)
Inductive View (st st' : State) : Prop :=
| AtEnd :
    remaining st = "" -> inBounds st = false -> current st = "" -> peek 1 st = "" ->
    advanceState st = st ->
    remaining st' = endTag -> inBounds st' = true -> current st' = "<" ->
    peek 1 st' = "/" ->
    View st st'
| Inside c r :
    remaining st = String c r -> inBounds st = true -> inBounds st' = true ->
    current st = String c "" -> current st' = String c "" ->
    peek 1 st = Js.charAt r 0 ->
    (forall d, d <> "<"%char -> (peek 1 st' === String d "") = (peek 1 st === String d "")) ->
    remaining (advanceState st) = r ->
    sim (advanceState st) (advanceState st') ->
    View st st'.

Lemma sim_view st st' : sim st st' -> View st st'.
Proof.
  unfold sim. intros Hsim. destruct (remaining st) as [|c r] eqn:Hr.
  - simpl in Hsim. destruct (look_end _ Hr) as (Hb & Hc & Hp & Ha).
    pose proof Hsim as Hsim'. unfold endTag in Hsim'. simpl in Hsim'.
    destruct (look _ _ _ Hsim') as (Hb' & Hc' & Hp' & Ha').
    by apply AtEnd.
  - simpl in Hsim. destruct (look _ _ _ Hr) as (Hb & Hc & Hp & Ha).
    destruct (look _ _ _ Hsim) as (Hb' & Hc' & Hp' & Ha').
    apply (Inside _ _ c r); try done.
    + intros d Hd. rewrite Hp, Hp'. destruct r as [|e r]; [|done].
      change (Js.charAt ("" ++ endTag) 0) with "<". change (Js.charAt "" 0) with "".
      by rewrite (eqb_single_false "<" d) by congruence.
    + unfold sim. by rewrite Ha, Ha'.
Qed.

Lemma sim_deep st st' : sim st st' -> remaining st = "" -> deep st'.
Proof. unfold sim, deep. intros -> ->. apply endTag_chars. Qed.

Lemma deep_view st' :
  deep st' ->
  remaining st' = ""
  \/ exists c, tagChar c = true /\ inBounds st' = true /\ current st' = String c ""
               /\ deep (advanceState st').
Proof.
  unfold deep. intros Hall. destruct (remaining st') as [|c r] eqn:Hr; [by left|]. right.
  destruct (look _ _ _ Hr) as (Hb & Hc & Hp & Ha). simpl in Hall.
  apply andb_prop in Hall as [Hc' Hall]. exists c. by rewrite Ha.
Qed.

(** ** Names and white space *)

Lemma skipWhitespace_sim fuel : forall st st' st1',
  sim st st' -> skipWhitespace fuel st' = Ok tt st1' ->
  exists st1, skipWhitespace (S fuel) st = Ok tt st1 /\ sim st1 st1'.
Proof.
  induction fuel as [|fuel IH]; intros st st' st1' Hsim Hrun; [done|].
  rewrite skipWhitespace_S in Hrun. rewrite skipWhitespace_S.
  destruct (sim_view _ _ Hsim)
    as [Hr Hb Hc Hp Ha Hr' Hb' Hc' Hp'|c r Hr Hb Hb' Hc Hc' Hpk Hp Hrem Hsim'].
  - rewrite Hb' , Hc' in Hrun. simpl in Hrun. injection Hrun as <-.
    rewrite Hb. simpl. by exists st.
  - rewrite Hb', Hc' in Hrun. rewrite Hb, Hc.
    destruct (isWhitespace (String c "")); simpl in *.
    + unfold bind, advance in Hrun |- *. by apply (IH _ _ _ Hsim' Hrun).
    + injection Hrun as <-. by exists st.
Qed.

Lemma parseNameLoop_sim fuel : forall acc st st' w st1',
  sim st st' -> parseNameLoop fuel acc st' = Ok w st1' ->
  exists st1, parseNameLoop (S fuel) acc st = Ok w st1 /\ sim st1 st1'.
Proof.
  induction fuel as [|fuel IH]; intros acc st st' w st1' Hsim Hrun; [done|].
  rewrite parseNameLoop_S in Hrun. rewrite parseNameLoop_S.
  destruct (sim_view _ _ Hsim)
    as [Hr Hb Hc Hp Ha Hr' Hb' Hc' Hp'|c r Hr Hb Hb' Hc Hc' Hpk Hp Hrem Hsim'].
  - rewrite Hb' , Hc' in Hrun. simpl in Hrun. injection Hrun as <- <-.
    rewrite Hb. by exists st.
  - rewrite Hb', Hc' in Hrun. rewrite Hb, Hc.
    destruct (isNameChar (String c "")); simpl in *.
    + unfold bind, advance in Hrun |- *. by apply (IH _ _ _ _ _ Hsim' Hrun).
    + injection Hrun as <- <-. by exists st.
Qed.

Lemma parseName_sim fuel st st' w st1' :
  sim st st' -> parseName fuel st' = Ok w st1' ->
  exists st1, parseName (S fuel) st = Ok w st1 /\ sim st1 st1'.
Proof.
  intros Hsim Hrun. unfold parseName in *.
  destruct (sim_view _ _ Hsim)
    as [Hr Hb Hc Hp Ha Hr' Hb' Hc' Hp'|c r Hr Hb Hb' Hc Hc' Hpk Hp Hrem Hsim'].
  - by rewrite Hc' in Hrun.
  - rewrite Hc' in Hrun. rewrite Hc.
    destruct (negb (isNameStartChar (String c ""))); [done|].
    apply bind_Ok in Hrun as (w' & st2' & Hloop & Hrun).
    destruct (parseNameLoop_sim _ _ _ _ _ _ Hsim Hloop) as (st2 & Hloop' & Hsim2).
    unfold bind. rewrite Hloop'.
    destruct (negb (Js.truthy w')); [done|]. injection Hrun as <- <-. by exists st2.
Qed.

(** ** Attribute values *)

Lemma parseEntityLoop_S fuel entity st :
  parseEntityLoop (S fuel) entity st
  = if inBounds st && (current st !== ";")
    then (advance ;; parseEntityLoop fuel (entity ++ current st)) st
    else Ok entity st.
Proof. done. Qed.

Lemma parseAttributeValueLoop_S fuel quote value st :
  parseAttributeValueLoop (S fuel) quote value st
  = if inBounds st && (current st !== quote) then
      if current st === "&"
      then (let* decoded := parseEntity fuel in
            parseAttributeValueLoop fuel quote (value ++ decoded)) st
      else (advance ;; parseAttributeValueLoop fuel quote (value ++ current st)) st
    else Ok value st.
Proof. done. Qed.

(** In the end tag no scan for [;] or for a quote stops before the end of
    the input. *)
Lemma parseEntityLoop_deep fuel : forall entity st' entity' st1',
  deep st' -> parseEntityLoop fuel entity st' = Ok entity' st1' -> remaining st1' = "".
Proof.
  induction fuel as [|fuel IH]; intros entity st' entity' st1' Hdeep Hrun; [done|].
  rewrite parseEntityLoop_S in Hrun.
  destruct (deep_view _ Hdeep) as [Hr|(c & Htag & Hb & Hc & Hdeep')].
  - destruct (look_end _ Hr) as (Hb & _). rewrite Hb in Hrun. simpl in Hrun.
    by injection Hrun as <- <-.
  - destruct (tagChar_plain _ Htag) as (Hsemi & _).
    rewrite Hb, Hc, (eqb_single_false c ";") in Hrun by done. simpl in Hrun.
    unfold bind, advance in Hrun. by apply (IH _ _ _ _ Hdeep' Hrun).
Qed.

Lemma parseAttributeValueLoop_deep quote fuel : forall value st' value' st1',
  (forall c, tagChar c = true -> (String c "" === quote) = false) ->
  deep st' -> parseAttributeValueLoop fuel quote value st' = Ok value' st1' ->
  remaining st1' = "".
Proof.
  induction fuel as [|fuel IH]; intros value st' value' st1' Hquote Hdeep Hrun; [done|].
  rewrite parseAttributeValueLoop_S in Hrun.
  destruct (deep_view _ Hdeep) as [Hr|(c & Htag & Hb & Hc & Hdeep')].
  - destruct (look_end _ Hr) as (Hb & _). rewrite Hb in Hrun. simpl in Hrun.
    by injection Hrun as <- <-.
  - destruct (tagChar_plain _ Htag) as (_ & Hamp & _).
    rewrite Hb, Hc, (Hquote _ Htag), (eqb_single_false c "&") in Hrun by done.
    simpl in Hrun. unfold bind, advance in Hrun. by apply (IH _ _ _ _ Hquote Hdeep' Hrun).
Qed.

Lemma parseEntityLoop_sim fuel : forall entity st st' entity' st1',
  sim st st' -> parseEntityLoop fuel entity st' = Ok entity' st1' ->
  (exists st1, parseEntityLoop (S fuel) entity st = Ok entity' st1 /\ sim st1 st1')
  \/ remaining st1' = "".
Proof.
  induction fuel as [|fuel IH]; intros entity st st' entity' st1' Hsim Hrun; [done|].
  destruct (sim_view _ _ Hsim)
    as [Hr Hb Hc Hp Ha Hr' Hb' Hc' Hp'|c r Hr Hb Hb' Hc Hc' Hpk Hp Hrem Hsim'].
  - right. eapply parseEntityLoop_deep; [|exact Hrun]. by eapply sim_deep.
  - rewrite parseEntityLoop_S in Hrun. rewrite parseEntityLoop_S.
    rewrite Hb', Hc' in Hrun. rewrite Hb, Hc.
    destruct (String c "" !== ";"); simpl in *.
    + unfold bind, advance in Hrun |- *. by apply (IH _ _ _ _ _ Hsim' Hrun).
    + injection Hrun as <- <-. left. by exists st.
Qed.

Lemma parseEntity_sim fuel st st' decoded st1' :
  sim st st' -> parseEntity fuel st' = Ok decoded st1' ->
  exists st1, parseEntity (S fuel) st = Ok decoded st1 /\ sim st1 st1'.
Proof.
  intros Hsim Hrun. unfold parseEntity in *.
  destruct (sim_view _ _ Hsim)
    as [Hr Hb Hc Hp Ha Hr' Hb' Hc' Hp'|c r Hr Hb Hb' Hc Hc' Hpk Hp Hrem Hsim'].
  { by rewrite Hc' in Hrun. }
  rewrite Hc' in Hrun. rewrite Hc. destruct (String c "" !== "&"); [done|].
  unfold bind at 1, advance at 1 in Hrun. unfold bind at 1, advance at 1.
  apply bind_Ok in Hrun as (entity & st2' & Hloop & Hrun).
  destruct (parseEntityLoop_sim _ _ _ _ _ _ Hsim' Hloop) as [(st2 & Hloop' & Hsim2)|Hend].
  - unfold bind at 1. rewrite Hloop'. clear Hr Hb Hb' Hc Hc' Hpk Hp Hrem.
    destruct (sim_view _ _ Hsim2)
      as [Hr Hb Hc Hp Ha Hr' Hb' Hc' Hp'|c2 r2 Hr Hb Hb' Hc Hc' Hpk Hp Hrem Hsim2'].
    { by rewrite Hc' in Hrun. }
    rewrite Hc' in Hrun. rewrite Hc. destruct (String c2 "" !== ";"); [done|].
    unfold bind, advance, ret in Hrun |- *. injection Hrun as <- <-. by eexists.
  - destruct (look_end _ Hend) as (_ & Hc2 & _). by rewrite Hc2 in Hrun.
Qed.

Lemma parseAttributeValueLoop_sim quote fuel : forall value st st' value' st1',
  (forall c, tagChar c = true -> (String c "" === quote) = false) ->
  sim st st' -> parseAttributeValueLoop fuel quote value st' = Ok value' st1' ->
  (exists st1, parseAttributeValueLoop (S fuel) quote value st = Ok value' st1
               /\ sim st1 st1')
  \/ remaining st1' = "".
Proof.
  induction fuel as [|fuel IH]; intros value st st' value' st1' Hquote Hsim Hrun; [done|].
  destruct (sim_view _ _ Hsim)
    as [Hr Hb Hc Hp Ha Hr' Hb' Hc' Hp'|c r Hr Hb Hb' Hc Hc' Hpk Hp Hrem Hsim'].
  - right. eapply parseAttributeValueLoop_deep; [exact Hquote| |exact Hrun].
    by eapply sim_deep.
  - rewrite parseAttributeValueLoop_S in Hrun. rewrite parseAttributeValueLoop_S.
    rewrite Hb', Hc' in Hrun. rewrite Hb, Hc.
    destruct (String c "" !== quote); cbn [andb] in Hrun |- *;
      [|injection Hrun as <- <-; left; by exists st].
    destruct (String c "" === "&").
    + apply bind_Ok in Hrun as (decoded & st2' & Hentity & Hrun).
      destruct (parseEntity_sim _ _ _ _ _ Hsim Hentity) as (st2 & Hentity' & Hsim2).
      unfold bind. rewrite Hentity'. by apply (IH _ _ _ _ _ Hquote Hsim2 Hrun).
    + unfold bind, advance in Hrun |- *. by apply (IH _ _ _ _ _ Hquote Hsim' Hrun).
Qed.

Lemma parseAttributeValue_sim fuel st st' value st1' :
  sim st st' -> parseAttributeValue fuel st' = Ok value st1' ->
  exists st1, parseAttributeValue (S fuel) st = Ok value st1 /\ sim st1 st1'.
Proof.
  intros Hsim Hrun. unfold parseAttributeValue in *.
  destruct (sim_view _ _ Hsim)
    as [Hr Hb Hc Hp Ha Hr' Hb' Hc' Hp'|c r Hr Hb Hb' Hc Hc' Hpk Hp Hrem Hsim'].
  { by rewrite Hc' in Hrun. }
  rewrite Hc' in Hrun. rewrite Hc.
  destruct ((String c "" !== String Js.QUOTE "") && (String c "" !== "'")) eqn:Hquote;
    [done|].
  assert (Hplain : forall d, tagChar d = true -> (String d "" === String c "") = false).
  { intros d Htag. destruct (tagChar_plain _ Htag) as (_ & _ & _ & Hapos & Hq & _).
    rewrite !eqb_single in Hquote. rewrite eqb_single.
    apply Ascii.eqb_neq. intros ->.
    apply Ascii.eqb_neq in Hapos, Hq. by rewrite Hapos, Hq in Hquote. }
  unfold bind at 1, advance at 1 in Hrun. unfold bind at 1, advance at 1.
  apply bind_Ok in Hrun as (value' & st2' & Hloop & Hrun).
  destruct (parseAttributeValueLoop_sim _ _ _ _ _ _ _ Hplain Hsim' Hloop)
    as [(st2 & Hloop' & Hsim2)|Hend].
  - unfold bind at 1. rewrite Hloop'. clear Hr Hb Hb' Hc Hc' Hpk Hp Hrem.
    destruct (sim_view _ _ Hsim2)
      as [Hr Hb Hc Hp Ha Hr' Hb' Hc' Hp'|c2 r2 Hr Hb Hb' Hc Hc' Hpk Hp Hrem Hsim2'].
    { rewrite Hc' in Hrun. by rewrite (Hplain "<"%char) in Hrun. }
    rewrite Hc' in Hrun. rewrite Hc. destruct (String c2 "" !== String c ""); [done|].
    unfold bind, advance, ret in Hrun |- *. injection Hrun as <- <-. by eexists.
  - destruct (look_end _ Hend) as (_ & Hc2 & _). by rewrite Hc2 in Hrun.
Qed.

(** ** Attributes and end tags *)

Ltac view Hsim Hrun c r Hsim' :=
  destruct (sim_view _ _ Hsim)
    as [Hr Hb Hc Hp Ha Hr' Hb' Hc' Hp'|c r Hr Hb Hb' Hc Hc' Hpk Hp Hrem Hsim'];
  [ rewrite ?Hb', ?Hc', ?Hp' in Hrun; rewrite ?Hb, ?Hc, ?Hp
  | rewrite ?Hb', ?Hc', ?(Hp "/"%char), ?(Hp ">"%char), ?(Hp "!"%char), ?(Hp "?"%char)
      in Hrun by done;
    rewrite ?Hb, ?Hc ].

Ltac forget :=
  repeat match goal with
    | H : remaining _ = _ |- _ => clear H
    | H : inBounds _ = _ |- _ => clear H
    | H : current _ = _ |- _ => clear H
    | H : peek _ _ = _ |- _ => clear H
    | H : advanceState _ = _ |- _ => clear H
    | H : forall d, _ -> (peek _ _ === _) = _ |- _ => clear H
    end.

Lemma parseAttributesLoop_S fuel attributes st :
  parseAttributesLoop (S fuel) attributes st
  = if inBounds st then
      (skipWhitespace fuel ;;
       fun st =>
         if (current st === ">") || (current st === "/") || (current st === "?")
         then Ok attributes st
         else
           (let* name := parseName fuel in
            skipWhitespace fuel ;;
            fun st =>
              if current st !== "="
              then Throw ("Expected '=' after attribute name '" ++ name ++ "'") st
              else
                (advance ;;
                 skipWhitespace fuel ;;
                 let* value := parseAttributeValue fuel in
                 parseAttributesLoop fuel (Js.set name value attributes)) st) st) st
    else Ok attributes st.
Proof. done. Qed.

Lemma skipWhitespace_stay fuel st st1 :
  inBounds st && isWhitespace (current st) = false ->
  skipWhitespace fuel st = Ok tt st1 -> st1 = st.
Proof.
  intros Htest Hrun. destruct fuel as [|fuel]; [done|].
  rewrite skipWhitespace_S, Htest in Hrun. by injection Hrun.
Qed.

Lemma parseName_stops fuel st w st1 :
  isNameStartChar (current st) = false -> parseName fuel st = Ok w st1 -> False.
Proof. intros Hstart. unfold parseName. by rewrite Hstart. Qed.

Lemma parseAttributesLoop_sim fuel : forall attributes st st' attributes' st1',
  sim st st' -> parseAttributesLoop fuel attributes st' = Ok attributes' st1' ->
  exists st1, parseAttributesLoop (S fuel) attributes st = Ok attributes' st1
              /\ sim st1 st1'.
Proof.
  induction fuel as [|fuel IH]; intros attributes st st' attributes' st1' Hsim Hrun;
    [done|].
  rewrite parseAttributesLoop_S in Hrun. rewrite parseAttributesLoop_S.
  view Hsim Hrun c r Hsim'.
  { apply bind_Ok in Hrun as ([] & st2' & Hws & Hrun).
    apply skipWhitespace_stay in Hws as ->; [|rewrite Hc'; apply andb_false_r].
    rewrite Hc' in Hrun. simpl in Hrun.
    apply bind_Ok in Hrun as (w & st3' & Hname & _).
    apply parseName_stops in Hname; [done|by rewrite Hc']. }
  apply bind_Ok in Hrun as ([] & st2' & Hws & Hrun).
  destruct (skipWhitespace_sim _ _ _ _ Hsim Hws) as (st2 & Hws' & Hsim2).
  unfold bind at 1. rewrite Hws'. forget. clear Hsim'.
  view Hsim2 Hrun c2 r2 Hsim2'.
  { simpl in Hrun. apply bind_Ok in Hrun as (w & st3' & Hname & _).
    apply parseName_stops in Hname; [done|by rewrite Hc']. }
  destruct ((String c2 "" === ">") || (String c2 "" === "/") || (String c2 "" === "?")).
  { injection Hrun as <- <-. by exists st2. }
  apply bind_Ok in Hrun as (w & st3' & Hname & Hrun).
  destruct (parseName_sim _ _ _ _ _ Hsim2 Hname) as (st3 & Hname' & Hsim3).
  unfold bind at 1. rewrite Hname'.
  apply bind_Ok in Hrun as ([] & st4' & Hws4 & Hrun).
  destruct (skipWhitespace_sim _ _ _ _ Hsim3 Hws4) as (st4 & Hws4' & Hsim4).
  unfold bind at 1. rewrite Hws4'. forget. clear Hsim2'.
  view Hsim4 Hrun c4 r4 Hsim4'; [done|].
  destruct (String c4 "" !== "="); [done|].
  unfold bind at 1, advance at 1 in Hrun. unfold bind at 1, advance at 1.
  apply bind_Ok in Hrun as ([] & st5' & Hws5 & Hrun).
  destruct (skipWhitespace_sim _ _ _ _ Hsim4' Hws5) as (st5 & Hws5' & Hsim5).
  unfold bind at 1. rewrite Hws5'.
  apply bind_Ok in Hrun as (value & st6' & Hvalue & Hrun).
  destruct (parseAttributeValue_sim _ _ _ _ _ Hsim5 Hvalue) as (st6 & Hvalue' & Hsim6).
  unfold bind at 1. rewrite Hvalue'. by apply (IH _ _ _ _ _ Hsim6 Hrun).
Qed.

Lemma parseEndTag_sim fuel expectedName st st' st1' :
  inStep st st' -> parseEndTag fuel expectedName st' = Ok tt st1' ->
  exists st1, parseEndTag (S fuel) expectedName st = Ok tt st1 /\ inStep st1 st1'.
Proof.
  intros [Hsim|[Hend Hend']] Hrun.
  2: { destruct (look_end _ Hend) as (_ & Hc & _).
       destruct (look_end _ Hend') as (_ & Hc' & _).
       unfold parseEndTag in *. rewrite Hc' in Hrun. rewrite Hc.
       injection Hrun as <-. exists st. split; [done|]. by right. }
  destruct (sim_view _ _ Hsim)
    as [Hr Hb Hc Hp Ha Hr' Hb' Hc' Hp'|c r Hr Hb Hb' Hc Hc' Hpk Hp Hrem Hsim'].
  - exists st. split; [unfold parseEndTag; by rewrite Hc|]. right. split; [done|].
    apply (det _ (parseEndTag (fuel + S (rem st')) expectedName st')) in Hrun;
      [|apply parseEndTag_monotone; lia].
    assert (Hlen : rem st' = 3 + String.length name).
    { rewrite <- remaining_length, Hr'. unfold endTag. lengths. }
    remember (fuel + S (rem st')) as big eqn:Hbig.
    unfold parseEndTag in Hrun. rewrite Hc', Hp' in Hrun. simpl in Hrun.
    unfold bind at 1, advance at 1 in Hrun. unfold bind at 1, advance at 1 in Hrun.
    unfold endTag in Hr'. simpl in Hr'.
    destruct (look _ _ _ Hr') as (_ & _ & _ & Ha1).
    destruct (look _ _ _ Ha1) as (_ & _ & _ & Ha2).
    destruct (parseName_run name big _ ">" Hvalid Ha2) as (st2 & Hname & Hrem2);
      [done|lia|].
    unfold bind at 1 in Hrun. rewrite Hname in Hrun.
    destruct (name !== expectedName); [done|].
    destruct (skipWhitespace_run big st2) as (st3 & Hws & Hrem3).
    { rewrite <- remaining_length, Hrem2. simpl. lia. }
    unfold bind at 1 in Hrun. rewrite Hws in Hrun. rewrite Hrem2 in Hrem3.
    simpl in Hrem3. destruct (look _ _ _ Hrem3) as (_ & Hc3 & _ & Ha3).
    rewrite Hc3 in Hrun. simpl in Hrun. unfold advance in Hrun.
    by injection Hrun as <-.
  - unfold parseEndTag in *. rewrite Hc', (Hp "/"%char) in Hrun by done. rewrite Hc.
    destruct ((String c "" === "<") && (peek 1 st === "/")) eqn:Htest.
    2: { injection Hrun as <-. exists st. split; [done|]. by left. }
    apply andb_prop in Htest as [_ Hslash]. rewrite Hpk in Hslash.
    unfold bind at 1, advance at 1 in Hrun. unfold bind at 1, advance at 1.
    unfold bind at 1, advance at 1 in Hrun. unfold bind at 1, advance at 1.
    assert (Hsim2 : sim (advanceState (advanceState st)) (advanceState (advanceState st'))).
    { destruct (sim_view _ _ Hsim') as [Hr2 _ _ _ _ _ _ _ _|? ? _ _ _ _ _ _ _ _ Hsim2];
        [|done].
      rewrite Hrem in Hr2. by rewrite Hr2 in Hslash. }
    apply bind_Ok in Hrun as (w & st2' & Hname & Hrun).
    destruct (parseName_sim _ _ _ _ _ Hsim2 Hname) as (st2 & Hname' & Hsim3).
    unfold bind at 1. rewrite Hname'.
    destruct (w !== expectedName); [done|].
    apply bind_Ok in Hrun as ([] & st3' & Hws & Hrun).
    destruct (skipWhitespace_sim _ _ _ _ Hsim3 Hws) as (st3 & Hws' & Hsim4).
    unfold bind at 1. rewrite Hws'. forget.
    view Hsim4 Hrun c4 r4 Hsim4'; [done|].
    destruct (String c4 "" !== ">"); [done|].
    unfold advance in Hrun |- *. injection Hrun as <-. eexists. split; [done|]. by left.
Qed.

(** ** Elements *)

Lemma parseElement_S fuel st :
  parseElement (S fuel) st
  = if current st !== "<"
    then Throw ("Expected '<' but found '" ++ current st ++ "'") st
    else
      (advance ;;
       fun st =>
         if current st === "/" then Throw "Unexpected end tag" st
         else
           (let* name := parseName fuel in
            let* attributes := parseAttributes fuel in
            skipWhitespace fuel ;;
            fun st =>
              if (current st === "/") && (peek 1 st === ">")
              then (advance ;; advance ;;
                    ret (Types.XmlNode.mk name attributes [] None)) st
              else if current st !== ">"
              then Throw ("Expected '>' but found '" ++ current st ++ "'") st
              else (advance ;; parseElementContent fuel name attributes) st) st) st.
Proof. done. Qed.

Lemma parseElementContent_S fuel elementName attributes st :
  parseElementContent (S fuel) elementName attributes st
  = (let* content := parseElementContentLoop fuel [] "" in
     parseEndTag fuel elementName ;;
     ret (buildElementNode elementName attributes content.1 content.2)) st.
Proof. done. Qed.

Lemma parseElementContentLoop_S fuel children text st :
  parseElementContentLoop (S fuel) children text st
  = if inBounds st then
      (skipWhitespace fuel ;;
       fun st =>
         if current st === "<" then
           if peek 1 st === "/" then Ok (children, text) st
           else
             let flush := Js.truthy (Js.trim text) in
             let children := if flush then (children ++ [textNode text])%list else children in
             let text := if flush then "" else text in
             (let* child := parseElement fuel in
              parseElementContentLoop fuel (children ++ [child])%list text) st
         else
           (advance ;; parseElementContentLoop fuel children (text ++ current st)) st) st
    else Ok (children, text) st.
Proof. done. Qed.

(** Two characters further on both inputs. *)
Lemma sim_second st st' r d :
  sim (advanceState st) (advanceState st') ->
  remaining (advanceState st) = r -> peek 1 st = Js.charAt r 0 ->
  (peek 1 st === String d "") = true ->
  sim (advanceState (advanceState st)) (advanceState (advanceState st')).
Proof.
  intros Hsim Hrem Hpk Htest.
  destruct (sim_view _ _ Hsim) as [Hr2 _ _ _ _ _ _ _ _|? ? _ _ _ _ _ _ _ _ Hsim2]; [|done].
  rewrite Hrem in Hr2. by rewrite Hpk, Hr2 in Htest.
Qed.

Lemma parseElement_sim_all fuel :
  (forall st st' node st1',
     sim st st' -> parseElement fuel st' = Ok node st1' ->
     exists st1, parseElement (S fuel) st = Ok node st1 /\ inStep st1 st1')
  /\ (forall elementName attributes st st' node st1',
        sim st st' -> parseElementContent fuel elementName attributes st' = Ok node st1' ->
        exists st1, parseElementContent (S fuel) elementName attributes st = Ok node st1
                    /\ inStep st1 st1')
  /\ (forall children text st st' content st1',
        inStep st st' -> parseElementContentLoop fuel children text st' = Ok content st1' ->
        exists st1, parseElementContentLoop (S fuel) children text st = Ok content st1
                    /\ inStep st1 st1').
Proof.
  induction fuel as [|fuel (IHe & IHc & IHl)]; [by repeat split|].
  repeat split.
  - intros st st' node st1' Hsim Hrun.
    rewrite parseElement_S in Hrun. rewrite parseElement_S.
    view Hsim Hrun c r Hsim'.
    { simpl in Hrun. unfold bind at 1, advance at 1 in Hrun.
      unfold endTag in Hr'. simpl in Hr'. destruct (look _ _ _ Hr') as (_ & _ & _ & Ha1).
      destruct (look _ _ _ Ha1) as (_ & Hc1 & _). by rewrite Hc1 in Hrun. }
    destruct (String c "" !== "<"); [done|].
    unfold bind at 1, advance at 1 in Hrun. unfold bind at 1, advance at 1. forget.
    view Hsim' Hrun c2 r2 Hsim2.
    { simpl in Hrun. apply bind_Ok in Hrun as (w & st3' & Hname & _).
      apply parseName_stops in Hname; [done|by rewrite Hc']. }
    destruct (String c2 "" === "/"); [done|].
    apply bind_Ok in Hrun as (w & st3' & Hname & Hrun).
    destruct (parseName_sim _ _ _ _ _ Hsim' Hname) as (st3 & Hname' & Hsim3).
    unfold bind at 1. rewrite Hname'.
    apply bind_Ok in Hrun as (attributes & st4' & Hattributes & Hrun).
    destruct (parseAttributesLoop_sim _ _ _ _ _ _ Hsim3 Hattributes)
      as (st4 & Hattributes' & Hsim4).
    unfold bind at 1, parseAttributes. rewrite Hattributes'.
    apply bind_Ok in Hrun as ([] & st5' & Hws & Hrun).
    destruct (skipWhitespace_sim _ _ _ _ Hsim4 Hws) as (st5 & Hws' & Hsim5).
    unfold bind at 1. rewrite Hws'. forget. clear Hsim2.
    view Hsim5 Hrun c5 r5 Hsim5'; [done|].
    destruct ((String c5 "" === "/") && (peek 1 st5 === ">")) eqn:Hself.
    { apply andb_prop in Hself as [_ Hself].
      pose proof (sim_second _ _ _ _ Hsim5' Hrem Hpk Hself) as Hsim6.
      unfold bind, advance, ret in Hrun |- *. injection Hrun as <- <-.
      eexists. split; [done|]. by left. }
    destruct (String c5 "" !== ">"); [done|].
    unfold bind at 1, advance at 1 in Hrun. unfold bind at 1, advance at 1.
    by apply (IHc _ _ _ _ _ _ Hsim5' Hrun).
  - intros elementName attributes st st' node st1' Hsim Hrun.
    rewrite parseElementContent_S in Hrun. rewrite parseElementContent_S.
    apply bind_Ok in Hrun as (content & st2' & Hloop & Hrun).
    destruct (IHl _ _ _ _ _ _ (or_introl Hsim) Hloop) as (st2 & Hloop' & HR2).
    unfold bind at 1. rewrite Hloop'.
    apply bind_Ok in Hrun as ([] & st3' & Hend & Hrun).
    destruct (parseEndTag_sim _ _ _ _ _ HR2 Hend) as (st3 & Hend' & HR3).
    unfold bind at 1. rewrite Hend'. unfold ret in Hrun |- *.
    injection Hrun as <- <-. by exists st3.
  - intros children text st st' content st1' [Hsim|[Hend Hend']] Hrun.
    2: { destruct (look_end _ Hend) as (Hb & _). destruct (look_end _ Hend') as (Hb' & _).
         rewrite parseElementContentLoop_S in Hrun. rewrite parseElementContentLoop_S.
         rewrite Hb' in Hrun. rewrite Hb. injection Hrun as <- <-.
         exists st. split; [done|]. by right. }
    rewrite parseElementContentLoop_S in Hrun. rewrite parseElementContentLoop_S.
    view Hsim Hrun c r Hsim'.
    { apply bind_Ok in Hrun as ([] & st2' & Hws & Hrun).
      apply skipWhitespace_stay in Hws as ->; [|rewrite Hc'; apply andb_false_r].
      rewrite Hc', Hp' in Hrun. simpl in Hrun. injection Hrun as <- <-.
      exists st. split; [done|]. by left. }
    apply bind_Ok in Hrun as ([] & st2' & Hws & Hrun).
    destruct (skipWhitespace_sim _ _ _ _ Hsim Hws) as (st2 & Hws' & Hsim2).
    unfold bind at 1. rewrite Hws'. forget. clear Hsim'.
    view Hsim2 Hrun c2 r2 Hsim2'.
    { simpl in Hrun. injection Hrun as <- <-.
      change ("" === "<") with false. cbv iota.
      unfold bind, advance. rewrite Ha, parseElementContentLoop_S, Hb, append_nil_r.
      exists st2. split; [done|]. by left. }
    destruct (String c2 "" === "<").
    + destruct (peek 1 st2 === "/").
      { injection Hrun as <- <-. exists st2. split; [done|]. by left. }
      cbv zeta in Hrun. cbv zeta.
      apply bind_Ok in Hrun as (child & st3' & Hchild & Hrun).
      destruct (IHe _ _ _ _ Hsim2 Hchild) as (st3 & Hchild' & HR3).
      unfold bind at 1. rewrite Hchild'. by apply (IHl _ _ _ _ _ _ HR3 Hrun).
    + unfold bind at 1, advance at 1 in Hrun. unfold bind at 1, advance at 1.
      by apply (IHl _ _ _ _ _ _ (or_introl Hsim2') Hrun).
Qed.

(** ** The prolog *)

Lemma tail_length s : String.length (tail s) <= String.length s.
Proof. destruct s; simpl; lia. Qed.

Lemma skipWhitespace_length fuel : forall st st1,
  skipWhitespace fuel st = Ok tt st1 ->
  String.length (remaining st1) <= String.length (remaining st).
Proof.
  induction fuel as [|fuel IH]; intros st st1 Hrun; [done|].
  rewrite skipWhitespace_S in Hrun. destruct (_ && _).
  - unfold bind, advance in Hrun. apply IH in Hrun. rewrite remaining_advance in Hrun.
    pose proof (tail_length (remaining st)). lia.
  - by injection Hrun as <-.
Qed.

(** [?>] occurs in the text. *)
Fixpoint closesInstruction (text : string) : bool :=
  match text with
  | "" => false
  | String c text' =>
      match text' with
      | String d _ => (Ascii.eqb c "?" && Ascii.eqb d ">") || closesInstruction text'
      | "" => false
      end
  end.

Lemma closesInstruction_tag text : all tagChar text = true -> closesInstruction text = false.
Proof.
  induction text as [|c text IH]; [done|]. simpl. intros Hall.
  apply andb_prop in Hall as [Hc Hall]. destruct text as [|d text]; [done|].
  rewrite (IH Hall), orb_false_r.
  destruct (tagChar_plain _ Hc) as (_ & _ & Hq & _).
  apply Ascii.eqb_neq in Hq. by rewrite Hq.
Qed.

Lemma skipProcessingInstruction_late fuel : forall st' st1',
  closesInstruction (remaining st') = false ->
  skipProcessingInstruction fuel st' = Ok tt st1' ->
  String.length (remaining st1') <= 1.
Proof.
  induction fuel as [|fuel IH]; intros st' st1' Hnone Hrun; [done|].
  rewrite skipProcessingInstruction_S, ahead in Hrun.
  destruct (1 <? String.length (remaining st')) eqn:Hlen.
  - destruct (remaining st') as [|c [|d r]] eqn:Hr; [done..|].
    destruct (look _ _ _ Hr) as (_ & Hc & Hp & Ha).
    rewrite Hc, Hp in Hrun. change (Js.charAt (String d r) 0) with (String d "") in Hrun.
    rewrite !eqb_single in Hrun.
    change (closesInstruction (String c (String d r)))
      with ((Ascii.eqb c "?" && Ascii.eqb d ">") || closesInstruction (String d r)) in Hnone.
    apply orb_false_elim in Hnone as [Htest Hnone]. rewrite Htest in Hrun.
    unfold bind, advance in Hrun. apply (IH _ _ ltac:(by rewrite Ha) Hrun).
  - injection Hrun as <-. by apply Nat.ltb_ge in Hlen.
Qed.

Lemma skipProcessingInstruction_sim fuel : forall st st' st1',
  sim st st' -> skipProcessingInstruction fuel st' = Ok tt st1' ->
  (exists st1, skipProcessingInstruction (S fuel) st = Ok tt st1 /\ sim st1 st1')
  \/ String.length (remaining st1') <= 1.
Proof.
  induction fuel as [|fuel IH]; intros st st' st1' Hsim Hrun; [done|].
  destruct (1 <? String.length (remaining st)) eqn:Hlen.
  - rewrite skipProcessingInstruction_S, ahead in Hrun.
    rewrite skipProcessingInstruction_S, ahead, Hlen.
    replace (1 <? String.length (remaining st')) with true in Hrun
      by (symmetry; apply Nat.ltb_lt; apply Nat.ltb_lt in Hlen;
          rewrite Hsim, append_length; lia).
    view Hsim Hrun c r Hsim'; [by rewrite Hr in Hlen|].
    destruct ((String c "" === "?") && (peek 1 st === ">")) eqn:Htest.
    + apply andb_prop in Htest as [_ Htest].
      pose proof (sim_second _ _ _ _ Hsim' Hrem Hpk Htest) as Hsim2.
      unfold bind, advance in Hrun |- *. injection Hrun as <-. left. by eexists.
    + unfold bind at 1, advance at 1 in Hrun. unfold bind at 1, advance at 1.
      by apply (IH _ _ _ Hsim' Hrun).
  - right. eapply skipProcessingInstruction_late; [|exact Hrun].
    rewrite Hsim. apply Nat.ltb_ge in Hlen.
    destruct (remaining st) as [|c [|d r]]; simpl in Hlen; [| |lia].
    + apply closesInstruction_tag, endTag_chars.
    + change (closesInstruction (String c "" ++ endTag))
        with ((Ascii.eqb c "?" && Ascii.eqb "<" ">") || closesInstruction endTag).
      rewrite andb_false_r. apply closesInstruction_tag, endTag_chars.
Qed.

Lemma peek_short_input st : String.length (remaining st) <= 1 -> peek 1 st = "".
Proof.
  intros Hlen. rewrite peek_remaining.
  by destruct (remaining st) as [|c [|d r]]; [..|simpl in Hlen; lia].
Qed.

Lemma skipProlog_late fuel st st1 :
  String.length (remaining st) <= 1 -> skipProlog fuel st = Ok tt st1 -> st1 = st.
Proof.
  intros Hlen Hrun. destruct fuel as [|fuel]; [done|].
  rewrite skipProlog_S, (peek_short_input _ Hlen) in Hrun. simpl in Hrun.
  destruct (_ && _); by injection Hrun.
Qed.

Lemma parseElement_late fuel st node st1 :
  String.length (remaining st) <= 1 -> parseElement fuel st = Ok node st1 -> False.
Proof.
  intros Hlen Hrun. destruct fuel as [|fuel]; [done|]. rewrite parseElement_S in Hrun.
  destruct (remaining st) as [|c [|d r]] eqn:Hr; [| |simpl in Hlen; lia].
  - destruct (look_end _ Hr) as (_ & Hc & _). by rewrite Hc in Hrun.
  - destruct (look _ _ _ Hr) as (_ & Hc & _ & Ha). rewrite Hc in Hrun.
    destruct (String c "" !== "<"); [done|].
    unfold bind at 1, advance at 1 in Hrun.
    destruct (look_end _ Ha) as (_ & Hc1 & _). rewrite Hc1 in Hrun. simpl in Hrun.
    apply bind_Ok in Hrun as (w & st2 & Hname & _).
    apply parseName_stops in Hname; [done|by rewrite Hc1].
Qed.

Lemma skipProlog_sim fuel : forall st st' st1',
  sim st st' -> skipProlog fuel st' = Ok tt st1' ->
  (exists st1, skipProlog (S fuel) st = Ok tt st1 /\ sim st1 st1')
  \/ String.length (remaining st1') <= 1.
Proof.
  induction fuel as [|fuel IH]; intros st st' st1' Hsim Hrun; [done|].
  rewrite skipProlog_S in Hrun. rewrite skipProlog_S.
  view Hsim Hrun c r Hsim'.
  { simpl in Hrun. injection Hrun as <-. left. by exists st. }
  destruct (true && (String c "" === "<")); [|injection Hrun as <-; left; by exists st].
  destruct (peek 1 st === "!").
  { apply bind_Ok in Hrun as ([] & st2' & Hws & Hrun).
    destruct (skipWhitespace_sim _ _ _ _ Hsim Hws) as (st2 & Hws' & Hsim2).
    unfold bind at 1. rewrite Hws'. by apply (IH _ _ _ Hsim2 Hrun). }
  destruct (peek 1 st === "?"); [|injection Hrun as <-; left; by exists st].
  apply bind_Ok in Hrun as ([] & st2' & Hpi & Hrun).
  apply bind_Ok in Hrun as ([] & st3' & Hws & Hrun).
  destruct (skipProcessingInstruction_sim _ _ _ _ Hsim Hpi) as [(st2 & Hpi' & Hsim2)|Hlate].
  - destruct (skipWhitespace_sim _ _ _ _ Hsim2 Hws) as (st3 & Hws' & Hsim3).
    unfold bind at 1. rewrite Hpi'. unfold bind at 1. rewrite Hws'.
    by apply (IH _ _ _ Hsim3 Hrun).
  - right. apply skipWhitespace_length in Hws.
    apply skipProlog_late in Hrun as ->; lia.
Qed.

Lemma document_sim fuel xmlString root st1' :
  document fuel (initial (xmlString ++ endTag)) = Ok root st1' ->
  exists st1, document (S fuel) (initial xmlString) = Ok root st1.
Proof.
  intros Hrun. unfold document in *.
  assert (Hsim : sim (initial xmlString) (initial (xmlString ++ endTag))) by done.
  apply bind_Ok in Hrun as ([] & st2' & Hws & Hrun).
  destruct (skipWhitespace_sim _ _ _ _ Hsim Hws) as (st2 & Hws' & Hsim2).
  unfold bind at 1. rewrite Hws'.
  apply bind_Ok in Hrun as ([] & st3' & Hdeclaration & Hrun).
  rewrite peek_short in Hdeclaration by (simpl; lia). injection Hdeclaration as <-.
  unfold bind at 1. rewrite peek_short by (simpl; lia).
  apply bind_Ok in Hrun as ([] & st4' & Hprolog & Hrun).
  destruct (skipProlog_sim _ _ _ _ Hsim2 Hprolog) as [(st4 & Hprolog' & Hsim4)|Hlate].
  - unfold bind at 1. rewrite Hprolog'.
    destruct (proj1 (parseElement_sim_all fuel) _ _ _ _ Hsim4 Hrun) as (st5 & Hroot & _).
    by exists st5.
  - by apply parseElement_late in Hrun.
Qed.

(** An end tag at the end of the input makes no difference: when [parse]
    returns a tree for the input followed by an end tag, it returns the
    same tree for the input. *)
Lemma parse_without_endTag xmlString root :
  parse (xmlString ++ endTag) = Some (mkParseResult (Some root) []) ->
  parse xmlString = Some (mkParseResult (Some root) []).
Proof.
  intros Hparse. unfold parse at 1, parseWith in Hparse.
  destruct (document _ _) as [root' st1'| |] eqn:Hrun; [|done..].
  injection Hparse as ->.
  destruct (document_sim _ _ _ _ Hrun) as (st1 & Hrun').
  apply (parseWith_parse _ (S (fuelFor (xmlString ++ endTag)))).
  unfold parseWith. by rewrite Hrun'.
Qed.

End EndTag.

(** The end tags of [names], one after the other. *)
Fixpoint endTags (names : list string) : string :=
  match names with
  | [] => ""
  | name :: names' => endTag name ++ endTags names'
  end.

Lemma parse_without_endTags `{Platform} names : forall xmlString root,
  forallb validName names = true ->
  parse (xmlString ++ endTags names) = Some (mkParseResult (Some root) []) ->
  parse xmlString = Some (mkParseResult (Some root) []).
Proof.
  induction names as [|name names IH]; intros xmlString root Hvalid Hparse.
  - by rewrite append_nil_r in Hparse.
  - simpl in Hvalid. apply andb_prop in Hvalid as [Hname Hnames].
    apply (parse_without_endTag name Hname). apply (IH _ _ Hnames).
    simpl in Hparse. by rewrite append_assoc.
Qed.

End EndOfInput.


(** * Properties of the validator *)

Module XmlValidatorFacts.
Import Types XmlValidator.

Lemma andThen_skip_l (o : Outcome) : (skip ;; o) = o.
Proof. by destruct o. Qed.

Lemma andThen_skip_r (o : Outcome) : (o ;; skip) = o.
Proof. destruct o; simpl; [|done]. by rewrite app_nil_r. Qed.

Lemma andThen_assoc (a b c : Outcome) : ((a ;; b) ;; c) = (a ;; b ;; c).
Proof. destruct a, b, c; simpl; try done. by rewrite app_assoc. Qed.

Lemma forEach_app {A} (body : A -> Outcome) (l1 l2 : list A) :
  forEach body (l1 ++ l2) = (forEach body l1 ;; forEach body l2).
Proof.
  induction l1 as [|x l1 IH]; [symmetry; apply andThen_skip_l|].
  change (forEach body ((x :: l1) ++ l2)) with (body x ;; forEach body (l1 ++ l2)).
  change (forEach body (x :: l1)) with (body x ;; forEach body l1).
  by rewrite IH, andThen_assoc.
Qed.

(** A loop over a filtered list is the loop over the list that skips what
    the filter drops. *)
Lemma forEach_filter {A} (keep : A -> bool) (body : A -> Outcome) (l : list A) :
  forEach body (List.filter keep l)
  = forEach (fun x => if keep x then body x else skip) l.
Proof.
  induction l as [|x l IH]; [done|].
  change (forEach _ (x :: l)) with
    ((if keep x then body x else skip) ;; forEach (fun x => if keep x then body x else skip) l).
  simpl List.filter. destruct (keep x).
  - change (forEach body (x :: List.filter keep l))
      with (body x ;; forEach body (List.filter keep l)). by rewrite IH.
  - by rewrite IH, andThen_skip_l.
Qed.

Lemma forEach_ext {A} (body body' : A -> Outcome) (l : list A) :
  (forall x, In x l -> body x = body' x) -> forEach body l = forEach body' l.
Proof.
  induction l as [|x l IH]; [done|]. intros Hext.
  change (forEach body (x :: l)) with (body x ;; forEach body l).
  change (forEach body' (x :: l)) with (body' x ;; forEach body' l).
  rewrite (Hext x) by (by left). rewrite IH; [done|]. intros; apply Hext. by right.
Qed.

Lemma forEach_skip {A} (body : A -> Outcome) (l : list A) :
  (forall x, In x l -> body x = skip) -> forEach body l = skip.
Proof.
  induction l as [|x l IH]; [done|]. intros Hs.
  change (forEach body (x :: l)) with (body x ;; forEach body l).
  rewrite (Hs x) by (by left). rewrite IH; [done|]. intros; apply Hs. by right.
Qed.

(** Induction on a node, with the property for all its children. *)
Lemma XmlNode_induction (Q : XmlNode.t -> Prop) :
  (forall name attributes children text,
     Forall Q children -> Q (XmlNode.mk name attributes children text)) ->
  forall xmlNode, Q xmlNode.
Proof.
  intros Hstep. fix IH 1. intros [name attributes children text].
  apply Hstep. induction children as [|child children IHc]; constructor; [apply IH|done].
Qed.

Section WithPlatform.
Context `{Platform}.

(** [validateElement] in the words of the source. *)
Lemma validateElement_unfold schema xmlNode xsdElement line column :
  validateElement schema xmlNode xsdElement line column
  = if XmlNode.name xmlNode !== XsdElement.name xsdElement then
      addError line column
        ("Expected element '" ++ XsdElement.name xsdElement ++ "' but found '"
         ++ XmlNode.name xmlNode ++ "'")
        "ELEMENT_MISMATCH"
    else
      validateAttributes schema xmlNode xsdElement line column ;;
      if isBuiltInType (XsdElement.type xsdElement) then
        validateSimpleContent xmlNode xsdElement line column
      else
        match lookup complexTypeField (XsdSchema.complexTypes schema)
                (XsdElement.type xsdElement) with
        | Own complexType => validateComplexContent schema xmlNode complexType line column
        | inherited =>
            if truthyFound inherited then TypeError
            else
              match lookup simpleTypeField (XsdSchema.simpleTypes schema)
                      (XsdElement.type xsdElement) with
              | Own simpleType => validateSimpleTypeContent xmlNode simpleType line column
              | inherited =>
                  if truthyFound inherited then TypeError
                  else if Js.startsWith (XsdElement.type xsdElement) "#inline-"
                  then validateInlineContent xmlNode xsdElement line column
                  else skip
              end
        end.
Proof.
  destruct xmlNode as [name attributes children text].
  unfold validateElement at 1; fold validateElement.
  destruct (_ !== _); [done|]. f_equal.
  destruct (isBuiltInType _); [done|].
  destruct (lookup complexTypeField _ _) as [complexType|member|]; [|done..].
  unfold validateComplexContent. f_equal.
  apply forEach_ext. intros particle _. unfold validateParticle. f_equal.
  unfold matchingChildrenOf, childElementsOf. simpl XmlNode.children.
  rewrite !forEach_filter. apply forEach_ext. intros child _.
  by destruct (XmlNode.name child !== "#text"), (XmlNode.name child === _).
Qed.

End WithPlatform.

End XmlValidatorFacts.

(** ** Character data and white space *)

(** [Js.code] is the code of the character. *)
Lemma code_nat_of_ascii (c : ascii) : Js.code c = nat_of_ascii c.
Proof. destruct c as [[] [] [] [] [] [] [] []]; reflexivity. Qed.

Module CharacterData.
Import XmlParser XmlParserFacts.

#[local] Arguments String.append : simpl nomatch.

(** The characters of [s] that are not white space for [trim]. *)
Fixpoint solid (s : string) : string :=
  match s with
  | "" => ""
  | String c s' => if Js.isTrimSpace c then solid s' else String c (solid s')
  end.

Lemma space_isTrimSpace c : space c = true -> Js.isTrimSpace c = true.
Proof. destruct c as [[] [] [] [] [] [] [] []]; by vm_compute. Qed.

Lemma solid_withoutSpaces s : solid (withoutSpaces s) = solid s.
Proof.
  induction s as [|c s IH]; simpl; [done|].
  destruct (space c) eqn:Hs; simpl; [|by rewrite IH].
  by rewrite (space_isTrimSpace _ Hs).
Qed.

Lemma solid_trimStart s : solid (Js.trimStart s) = solid s.
Proof.
  induction s as [|c s IH]; simpl; [done|].
  destruct (Js.isTrimSpace c) eqn:Hc; simpl; [done|by rewrite Hc].
Qed.

Lemma solid_app a b : solid (a ++ b) = solid a ++ solid b.
Proof.
  induction a as [|c a IH]; simpl; [done|].
  destruct (Js.isTrimSpace c); simpl; by rewrite IH.
Qed.

Lemma solid_rev s : solid (Js.rev s) = Js.rev (solid s).
Proof.
  induction s as [|c s IH]; simpl; [done|]. rewrite solid_app, IH. simpl.
  destruct (Js.isTrimSpace c); simpl; [by rewrite append_nil_r|done].
Qed.

Lemma rev_app a b : Js.rev (a ++ b) = Js.rev b ++ Js.rev a.
Proof.
  induction a as [|c a IH]; simpl; [by rewrite append_nil_r|].
  by rewrite IH, append_assoc.
Qed.

Lemma rev_involutive s : Js.rev (Js.rev s) = s.
Proof. induction s as [|c s IH]; simpl; [done|]. by rewrite rev_app, IH. Qed.

Lemma solid_trim s : solid (Js.trim s) = solid s.
Proof.
  unfold Js.trim.
  by rewrite solid_rev, solid_trimStart, solid_rev, rev_involutive, solid_trimStart.
Qed.

(** A string without white space is its own trimmed, space-free form. *)
Lemma solid_id s : all (fun c => negb (Js.isTrimSpace c)) s = true -> solid s = s.
Proof.
  induction s as [|c s IH]; simpl; [done|]. intros Hall.
  apply andb_prop in Hall as [Hc Hall]. apply negb_true_iff in Hc.
  by rewrite Hc, IH.
Qed.

End CharacterData.

(** * The parser: fail-fast, positions, missing end tags, character data *)

Section ParserProperties.
Import XmlParser XmlParserFacts Types.
Context `{Platform}.

(** The six violations the specification lists, one input each. *)
Lemma parse_violations :
  parse "</a>"
  = Some (mkParseResult None [ValidationError.mk 1 2 "Unexpected end tag" "PARSE_ERROR"])
  /\ parse "<a></b>"
     = Some (mkParseResult None
               [ValidationError.mk 1 7 "End tag 'b' does not match start tag 'a'"
                  "PARSE_ERROR"])
  /\ parse "<a b>"
     = Some (mkParseResult None
               [ValidationError.mk 1 5 "Expected '=' after attribute name 'b'"
                  "PARSE_ERROR"])
  /\ parse "<a b='c>"
     = Some (mkParseResult None
               [ValidationError.mk 1 9 "Unterminated attribute value" "PARSE_ERROR"])
  /\ parse "<1a>"
     = Some (mkParseResult None
               [ValidationError.mk 1 2 "Invalid name start character: '1'" "PARSE_ERROR"])
  /\ parse "<a b='&amp'>"
     = Some (mkParseResult None
               [ValidationError.mk 1 13 "Unterminated entity" "PARSE_ERROR"]).
Proof. repeat apply conj; vm_compute; reflexivity. Qed.

(** What a result of [parse] looks like: a tree and no diagnostic, or no
    tree and one diagnostic with the code PARSE_ERROR. *)
Lemma parse_result_shape xmlString result :
  parse xmlString = Some result ->
  match node result with
  | Some _ => errors result = []
  | None => exists e, errors result = [e] /\ ValidationError.code e = "PARSE_ERROR"
  end.
Proof.
  intros Hres. unfold parse, parseWith in Hres.
  destruct (document _ _) as [root st|msg st|]; [| |done];
    injection Hres as <-; simpl; [done|]. by eexists.
Qed.

(** C2. Whenever the parser throws, with whatever fuel, [parse] returns no
    tree and one diagnostic, with code PARSE_ERROR, the message thrown and
    the line and column of the cursor at the throw; a result of [parse] is a
    tree with no diagnostic or no tree with one PARSE_ERROR diagnostic; and
    [parse("<unclosed><tag>content</unclosed>")] is no tree and the one
    diagnostic of the mismatched end tag. *)
Theorem parse_fail_fast :
  (forall xmlString fuel msg st,
     document fuel (initial xmlString) = Throw msg st ->
     parse xmlString
     = Some (mkParseResult None
               [ValidationError.mk (line st) (column st) msg "PARSE_ERROR"]))
  /\ (forall xmlString result,
        parse xmlString = Some result ->
        match node result with
        | Some _ => errors result = []
        | None =>
            exists e, errors result = [e] /\ ValidationError.code e = "PARSE_ERROR"
        end)
  /\ parse "<unclosed><tag>content</unclosed>"
     = Some (mkParseResult None
               [ValidationError.mk 1 33
                  "End tag 'unclosed' does not match start tag 'tag'" "PARSE_ERROR"]).
Proof.
  split; [|split].
  - intros xmlString fuel msg st Hthrow. apply (parseWith_parse _ fuel).
    unfold parseWith. by rewrite Hthrow.
  - apply parse_result_shape.
  - vm_compute. reflexivity.
Qed.

(** C7. When [parse] fails, the cursor at the throw is where a run of
    [advance] from the start of the input leaves it, and the one diagnostic
    has as line one more than the newlines of the input consumed and as
    column one more than the characters consumed after the last of them. *)
Theorem parse_error_position (xmlString : string) (result : ParseResult) :
  parse xmlString = Some result ->
  node result = None ->
  exists msg st,
    document (fuelFor xmlString) (initial xmlString) = Throw msg st
    /\ Reach (initial xmlString) st
    /\ (exists rest, xmlString = consumed st ++ rest)
    /\ errors result
       = [ValidationError.mk (1 + newlines (consumed st)) (1 + sinceNewline (consumed st))
            msg "PARSE_ERROR"].
Proof.
  intros Hres Hnode. unfold parse, parseWith in Hres.
  destruct (document_spec xmlString) as [Hdiv|Hspec]; [by rewrite Hdiv in Hres|].
  unfold spec, total in Hspec.
  destruct (document _ _) as [root st|msg st|]; [|clear Hnode|done].
  { injection Hres as <-. done. }
  injection Hres as <-. exists msg, st.
  pose proof (tracked_Reach _ _ Hspec (tracked_initial xmlString)) as [Hline Hcol].
  pose proof (consumed_prefix st (Reach_wf _ _ Hspec (initial_wf xmlString))) as [rest Hrest].
  rewrite (Reach_xml _ _ Hspec) in Hrest.
  repeat split; [done|by exists rest|]. simpl. by rewrite Hline, Hcol.
Qed.

(** C8, as the code has it. At the end of the input [parseEndTag] checks
    nothing and returns. So end tags that are missing at the end of the
    input make no difference: whenever [parse] returns a tree for an input
    followed by the end tags of any names, one after the other, it returns
    the same tree, and no diagnostic, for the input itself. An element of
    character data that is never closed parses to its node with no
    diagnostic, as do ["<a>text"], ["<a><b/>"] and ["<a><b>text"]; an end
    tag that is there and names another element fails the parse. *)
Theorem missing_end_tag_accepted :
  (forall fuel expectedName st,
     inBounds st = false -> parseEndTag fuel expectedName st = Ok tt st)
  /\ (forall names xmlString root,
        forallb validName names = true ->
        parse (xmlString ++ EndOfInput.endTags names)
        = Some (mkParseResult (Some root) []) ->
        parse xmlString = Some (mkParseResult (Some root) []))
  /\ (forall name text,
        validName name = true -> all notMarkup text = true ->
        parse ("<" ++ name ++ ">" ++ text)
        = Some (mkParseResult
                  (Some (buildElementNode name [] [] (withoutSpaces text))) []))
  /\ parse "<a>text" = Some (mkParseResult (Some (XmlNode.mk "a" [] [] (Some "text"))) [])
  /\ parse "<a><b/>"
     = Some (mkParseResult (Some (XmlNode.mk "a" [] [XmlNode.mk "b" [] [] None] None)) [])
  /\ parse "<a><b>text"
     = Some (mkParseResult
               (Some (XmlNode.mk "a" [] [XmlNode.mk "b" [] [] (Some "text")] None)) [])
  /\ parse "<a>text</b>"
     = Some (mkParseResult None
               [ValidationError.mk 1 11 "End tag 'b' does not match start tag 'a'"
                  "PARSE_ERROR"]).
Proof.
  repeat apply conj.
  - apply parseEndTag_end.
  - intros names xmlString root. apply EndOfInput.parse_without_endTags.
  - intros name text Hvalid Hall.
    pose proof (parse_text name text "" Hvalid Hall (or_introl eq_refl)) as Hp.
    by rewrite append_nil_r in Hp.
  - vm_compute. reflexivity.
  - vm_compute. reflexivity.
  - vm_compute. reflexivity.
  - vm_compute. reflexivity.
Qed.

(** C9, at an input where the code does otherwise. No entity is decoded in
    character data: ["<a>&amp;</a>"] has the text ["&amp;"], while the same
    reference in an attribute value is decoded. But the data is not kept as
    it stands: the content loop skips white space on every turn, so that of
    an element holding character data only, the text field is absent when
    the data is white space, and otherwise holds the characters of the data
    that are not white space, in their order; of
    ["<title>The Great Gatsby</title>"] the text is ["TheGreatGatsby"]. *)
Theorem character_data_not_decoded :
  (forall name text,
     validName name = true -> all notMarkup text = true ->
     exists root,
       parse ("<" ++ name ++ ">" ++ text ++ "</" ++ name ++ ">")
       = Some (mkParseResult (Some root) [])
       /\ match XmlNode.text root with
          | Some kept => CharacterData.solid kept = CharacterData.solid text
          | None => CharacterData.solid text = ""
          end)
  /\ parse "<a>&amp;</a>" = Some (mkParseResult (Some (XmlNode.mk "a" [] [] (Some "&amp;"))) [])
  /\ parse "<a x='&amp;'>&amp;</a>"
     = Some (mkParseResult (Some (XmlNode.mk "a" [("x", "&")] [] (Some "&amp;"))) [])
  /\ parse "<title>The Great Gatsby</title>"
     = Some (mkParseResult (Some (XmlNode.mk "title" [] [] (Some "TheGreatGatsby"))) []).
Proof.
  repeat apply conj; [|vm_compute; reflexivity..].
  intros name text Hvalid Hall. eexists. split.
  - apply (parse_text name text ("</" ++ name ++ ">" ++ "") Hvalid Hall).
    right. by exists "".
  - unfold buildElementNode. simpl length. simpl Nat.eqb. rewrite andb_true_r.
    destruct (Js.truthy (Js.trim (withoutSpaces text))) eqn:Ht; simpl.
    + by rewrite CharacterData.solid_trim, CharacterData.solid_withoutSpaces.
    + unfold Js.truthy in Ht. apply negb_false_iff, String.eqb_eq in Ht.
      rewrite <- CharacterData.solid_withoutSpaces, <- CharacterData.solid_trim. by rewrite Ht.
Qed.

End ParserProperties.

Lemma parse_fail_fast_witness :
  XmlParser.document (H := Fragment.platform) 9 (XmlParser.initial "<a b>")
  = XmlParser.Throw "Expected '=' after attribute name 'b'"
      (XmlParser.mkState "<a b>" 4 1 5)
  /\ XmlParser.parse (H := Fragment.platform) "<a b>"
     = Some (XmlParser.mkParseResult None
               [Types.ValidationError.mk 1 5 "Expected '=' after attribute name 'b'"
                  "PARSE_ERROR"]).
Proof.
  split; [vm_compute; reflexivity|].
  apply (proj1 (parse_fail_fast (H := Fragment.platform)) "<a b>" 9
           "Expected '=' after attribute name 'b'" (XmlParser.mkState "<a b>" 4 1 5)).
  vm_compute. reflexivity.
Defined.

Lemma parse_error_position_witness :
  XmlParser.parse (H := Fragment.platform) "<a>
<b c></b></a>"
  = Some (XmlParser.mkParseResult None
            [Types.ValidationError.mk 2 5 "Expected '=' after attribute name 'c'"
               "PARSE_ERROR"])
  /\ exists msg st,
       XmlParser.document (H := Fragment.platform) (XmlParser.fuelFor "<a>
<b c></b></a>") (XmlParser.initial "<a>
<b c></b></a>") = XmlParser.Throw msg st
       /\ XmlParserFacts.Reach (XmlParser.initial "<a>
<b c></b></a>") st
       /\ (exists rest, "<a>
<b c></b></a>" = XmlParserFacts.consumed st ++ rest)
       /\ [Types.ValidationError.mk 2 5 "Expected '=' after attribute name 'c'" "PARSE_ERROR"]
          = [Types.ValidationError.mk (1 + XmlParserFacts.newlines (XmlParserFacts.consumed st))
               (1 + XmlParserFacts.sinceNewline (XmlParserFacts.consumed st))
               msg "PARSE_ERROR"].
Proof.
  split; [vm_compute; reflexivity|].
  apply (parse_error_position (H := Fragment.platform) "<a>
<b c></b></a>"
           (XmlParser.mkParseResult None
              [Types.ValidationError.mk 2 5 "Expected '=' after attribute name 'c'"
                 "PARSE_ERROR"])); [vm_compute|]; reflexivity.
Defined.

(** C8, where the claim fails: an input that ends in a tag, before the
    [>] of an end tag, after the [<] of a start tag or in a start tag, ends
    before an end tag is found and is refused, with no end tag that names
    another element. *)
Lemma unfinished_tag_rejected :
  XmlParser.parse (H := Fragment.platform) "<a>text</a"
  = Some (XmlParser.mkParseResult None
            [Types.ValidationError.mk 1 11 "Expected '>' in end tag" "PARSE_ERROR"])
  /\ XmlParser.parse (H := Fragment.platform) "<a>text<"
     = Some (XmlParser.mkParseResult None
               [Types.ValidationError.mk 1 9 "Invalid name start character: ''"
                  "PARSE_ERROR"])
  /\ XmlParser.parse (H := Fragment.platform) "<a"
     = Some (XmlParser.mkParseResult None
               [Types.ValidationError.mk 1 3 "Expected '>' but found ''" "PARSE_ERROR"]).
Proof. repeat split; vm_compute; reflexivity. Qed.

Lemma missing_end_tag_accepted_witness :
  forallb XmlParserFacts.validName ["item"; "list"] = true
  /\ XmlParser.parse (H := Fragment.platform)
       ("<list id='1'><item>one</item> <item>two"
        ++ EndOfInput.endTags ["item"; "list"])
     = Some (XmlParser.mkParseResult
               (Some (Types.XmlNode.mk "list" [("id", "1")]
                        [Types.XmlNode.mk "item" [] [] (Some "one");
                         Types.XmlNode.mk "item" [] [] (Some "two")]
                        None))
               [])
  /\ XmlParser.parse (H := Fragment.platform) "<list id='1'><item>one</item> <item>two"
     = Some (XmlParser.mkParseResult
               (Some (Types.XmlNode.mk "list" [("id", "1")]
                        [Types.XmlNode.mk "item" [] [] (Some "one");
                         Types.XmlNode.mk "item" [] [] (Some "two")]
                        None))
               []).
Proof.
  split; [reflexivity|]. split; [vm_compute; reflexivity|].
  apply (proj1 (proj2 (missing_end_tag_accepted (H := Fragment.platform)))
           ["item"; "list"] "<list id='1'><item>one</item> <item>two");
    [reflexivity|vm_compute; reflexivity].
Defined.

(** * The validator: exceptions and patterns *)

Section PatternProperties.
Import Types XmlValidator XmlValidatorFacts.

(** What a [pattern] facet does on any platform: the constructor throws,
    or [test] decides. *)
Lemma validateRestriction_pattern `{Platform} value line column elementName facet :
  validateRestriction value line column elementName (XsdRestriction.mk "pattern" facet)
  = match RegExp (StringOf facet) with
    | None =>
        Thrown ("SyntaxError: Invalid regular expression: /" ++ StringOf facet ++ "/")
    | Some regex =>
        when (negb (test regex value))
          (addError line column
             (("Value '" ++ value ++ "' in element '" ++ elementName ++ "'")
              ++ " does not match pattern '" ++ StringOf facet ++ "'")
             "PATTERN_VIOLATION")
    end.
Proof. reflexivity. Qed.

(** A schema with a pattern facet that is not a regular expression, and a
    document of it. *)
Definition unbalancedXsd : string :=
  "<xs:schema xmlns:xs='http://www.w3.org/2001/XMLSchema'>
     <xs:element name='code' type='Code'/>
     <xs:simpleType name='Code'>
       <xs:restriction base='string'><xs:pattern value='('/></xs:restriction>
     </xs:simpleType>
   </xs:schema>".

Definition unbalancedSchema : XsdSchema.t (H := Fragment.integers) :=
  XsdSchema.mk None
    {[ "code" := XsdElement.mk "code" "Code" (Some 1%Z) (Bounded (Some 1%Z)) [] [] None ]}
    ∅
    {[ "Code" := XsdSimpleType.mk "Code" "string"
                   [XsdRestriction.mk "pattern" (XsdRestriction.VString "(")] ]}
    {[ "xs" := "http://www.w3.org/2001/XMLSchema" ]}.

(** C1, at an input where the code does otherwise. The schema builder
    accepts [unbalancedXsd], the parser accepts ["<code>x</code>"], and
    [validate] returns no list: the SyntaxError of [new RegExp("(")]
    escapes it. *)
Theorem validate_throws :
  XsdParser.parseSchema (H := Fragment.platform) unbalancedXsd
  = Some (XsdParser.mkSchemaResult (Some unbalancedSchema) [])
  /\ XmlParser.parse (H := Fragment.platform) "<code>x</code>"
     = Some (XmlParser.mkParseResult (Some (XmlNode.mk "code" [] [] (Some "x"))) [])
  /\ validate (H := Fragment.platform) unbalancedSchema (XmlNode.mk "code" [] [] (Some "x"))
     = Thrown "SyntaxError: Invalid regular expression: /(/".
Proof. repeat apply conj; vm_compute; reflexivity. Qed.

Definition isbnFacet : XsdRestriction.t (H := Fragment.integers) :=
  XsdRestriction.mk "pattern" (XsdRestriction.VString "[0-9]{3}-[0-9]{10}").

(** The two texts of the specification against the ISBN pattern. *)
Lemma isbn_examples :
  validateRestrictions (H := Fragment.platform) "invalid-isbn" [isbnFacet] 1 1 "isbn"
  = Done [ValidationError.mk 1 1
            "Value 'invalid-isbn' in element 'isbn' does not match pattern '[0-9]{3}-[0-9]{10}'"
            "PATTERN_VIOLATION"]
  /\ validateRestrictions (H := Fragment.platform) "978-0142437171" [isbnFacet] 1 1 "isbn"
     = Done [].
Proof. split; vm_compute; reflexivity. Qed.

(** C4, at an input where the code does otherwise. The ISBN pattern
    compiles; the value ["x978-0142437171y"] is not in its language, it only
    contains a word of it; and no PATTERN_VIOLATION is pushed, because
    [test] looks for a match anywhere in the value. *)
Theorem pattern_violation_missed :
  exists regex,
    Fragment.compile "[0-9]{3}-[0-9]{10}" = Some regex
    /\ Fragment.anchoredStart regex = false
    /\ Fragment.anchoredEnd regex = false
    /\ Regex.fullMatch (Fragment.body regex) "x978-0142437171y" = false
    /\ Regex.fullMatch (Fragment.body regex) "978-0142437171" = true
    /\ validateRestrictions (H := Fragment.platform) "x978-0142437171y" [isbnFacet] 1 1 "isbn"
       = Done [].
Proof.
  eexists. split; [vm_compute; reflexivity|].
  repeat apply conj; vm_compute; reflexivity.
Qed.

End PatternProperties.

(** * Qualified names *)

Module QualifiedNames.
Import XmlParserFacts CharacterData.

#[local] Arguments String.append : simpl nomatch.

(** The number of colons of a name. *)
Fixpoint colons (s : string) : nat :=
  match s with
  | "" => 0
  | String c s' => (if Ascii.eqb c ":" then 1 else 0) + colons s'
  end.

Lemma colons_app a b : colons (a ++ b) = colons a + colons b.
Proof. induction a as [|c a IH]; simpl; [done|]. rewrite IH. lia. Qed.

Lemma prefix_app p s : String.prefix p s = true <-> exists t, s = p ++ t.
Proof.
  revert s. induction p as [|c p IH]; intros s.
  - split; [by exists s|by destruct s].
  - destruct s as [|d s]; [split; [done|by intros [t Ht]]|].
    change (String.prefix (String c p) (String d s))
      with (if ascii_dec c d then String.prefix p s else false).
    destruct (ascii_dec c d) as [->|Hne].
    + rewrite IH. split; intros [t Ht]; exists t; simpl in *; congruence.
    + split; [done|]. intros [t Ht]. simpl in Ht. congruence.
Qed.

Lemma endsWith_app s p : Js.endsWith s p = true <-> exists a, s = a ++ p.
Proof.
  unfold Js.endsWith. rewrite prefix_app. split.
  - intros [t Ht]. exists (Js.rev t).
    by rewrite <- (rev_involutive s), Ht, rev_app, rev_involutive.
  - intros [a ->]. exists (Js.rev a). apply rev_app.
Qed.

(** A name is split at its first colon. *)
Lemma indexOf_colon s :
  match Js.indexOf ":" s with
  | None => colons s = 0
  | Some colonIndex =>
      exists prefix, s = prefix ++ String ":" (Js.substringFrom (colonIndex + 1) s)
                     /\ colons prefix = 0
  end.
Proof.
  induction s as [|c s IH]; simpl; [done|].
  destruct (Ascii.eqb_spec c ":") as [->|Hne].
  - exists "". by destruct s.
  - destruct (Js.indexOf ":" s) as [colonIndex|]; simpl; [|done].
    destruct IH as (prefix & Hs & Hnone). exists (String c prefix).
    simpl. rewrite <- Hs. split; [done|].
    destruct (Ascii.eqb_spec c ":"); done.
Qed.

Lemma first_colon_unique a b x y :
  colons a = 0 -> colons b = 0 ->
  a ++ String ":" x = b ++ String ":" y -> a = b /\ x = y.
Proof.
  revert b. induction a as [|c a IH]; intros [|d b]; simpl; intros Ha Hb Heq.
  - by injection Heq.
  - injection Heq as <- _. done.
  - injection Heq as -> _. done.
  - injection Heq as -> Heq. destruct (Ascii.eqb d ":"); [done|].
    destruct (IH b Ha Hb Heq) as [-> ->]. done.
Qed.

(** On a name with one colon at most, to be [schema] or to end in [:schema]
    is to have the local name [schema]. *)
Lemma schema_root_localName name :
  colons name <= 1 ->
  ((name === "schema") || Js.endsWith name ":schema")
  = (XsdParser.getLocalName name === "schema").
Proof.
  intros Hcolons. unfold XsdParser.getLocalName.
  pose proof (indexOf_colon name) as Hsplit.
  destruct (Js.indexOf ":" name) as [colonIndex|].
  - destruct Hsplit as (prefix & Hname & Hnone).
    remember (Js.substringFrom (colonIndex + 1) name) as localName eqn:Hl. clear Hl.
    assert (Hlocal : colons localName = 0).
    { rewrite Hname, colons_app in Hcolons. simpl in Hcolons. lia. }
    replace (name === "schema") with false
      by (symmetry; apply String.eqb_neq; intros Hschema; rewrite Hschema in Hname;
          apply (f_equal colons) in Hname; rewrite colons_app in Hname; simpl in Hname; lia).
    simpl. apply eq_true_iff_eq. rewrite endsWith_app, String.eqb_eq. split.
    + intros [a Ha]. rewrite Hname in Ha.
      assert (Hzero : colons a = 0).
      { apply (f_equal colons) in Ha. rewrite !colons_app in Ha. simpl in Ha. lia. }
      by destruct (first_colon_unique _ _ _ _ Hnone Hzero Ha).
    + intros Hschema. exists prefix. by rewrite Hname at 1; rewrite Hschema.
  - destruct (name === "schema"); [done|]. simpl.
    apply not_true_is_false. rewrite endsWith_app. intros [a ->].
    rewrite colons_app in Hsplit. simpl in Hsplit. lia.
Qed.

End QualifiedNames.

(** * The schema builder: what [parseSchema] returns *)

Section SchemaProperties.
Import Types XmlParser XsdParser.
Context `{Platform}.

(** The test [buildSchema] makes on the name of the root. *)
Definition isSchemaRoot (name : string) : bool :=
  (name === "schema") || Js.endsWith name ":schema".

Lemma buildSchema_throws schemaNode :
  isSchemaRoot (XmlNode.name schemaNode) = false ->
  buildSchema schemaNode = inr "Root element must be schema".
Proof.
  unfold isSchemaRoot, buildSchema. intros Hroot.
  apply orb_false_elim in Hroot as [-> ->]. done.
Qed.

Lemma buildSchema_returns schemaNode :
  isSchemaRoot (XmlNode.name schemaNode) = true ->
  exists schema, buildSchema schemaNode = inl schema.
Proof.
  unfold isSchemaRoot, buildSchema. intros Hroot.
  destruct (XmlNode.name schemaNode === "schema"); simpl in *; [by eexists|].
  rewrite Hroot. by eexists.
Qed.

(** C6, as the code has it. [parseSchema] returns when [parse] does. What
    [parse] reports, or its lack of a tree, is returned as it is with no
    schema. Given a tree and no diagnostic: a root whose name is neither
    [schema] nor ends in [:schema], and any exception of [buildSchema],
    give no schema and the one diagnostic SCHEMA_ERROR at (1,1); otherwise
    the schema built is returned with no diagnostic. A result never holds
    both a schema and a diagnostic. On a root name with one colon at most
    the test on the name is the test that its local name is [schema]. *)
Theorem parseSchema_outcomes :
  (forall xsdString node errors,
     parse xsdString = Some (mkParseResult node errors) ->
     errors <> [] \/ node = None ->
     parseSchema xsdString = Some (mkSchemaResult None errors))
  /\ (forall xsdString root,
        parse xsdString = Some (mkParseResult (Some root) []) ->
        isSchemaRoot (XmlNode.name root) = false ->
        parseSchema xsdString
        = Some (mkSchemaResult None
                  [ValidationError.mk 1 1 "Root element must be schema" "SCHEMA_ERROR"]))
  /\ (forall xsdString root msg,
        parse xsdString = Some (mkParseResult (Some root) []) ->
        buildSchema root = inr msg ->
        parseSchema xsdString
        = Some (mkSchemaResult None [ValidationError.mk 1 1 msg "SCHEMA_ERROR"]))
  /\ (forall xsdString root,
        parse xsdString = Some (mkParseResult (Some root) []) ->
        isSchemaRoot (XmlNode.name root) = true ->
        exists schema,
          buildSchema root = inl schema
          /\ parseSchema xsdString = Some (mkSchemaResult (Some schema) []))
  /\ (forall xsdString, parse xsdString = None <-> parseSchema xsdString = None)
  /\ (forall xsdString result,
        parseSchema xsdString = Some result ->
        match schema result with
        | Some _ => XsdParser.errors result = []
        | None => XsdParser.errors result <> []
        end)
  /\ (forall name,
        QualifiedNames.colons name <= 1 ->
        isSchemaRoot name = (getLocalName name === "schema")).
Proof.
  unfold parseSchema, parseSchemaWith, parse.
  repeat apply conj; [..|apply QualifiedNames.schema_root_localName].
  - intros xsdString node errors -> Hfail.
    destruct node as [root|]; [|done].
    destruct Hfail as [Herr|]; [|done]. by destruct errors.
  - intros xsdString root -> Hroot. simpl. by rewrite (buildSchema_throws _ Hroot).
  - intros xsdString root msg -> Hthrow. simpl. by rewrite Hthrow.
  - intros xsdString root -> Hroot. simpl.
    destruct (buildSchema_returns _ Hroot) as [schema Hbuild].
    exists schema. by rewrite Hbuild.
  - intros xsdString. destruct (parseWith _ _) as [[[root|] errors]|]; [|done..].
    destruct (0 <? length errors); [done|]. by destruct (buildSchema root).
  - intros xsdString result.
    destruct (parseWith _ _) as [[[root|] errors]|] eqn:Hparse; [| |done].
    + destruct (0 <? length errors) eqn:Hlen.
      * intros [= <-]. simpl. by destruct errors.
      * destruct errors; [|done]. destruct (buildSchema root); by intros [= <-].
    + intros [= <-]. simpl.
      pose proof (parse_result_shape xsdString _ Hparse) as Hff.
      simpl in Hff. destruct Hff as (e & -> & _). done.
Qed.

End SchemaProperties.

(** C6, where the claim fails: the root [a:b:schema] has the local name
    [b:schema], and a schema is returned without a diagnostic. *)
Lemma schema_root_with_two_colons :
  XsdParser.getLocalName "a:b:schema" = "b:schema"
  /\ XsdParser.parseSchema (H := Fragment.platform) "<a:b:schema/>"
     = Some (XsdParser.mkSchemaResult
               (Some (Types.XsdSchema.mk None ∅ ∅ ∅ ∅)) []).
Proof. split; vm_compute; reflexivity. Qed.

Lemma parseSchema_outcomes_witness :
  XmlParser.parse (H := Fragment.platform) "<a/>"
  = Some (XmlParser.mkParseResult (Some (Types.XmlNode.mk "a" [] [] None)) [])
  /\ isSchemaRoot "a" = false
  /\ XsdParser.parseSchema (H := Fragment.platform) "<a/>"
     = Some (XsdParser.mkSchemaResult None
               [Types.ValidationError.mk 1 1 "Root element must be schema" "SCHEMA_ERROR"]).
Proof.
  split; [vm_compute; reflexivity|]. split; [reflexivity|].
  apply (proj1 (proj2 (parseSchema_outcomes (H := Fragment.platform)))
           "<a/>" (Types.XmlNode.mk "a" [] [] None)); [vm_compute|]; reflexivity.
Defined.

(** * The validator: the name-mismatch branch *)

Section MismatchProperties.
Import Types XmlValidator XmlValidatorFacts.
Context `{Platform}.























End MismatchProperties.


Definition noteSchema : Types.XsdSchema.t (H := Fragment.integers) :=
  Types.XsdSchema.mk None
    {[ "note" := Types.XsdElement.mk "note" "int" (Some 1%Z) (Types.Bounded (Some 1%Z))
                   [] [] None ]}
    ∅ ∅ {[ "xs" := "http://www.w3.org/2001/XMLSchema" ]}.




(** * The validator: occurrence bounds *)

Section OccurrenceProperties.
Import Types XmlValidator XmlValidatorFacts.
Context `{Platform}.

Definition minOccursError (line column : nat) (name : string) (count : nat)
    (minOccurs : option Z) : ValidationError.t :=
  ValidationError.mk line column
    ("Element '" ++ name ++ "' occurs " ++ showNat count ++ " times but minimum is "
     ++ showInt minOccurs)
    "MIN_OCCURS_VIOLATION".

Definition maxOccursError (line column : nat) (name : string) (count : nat)
    (maxOccurs : option Z) : ValidationError.t :=
  ValidationError.mk line column
    ("Element '" ++ name ++ "' occurs " ++ showNat count ++ " times but maximum is "
     ++ showInt maxOccurs)
    "MAX_OCCURS_VIOLATION".

Lemma andThen_Done a b pushed :
  (a ;; b) = Done pushed ->
  exists first second, a = Done first /\ b = Done second /\ pushed = (first ++ second)%list.
Proof.
  destruct a as [first|]; [|done]. destruct b as [second|]; [|done].
  intros [= <-]. by exists first, second.
Qed.

Lemma checkOccurs_pushes matchingChildren xsdElement line column :
  checkOccurs matchingChildren xsdElement line column
  = Done
      ((if countLt (length matchingChildren) (XsdElement.minOccurs xsdElement)
        then [minOccursError line column (XsdElement.name xsdElement)
                (length matchingChildren) (XsdElement.minOccurs xsdElement)]
        else [])
       ++ match XsdElement.maxOccurs xsdElement with
          | Unbounded => []
          | Bounded maxOccurs =>
              if countGt (length matchingChildren) maxOccurs
              then [maxOccursError line column (XsdElement.name xsdElement)
                      (length matchingChildren) maxOccurs]
              else []
          end)%list.
Proof.
  unfold checkOccurs.
  destruct (countLt _ _); destruct (XsdElement.maxOccurs xsdElement) as [|maxOccurs];
    try destruct (countGt _ _); reflexivity.
Qed.

Lemma validateParticle_absent schema childElements particle line column :
  XsdElement.minOccurs particle = Some 1%Z ->
  XsdElement.maxOccurs particle = Unbounded ->
  matchingChildrenOf childElements particle = [] ->
  validateParticle schema childElements line column particle
  = Done [minOccursError line column (XsdElement.name particle) 0 (Some 1%Z)].
Proof.
  intros Hmin Hmax Hnone. unfold validateParticle. rewrite Hnone, checkOccurs_pushes.
  by rewrite Hmin, Hmax.
Qed.

(** C3, as the code has it. The two occurrence checks on a particle push
    MIN_OCCURS_VIOLATION exactly when the count of the children of its name
    is below [minOccurs], and MAX_OCCURS_VIOLATION exactly when [maxOccurs]
    is a number and the count is above it. For a particle with minOccurs 1
    and maxOccurs unbounded and no child of its name, the step of the
    particle pushes one diagnostic, MIN_OCCURS_VIOLATION with the name of
    the particle and the count 0; the list [validateComplexContent] returns
    holds it; and it is the whole list when the type has this one particle
    and the element no child element. *)
Theorem occurrence_checks :
  (forall matchingChildren xsdElement line column,
     checkOccurs matchingChildren xsdElement line column
     = Done
         ((if countLt (length matchingChildren) (XsdElement.minOccurs xsdElement)
           then [minOccursError line column (XsdElement.name xsdElement)
                   (length matchingChildren) (XsdElement.minOccurs xsdElement)]
           else [])
          ++ match XsdElement.maxOccurs xsdElement with
             | Unbounded => []
             | Bounded maxOccurs =>
                 if countGt (length matchingChildren) maxOccurs
                 then [maxOccursError line column (XsdElement.name xsdElement)
                         (length matchingChildren) maxOccurs]
                 else []
             end)%list)
  /\ (forall schema childElements particle line column,
        XsdElement.minOccurs particle = Some 1%Z ->
        XsdElement.maxOccurs particle = Unbounded ->
        matchingChildrenOf childElements particle = [] ->
        validateParticle schema childElements line column particle
        = Done [minOccursError line column (XsdElement.name particle) 0 (Some 1%Z)])
  /\ (forall schema xmlNode complexType line column before particle after pushed,
        XsdComplexType.elements complexType = (before ++ particle :: after)%list ->
        XsdElement.minOccurs particle = Some 1%Z ->
        XsdElement.maxOccurs particle = Unbounded ->
        matchingChildrenOf (childElementsOf xmlNode) particle = [] ->
        validateComplexContent schema xmlNode complexType line column = Done pushed ->
        exists earlier later,
          pushed
          = (earlier
             ++ minOccursError line column (XsdElement.name particle) 0 (Some 1%Z)
                :: later)%list)
  /\ (forall schema xmlNode complexType line column particle,
        XsdComplexType.elements complexType = [particle] ->
        XsdElement.minOccurs particle = Some 1%Z ->
        XsdElement.maxOccurs particle = Unbounded ->
        childElementsOf xmlNode = [] ->
        validateComplexContent schema xmlNode complexType line column
        = Done [minOccursError line column (XsdElement.name particle) 0 (Some 1%Z)])
  /\ minOccursError 1 1 "book" 0 (Some 1%Z)
     = ValidationError.mk 1 1 "Element 'book' occurs 0 times but minimum is 1"
         "MIN_OCCURS_VIOLATION".
Proof.
  repeat apply conj.
  - apply checkOccurs_pushes.
  - apply validateParticle_absent.
  - intros schema xmlNode complexType line column before particle after pushed
      Helems Hmin Hmax Hnone Hdone.
    unfold validateComplexContent in Hdone. rewrite Helems, forEach_app in Hdone.
    change (forEach ?body (particle :: after))
      with (body particle ;; forEach body after) in Hdone.
    rewrite (validateParticle_absent _ _ _ _ _ Hmin Hmax Hnone) in Hdone.
    apply andThen_Done in Hdone as (loops & unexpected & Hloops & _ & ->).
    apply andThen_Done in Hloops as (earlier & rest & _ & Hrest & ->).
    apply andThen_Done in Hrest as (one & later & Hone & _ & ->).
    injection Hone as <-. exists earlier, (later ++ unexpected)%list.
    by rewrite <- app_assoc.
  - intros schema xmlNode complexType line column particle Helems Hmin Hmax Hnone.
    unfold validateComplexContent. rewrite Helems, Hnone.
    change (forEach ?body [particle]) with (body particle ;; skip).
    by rewrite (validateParticle_absent _ _ _ _ _ Hmin Hmax).
  - vm_compute. reflexivity.
Qed.

End OccurrenceProperties.

(** A type with two particles of one name, as the builder makes it, and a
    document of it. *)
Definition repeatedXsd : string :=
  "<xs:schema xmlns:xs='http://www.w3.org/2001/XMLSchema'>
     <xs:element name='list' type='ListType'/>
     <xs:complexType name='ListType'>
       <xs:sequence>
         <xs:element name='item' maxOccurs='unbounded'/>
         <xs:element name='sep' minOccurs='0'/>
         <xs:element name='item' maxOccurs='unbounded'/>
       </xs:sequence>
     </xs:complexType>
   </xs:schema>".

Definition repeatedSchema : Types.XsdSchema.t (H := Fragment.integers) :=
  let item :=
    Types.XsdElement.mk (H := Fragment.integers) "item" "string" (Some 1%Z) Types.Unbounded
      [] [] None in
  let sep :=
    Types.XsdElement.mk (H := Fragment.integers) "sep" "string" (Some 0%Z)
      (Types.Bounded (Some 1%Z)) [] [] None in
  Types.XsdSchema.mk None
    {[ "list" := Types.XsdElement.mk "list" "ListType" (Some 1%Z)
                   (Types.Bounded (Some 1%Z)) [] [] None ]}
    {[ "ListType" := Types.XsdComplexType.mk "ListType" [item; sep; item] [] ]}
    ∅
    {[ "xs" := "http://www.w3.org/2001/XMLSchema" ]}.

(** C3, where the claim fails: the type has the particle [item] twice, the
    element no [item], and [validate] returns the diagnostic twice. *)
Lemma min_occurs_reported_twice :
  XsdParser.parseSchema (H := Fragment.platform) repeatedXsd
  = Some (XsdParser.mkSchemaResult (Some repeatedSchema) [])
  /\ XmlParser.parse (H := Fragment.platform) "<list/>"
     = Some (XmlParser.mkParseResult (Some (Types.XmlNode.mk "list" [] [] None)) [])
  /\ XmlValidator.validate (H := Fragment.platform) repeatedSchema
       (Types.XmlNode.mk "list" [] [] None)
     = XmlValidator.Done
         [Types.ValidationError.mk 1 1 "Element 'item' occurs 0 times but minimum is 1"
            "MIN_OCCURS_VIOLATION";
          Types.ValidationError.mk 1 1 "Element 'item' occurs 0 times but minimum is 1"
            "MIN_OCCURS_VIOLATION"].
Proof. repeat apply conj; vm_compute; reflexivity. Qed.

Lemma occurrence_checks_witness :
  Types.XsdElement.minOccurs (H := Fragment.integers)
    (Types.XsdElement.mk "item" "string" (Some 1%Z) Types.Unbounded [] [] None) = Some 1%Z
  /\ Types.XsdElement.maxOccurs (H := Fragment.integers)
       (Types.XsdElement.mk "item" "string" (Some 1%Z) Types.Unbounded [] [] None)
     = Types.Unbounded
  /\ XmlValidator.matchingChildrenOf (H := Fragment.platform)
       [Types.XmlNode.mk "sep" [] [] None]
       (Types.XsdElement.mk "item" "string" (Some 1%Z) Types.Unbounded [] [] None) = []
  /\ XmlValidator.validateParticle (H := Fragment.platform) repeatedSchema
       [Types.XmlNode.mk "sep" [] [] None] 1 1
       (Types.XsdElement.mk "item" "string" (Some 1%Z) Types.Unbounded [] [] None)
     = XmlValidator.Done [minOccursError 1 1 "item" 0 (Some 1%Z)].
Proof.
  repeat apply conj; [reflexivity..|].
  apply (proj1 (proj2 (occurrence_checks (H := Fragment.platform)))); reflexivity.
Defined.

(** The bounds are Numbers: a [minOccurs] written with more digits than a
    double holds is compared and shown as the double nearest to it. *)
Lemma occurrence_bound_rounded :
  ParseInt.parseInt "9007199254740993" None = Some 9007199254740993%Z
  /\ XmlValidator.validateParticle (H := Fragment.platform) repeatedSchema [] 1 1
       (Types.XsdElement.mk "item" "string" (Some 9007199254740993%Z) Types.Unbounded
          [] [] None)
     = XmlValidator.Done
         [Types.ValidationError.mk 1 1
            "Element 'item' occurs 0 times but minimum is 9007199254740992"
            "MIN_OCCURS_VIOLATION"].
Proof. split; vm_compute; reflexivity. Qed.

(** * The validator: required attributes *)

(** The double quote is written ['] in the texts below. *)
Fixpoint doubleQuoted (s : string) : string :=
  match s with
  | "" => ""
  | String c s' => String (if Ascii.eqb c "'" then Js.QUOTE else c) (doubleQuoted s')
  end.

(** The schema and the two documents of [src/test.ts]: a root [library]
    of repeated [book] elements whose type requires the attribute [id], a
    document that conforms and one whose book has no [id]. *)
Definition sampleXsdSchema : string := doubleQuoted
  "<?xml version='1.0' encoding='UTF-8'?>
<xs:schema xmlns:xs='http://www.w3.org/2001/XMLSchema'
           targetNamespace='http://example.com/book'
           xmlns:tns='http://example.com/book'
           elementFormDefault='qualified'>

  <xs:element name='library'>
    <xs:complexType>
      <xs:sequence>
        <xs:element name='book' type='tns:BookType' minOccurs='1' maxOccurs='unbounded'/>
      </xs:sequence>
    </xs:complexType>
  </xs:element>

  <xs:complexType name='BookType'>
    <xs:sequence>
      <xs:element name='title' type='xs:string'/>
      <xs:element name='author' type='xs:string'/>
      <xs:element name='isbn' type='tns:ISBNType'/>
      <xs:element name='price' type='xs:decimal'/>
      <xs:element name='publishDate' type='xs:date'/>
    </xs:sequence>
    <xs:attribute name='id' type='xs:string' use='required'/>
  </xs:complexType>

  <xs:simpleType name='ISBNType'>
    <xs:restriction base='xs:string'>
      <xs:pattern value='[0-9]{3}-[0-9]{10}'/>
    </xs:restriction>
  </xs:simpleType>

</xs:schema>".

Definition validXml : string := doubleQuoted
  "<?xml version='1.0' encoding='UTF-8'?>
<library xmlns='http://example.com/book'>
  <book id='b001'>
    <title>The Great Gatsby</title>
    <author>F. Scott Fitzgerald</author>
    <isbn>978-0142437171</isbn>
    <price>12.99</price>
    <publishDate>2004-09-30</publishDate>
  </book>
  <book id='b002'>
    <title>To Kill a Mockingbird</title>
    <author>Harper Lee</author>
    <isbn>978-0061120084</isbn>
    <price>14.99</price>
    <publishDate>2006-05-23</publishDate>
  </book>
</library>".

Definition invalidXml : string := doubleQuoted
  "<?xml version='1.0' encoding='UTF-8'?>
<library xmlns='http://example.com/book'>
  <book>
    <title>Invalid Book</title>
    <author>Unknown Author</author>
    <isbn>invalid-isbn</isbn>
    <price>not-a-number</price>
    <publishDate>invalid-date</publishDate>
  </book>
</library>".

(** What the builder makes of the schema: the definition of [library],
    which has an inline complex type, gets the type [#inline-library], and
    its content model is dropped; the particles of [BookType] keep their
    types as written, with the prefix. *)
Definition sampleSchema : Types.XsdSchema.t (H := Fragment.integers) :=
  Types.XsdSchema.mk (Some "http://example.com/book")
    {[ "library" := Types.XsdElement.mk "library" "#inline-library" (Some 1%Z)
                      (Types.Bounded (Some 1%Z)) [] [] None ]}
    {[ "BookType" :=
         Types.XsdComplexType.mk "BookType"
           (List.map
              (fun '(name, type) =>
                 Types.XsdElement.mk name type (Some 1%Z) (Types.Bounded (Some 1%Z))
                   [] [] None)
              [("title", "xs:string"); ("author", "xs:string"); ("isbn", "tns:ISBNType");
               ("price", "xs:decimal"); ("publishDate", "xs:date")])
           [Types.XsdAttribute.mk "id" "xs:string" "required" None None] ]}
    {[ "ISBNType" :=
         Types.XsdSimpleType.mk "ISBNType" "xs:string"
           [Types.XsdRestriction.mk "pattern"
              (Types.XsdRestriction.VString "[0-9]{3}-[0-9]{10}")] ]}
    (<[ "xs" := "http://www.w3.org/2001/XMLSchema" ]>
       {[ "tns" := "http://example.com/book" ]}).

(** What the parser makes of the documents. *)
Definition sampleBook (attributes : Js.Dict) (title author isbn price publishDate : string)
  : Types.XmlNode.t :=
  Types.XmlNode.mk "book" attributes
    (List.map (fun '(name, text) => Types.XmlNode.mk name [] [] (Some text))
       [("title", title); ("author", author); ("isbn", isbn); ("price", price);
        ("publishDate", publishDate)])
    None.

Definition sampleLibrary (books : list Types.XmlNode.t) : Types.XmlNode.t :=
  Types.XmlNode.mk "library" [("xmlns", "http://example.com/book")] books None.

Definition validNode : Types.XmlNode.t :=
  sampleLibrary
    [sampleBook [("id", "b001")] "TheGreatGatsby" "F.ScottFitzgerald" "978-0142437171"
       "12.99" "2004-09-30";
     sampleBook [("id", "b002")] "ToKillaMockingbird" "HarperLee" "978-0061120084"
       "14.99" "2006-05-23"].

Definition invalidNode : Types.XmlNode.t :=
  sampleLibrary
    [sampleBook [] "InvalidBook" "UnknownAuthor" "invalid-isbn" "not-a-number"
       "invalid-date"].

(** C5, where the code fails. The builder accepts the schema of the
    repository, the parser both documents, and [validate] returns no
    diagnostic for either: the book without [id] is not reported, nor is
    anything else in it. Nothing is filed under the type [#inline-library]
    of the root, so that its content is not looked at; and nothing would be
    found under the type [tns:BookType] of the particle [book], the complex
    type being filed under [BookType]. *)
Theorem required_attribute_not_reported :
  XsdParser.parseSchema (H := Fragment.platform) sampleXsdSchema
  = Some (XsdParser.mkSchemaResult (Some sampleSchema) [])
  /\ XmlParser.parse (H := Fragment.platform) invalidXml
     = Some (XmlParser.mkParseResult (Some invalidNode) [])
  /\ XmlValidator.validate (H := Fragment.platform) sampleSchema invalidNode
     = XmlValidator.Done []
  /\ XmlParser.parse (H := Fragment.platform) validXml
     = Some (XmlParser.mkParseResult (Some validNode) [])
  /\ XmlValidator.validate (H := Fragment.platform) sampleSchema validNode
     = XmlValidator.Done []
  /\ Types.XsdSchema.complexTypes sampleSchema !! "#inline-library" = None
  /\ Types.XsdSchema.complexTypes sampleSchema !! "tns:BookType" = None.
Proof. repeat split; vm_compute; reflexivity. Qed.

(** With the types of the same library filed under the names the
    definitions use, and no inline type, the book without [id] is
    reported. *)
Definition libraryXsd : string :=
  "<xs:schema xmlns:xs='http://www.w3.org/2001/XMLSchema'>
     <xs:element name='library' type='LibraryType'/>
     <xs:complexType name='LibraryType'>
       <xs:sequence>
         <xs:element name='book' type='BookType' minOccurs='1' maxOccurs='unbounded'/>
       </xs:sequence>
     </xs:complexType>
     <xs:complexType name='BookType'>
       <xs:sequence>
         <xs:element name='title' type='string'/>
       </xs:sequence>
       <xs:attribute name='id' type='string' use='required'/>
     </xs:complexType>
   </xs:schema>".

Section Library.
Import Types.
Context `{Platform}.

Definition bookParticle : XsdElement.t :=
  XsdElement.mk "book" "BookType" (Some 1%Z) Unbounded [] [] None.

Definition librarySchema : XsdSchema.t :=
  XsdSchema.mk None
    {[ "library" := XsdElement.mk "library" "LibraryType" (Some 1%Z) (Bounded (Some 1%Z))
                      [] [] None ]}
    (<[ "LibraryType" := XsdComplexType.mk "LibraryType" [bookParticle] [] ]>
       {[ "BookType" :=
            XsdComplexType.mk "BookType"
              [XsdElement.mk "title" "string" (Some 1%Z) (Bounded (Some 1%Z)) [] [] None]
              [XsdAttribute.mk "id" "string" "required" None None] ]})
    ∅
    {[ "xs" := "http://www.w3.org/2001/XMLSchema" ]}.

(** [<book ...><title>...</title></book>] *)
Definition book (attributes : Js.Dict) (title : string) : XmlNode.t :=
  XmlNode.mk "book" attributes [XmlNode.mk "title" [] [] (Some title)] None.

Definition library (books : list XmlNode.t) : XmlNode.t :=
  XmlNode.mk "library" [] books None.

Definition missingAttribute (line column : nat) (name : string) : ValidationError.t :=
  ValidationError.mk line column ("Required attribute '" ++ name ++ "' is missing")
    "MISSING_REQUIRED_ATTRIBUTE".

Definition missingId : ValidationError.t := missingAttribute 1 1 "id".

End Library.

Lemma library_schema_built :
  XsdParser.parseSchema (H := Fragment.platform) libraryXsd
  = Some (XsdParser.mkSchemaResult (Some (librarySchema (H := Fragment.platform))) []).
Proof. vm_compute. reflexivity. Qed.

Lemma library_end_to_end :
  XmlParser.parse (H := Fragment.platform)
    "<?xml version='1.0'?>
     <library>
       <book id='b001'><title>The Great Gatsby</title></book>
       <book><title>Invalid Book</title></book>
       <book id='b002'><title>To Kill a Mockingbird</title></book>
     </library>"
  = Some (XmlParser.mkParseResult
            (Some (library [book [("id", "b001")] "TheGreatGatsby";
                            book [] "InvalidBook";
                            book [("id", "b002")] "ToKillaMockingbird"]))
            [])
  /\ XmlValidator.validate (H := Fragment.platform) librarySchema
       (library [book [("id", "b001")] "TheGreatGatsby";
                 book [] "InvalidBook";
                 book [("id", "b002")] "ToKillaMockingbird"])
     = XmlValidator.Done [missingId].
Proof. split; vm_compute; reflexivity. Qed.

(** * The parser: when [parse] returns *)

Module Prolog.
Import XmlParser XmlParserFacts.

#[local] Arguments String.append : simpl nomatch.

Lemma dropSpaces_lead lead rest :
  all space lead = true -> dropSpaces (lead ++ rest) = dropSpaces rest.
Proof.
  induction lead as [|c lead IH]; simpl; [done|].
  intros Hall. apply andb_prop in Hall as [-> Hall]. by apply IH.
Qed.

(** Is there a [<] followed by [!] in the input? *)
Fixpoint hasDeclaration (s : string) : bool :=
  match s with
  | "" => false
  | String c s' =>
      match s' with
      | String d _ => (Ascii.eqb c "<" && Ascii.eqb d "!") || hasDeclaration s'
      | "" => false
      end
  end.

Lemma hasDeclaration_charAt s :
  hasDeclaration s = false ->
  forall i, Js.charAt s i = "<" -> Js.charAt s (i + 1) <> "!".
Proof.
  induction s as [|c s IH]; intros Hfree i; [by destruct i|].
  destruct s as [|d s]; [by destruct i as [|[|i]]|].
  change (hasDeclaration (String c (String d s)))
    with ((Ascii.eqb c "<" && Ascii.eqb d "!") || hasDeclaration (String d s)) in Hfree.
  apply orb_false_elim in Hfree as [Hhere Hfree].
  destruct i as [|i]; [|by apply IH].
  unfold Js.charAt. simpl. intros [= ->] [= ->]. done.
Qed.

(** The loop before the root returns unless the cursor comes to stand on
    [<!]. *)
Lemma skipProlog_returns fuel st :
  wf st -> rem st + 2 <= fuel ->
  (forall st', Reach st st' -> (current st' === "<") = true -> (peek 1 st' === "!") = false) ->
  spec (skipProlog fuel) st 0.
Proof.
  revert st. induction fuel as [|fuel IH]; intros st Hwf Hfuel Hfree; [arith|].
  destruct (inBounds st && (current st === "<")) eqn:Htest;
    [|unfold spec; simpl; rewrite Htest; repeat spec_step].
  apply andb_prop in Htest as [Hb Hc].
  pose proof (Hfree st (Reach_refl st) Hc) as Hbang.
  destruct (peek 1 st === "?") eqn:Hpi;
    [|unfold spec; simpl; rewrite Hb, Hc, Hbang, Hpi; repeat spec_step].
  pose proof (skipProcessingInstruction_start fuel st Hc Hpi Hwf ltac:(arith)) as Hs1.
  unfold spec, total in Hs1.
  destruct (skipProcessingInstruction fuel st) as [[] st1|msg st1|] eqn:E1; [| |done].
  2:{ unfold spec. simpl. rewrite Hb, Hc, Hbang, Hpi. simpl.
      unfold bind. rewrite E1. simpl. reach. }
  destruct Hs1 as [HR1 Hp1].
  pose proof (skipWhitespace_spec fuel st1 ltac:(arith) ltac:(arith)) as Hs2.
  unfold spec, total in Hs2.
  destruct (skipWhitespace fuel st1) as [[] st2|msg st2|] eqn:E2; [| |done].
  2:{ unfold spec. simpl. rewrite Hb, Hc, Hbang, Hpi. simpl.
      unfold bind. rewrite E1, E2. simpl. reach. }
  destruct Hs2 as [HR2 Hp2].
  assert (Hs3 : spec (skipProlog fuel) st2 0).
  { apply IH; [arith|arith|]. intros st' HR. apply Hfree. reach. }
  unfold spec. simpl. rewrite Hb, Hc, Hbang, Hpi. simpl.
  unfold bind. rewrite E1, E2.
  unfold spec, total in Hs3 |- *.
  destruct (skipProlog fuel st2); [|reach|done].
  destruct Hs3. split; [reach|arith].
Qed.

Lemma char_eqb_eq c d : (String c "" === String d "") = Ascii.eqb c d.
Proof.
  destruct (Ascii.eqb_spec c d) as [->|Hne]; [apply String.eqb_refl|].
  apply String.eqb_neq. congruence.
Qed.

Section WithPlatform.
Context `{Platform}.

(** An input whose first character after white space is [<] followed by
    [!], a comment or a document type declaration, is one on which [parse]
    does not return: with whatever fuel the run is not over. *)
Theorem markup_declaration_hangs lead rest :
  all space lead = true ->
  (forall fuel, document fuel (initial (lead ++ "<!" ++ rest)) = OutOfFuel)
  /\ parse (lead ++ "<!" ++ rest) = None.
Proof.
  intros Hlead.
  assert (Hdiv : diverges (lead ++ "<!" ++ rest)).
  { intros fuel0. set (xmlString := lead ++ "<!" ++ rest).
    destruct (skipWhitespace_run (S (String.length xmlString)) (initial xmlString))
      as (st1 & Hrun & Hrem); [unfold rem; simpl; lia|].
    rewrite remaining_initial in Hrem. unfold xmlString in Hrem.
    rewrite (dropSpaces_lead _ _ Hlead) in Hrem. simpl in Hrem.
    unfold document, bind.
    destruct (below_agree _ skipWhitespace_monotone fuel0 (S (String.length xmlString))
                (initial xmlString)) as [-> | [Hoof | ->] ]; [done|congruence|].
    rewrite Hrun, peek_short by (simpl; lia).
    destruct (look _ _ _ Hrem) as (_ & Hc & Hp & _).
    rewrite (skipProlog_stuck st1); [done|by rewrite Hc|by rewrite Hp]. }
  split; [exact Hdiv|]. by apply parse_none_diverges.
Qed.

(** On an input in which no [<] is followed by [!], [parse] returns. *)
Theorem parse_returns xmlString :
  hasDeclaration xmlString = false ->
  exists result, parse xmlString = Some result.
Proof.
  intros Hfree. pose proof (hasDeclaration_charAt _ Hfree) as Hfree'.
  clear Hfree. rename Hfree' into Hfree.
  set (st := initial xmlString). set (fuel := fuelFor xmlString).
  assert (Hwf : wf st) by apply initial_wf.
  assert (Hfuel : rem st + 4 <= fuel) by (unfold rem, fuel, fuelFor; simpl; lia).
  assert (Hstates : forall st', Reach st st' ->
            (current st' === "<") = true -> (peek 1 st' === "!") = false).
  { intros st' HR Hc. apply String.eqb_eq in Hc. apply String.eqb_neq.
    unfold current, peek in *. rewrite (Reach_xml _ _ HR) in *. by apply Hfree. }
  unfold parse, parseWith. fold fuel st. unfold document, bind.
  pose proof (skipWhitespace_spec fuel st Hwf ltac:(lia)) as Hs1.
  unfold spec, total in Hs1.
  destruct (skipWhitespace fuel st) as [[] st1|msg st1|] eqn:E1; [|by eexists|done].
  destruct Hs1 as [HR1 Hp1]. rewrite peek_short by (simpl; lia).
  assert (Hs2 : spec (skipProlog fuel) st1 0).
  { apply skipProlog_returns; [arith|arith|]. intros st' HR. apply Hstates. reach. }
  unfold spec, total in Hs2.
  destruct (skipProlog fuel st1) as [[] st2|msg st2|] eqn:E2; [|by eexists|done].
  destruct Hs2 as [HR2 Hp2].
  pose proof (parseElement_spec fuel st2 ltac:(arith) ltac:(arith)) as Hs3.
  unfold spec, total in Hs3.
  destruct (parseElement fuel st2); [by eexists|by eexists|done].
Qed.

(** What follows the end tag of the root element is not looked at. *)
Theorem after_root_ignored name text rest :
  validName name = true -> all notMarkup text = true ->
  parse ("<" ++ name ++ ">" ++ text ++ "</" ++ name ++ ">" ++ rest)
  = parse ("<" ++ name ++ ">" ++ text ++ "</" ++ name ++ ">").
Proof.
  intros Hvalid Hall.
  rewrite (parse_text name text ("</" ++ name ++ ">" ++ rest) Hvalid Hall)
    by (right; by exists rest).
  rewrite (parse_text name text ("</" ++ name ++ ">" ++ "") Hvalid Hall)
    by (right; by exists "").
  done.
Qed.

Lemma substring_prefix lead rest :
  String.substring 0 (String.length lead) (lead ++ rest) = lead.
Proof.
  induction lead as [|c lead IH]; [by destruct rest|]. simpl. by rewrite IH.
Qed.

(** An input that is blank, or whose first character after white space
    is not [<], is refused with the one diagnostic that names this
    character, at its position. *)
Theorem text_before_root lead rest :
  all space lead = true ->
  stops space rest -> stops (fun c => Ascii.eqb c "<") rest ->
  parse (lead ++ rest)
  = Some (mkParseResult None
            [Types.ValidationError.mk (1 + newlines lead) (1 + sinceNewline lead)
               ("Expected '<' but found '" ++ Js.charAt rest 0 ++ "'") "PARSE_ERROR"]).
Proof.
  intros Hlead Hsolid Hmarkup. set (xmlString := lead ++ rest).
  unfold parse, parseWith, document.
  assert (Hfuel : String.length xmlString + 4 <= fuelFor xmlString) by (unfold fuelFor; lia).
  destruct (fuelFor xmlString) as [|fuel]; [lia|].
  destruct (skipWhitespace_run (S fuel) (initial xmlString))
    as (st1 & Hrun1 & Hrem1); [unfold rem; simpl; lia|].
  pose proof (skipWhitespace_spec (S fuel) (initial xmlString) (initial_wf _)) as Hspec.
  unfold spec, total in Hspec. rewrite Hrun1 in Hspec.
  destruct Hspec as [Hreach _]; [unfold rem; simpl; lia|].
  rewrite remaining_initial in Hrem1. unfold xmlString in Hrem1.
  rewrite (dropSpaces_lead _ _ Hlead), (dropSpaces_stops _ Hsolid) in Hrem1.
  assert (Hposition : position st1 = String.length lead).
  { pose proof (remaining_length st1) as Hlen. rewrite Hrem1 in Hlen.
    pose proof (Reach_wf _ _ Hreach (initial_wf _)) as Hwf.
    pose proof (Reach_xml _ _ Hreach) as Hxml. simpl in Hxml.
    unfold rem, wf in *. rewrite Hxml in *. unfold xmlString in *.
    rewrite append_length in *. lia. }
  destruct (tracked_Reach _ _ Hreach (tracked_initial _)) as [Hline Hcolumn].
  unfold consumed in Hline, Hcolumn. rewrite (Reach_xml _ _ Hreach), Hposition in *.
  simpl xml in *. unfold xmlString in Hline, Hcolumn.
  rewrite substring_prefix in Hline, Hcolumn.
  unfold bind at 1. rewrite Hrun1.
  unfold bind at 1. rewrite peek_short by (simpl; lia).
  assert (Hcurrent : current st1 = Js.charAt rest 0) by (by rewrite current_remaining, Hrem1).
  assert (Hnot : (current st1 === "<") = false).
  { rewrite Hcurrent. destruct rest as [|c rest']; [done|]. simpl in Hmarkup.
    change (Js.charAt (String c rest') 0) with (String c "").
    by rewrite char_eqb_eq. }
  unfold bind at 1. simpl skipProlog. rewrite Hnot, andb_false_r.
  simpl parseElement. rewrite Hnot. simpl. by rewrite Hline, Hcolumn, Hcurrent.
Qed.

End WithPlatform.
End Prolog.

Lemma markup_declaration_hangs_witness :
  XmlParserFacts.all XmlParserFacts.space " " = true
  /\ XmlParser.parse (H := Fragment.platform) " <!-- note --><a/>" = None.
Proof.
  split; [reflexivity|].
  apply (proj2 (Prolog.markup_declaration_hangs (H := Fragment.platform)
                  " " "-- note --><a/>" eq_refl)).
Defined.

Lemma parse_returns_witness :
  Prolog.hasDeclaration "<?xml version='1.0'?><a>b</a" = false
  /\ exists result,
       XmlParser.parse (H := Fragment.platform) "<?xml version='1.0'?><a>b</a" = Some result.
Proof.
  split; [reflexivity|].
  apply (Prolog.parse_returns (H := Fragment.platform)). reflexivity.
Defined.

Lemma after_root_ignored_witness :
  XmlParser.parse (H := Fragment.platform) "<a>b</a><<<"
  = XmlParser.parse (H := Fragment.platform) "<a>b</a>".
Proof.
  apply (Prolog.after_root_ignored (H := Fragment.platform) "a" "b" "<<<"); reflexivity.
Defined.
(** * The parser: the shape of the trees it returns *)

Module TreeShape.
Import Types XmlParser XmlParserFacts.

#[local] Arguments String.append : simpl nomatch.

(** A character [skipWhitespace] does not skip. *)
Definition solidChar (c : ascii) : bool := negb (space c).

(** A [#text] child: a leaf whose text is not empty and has no white
    space. *)
Definition isTextNode (n : XmlNode.t) : bool :=
  match n with
  | XmlNode.mk name [] [] (Some t) => (name === "#text") && Js.truthy t && all solidChar t
  | _ => false
  end.

Fixpoint distinct (l : list string) : bool :=
  match l with
  | [] => true
  | x :: l' => negb (existsb (String.eqb x) l') && distinct l'
  end.

(** Every [#text] child is followed by a child that is not one. *)
Fixpoint interleaved (l : list XmlNode.t) : bool :=
  match l with
  | [] => true
  | c :: l' =>
      (if isTextNode c
       then match l' with
            | d :: _ => negb (isTextNode d)
            | [] => false
            end
       else true)
      && interleaved l'
  end.

Definition attributesOk (attributes : Js.Dict) : bool :=
  forallb (fun kv => validName kv.1) attributes && distinct (map fst attributes).

(** An element: its name and the names of its attributes are name tokens,
    no attribute name comes twice, its children are elements and [#text]
    leaves, and it has a text only if it has no child. *)
Fixpoint isElement (n : XmlNode.t) : bool :=
  match n with
  | XmlNode.mk name attributes children text =>
      validName name
      && attributesOk attributes
      && forallb (fun child => isTextNode child || isElement child) children
      && interleaved children
      && match text with
         | Some t => (length children =? 0) && Js.truthy t && all solidChar t
         | None => true
         end
  end.

Definition childrenOk (children : list XmlNode.t) : bool :=
  forallb (fun child => isTextNode child || isElement child) children
  && interleaved children.

(** ** What the operations return *)

Lemma skipWhitespace_stops fuel st st' :
  skipWhitespace fuel st = Ok tt st' ->
  inBounds st' && isWhitespace (current st') = false.
Proof.
  revert st. induction fuel as [|fuel IH]; intros st Hrun; [done|].
  simpl in Hrun. ok_inv; [by eapply IH|done].
Qed.

Lemma current_char st : inBounds st = true -> exists c, current st = String c "".
Proof.
  intros Hb. apply inBounds_true in Hb. unfold current, Js.charAt.
  destruct (get_some _ _ Hb) as [c ->]. by exists c.
Qed.

Lemma parseNameLoop_chars fuel : forall acc st name st',
  parseNameLoop fuel acc st = Ok name st' ->
  exists w, name = acc ++ w /\ all nameChar w = true.
Proof.
  induction fuel as [|fuel IH]; intros acc st name st' Hrun; [done|].
  simpl in Hrun. ok_inv; try (exists ""; by rewrite append_nil_r).
  destruct (current_char st) as [c Hc]; [done|].
  apply IH in Hrun as (w & -> & Hw). exists (String c w).
  rewrite Hc, append_assoc. split; [done|]. simpl.
  rewrite Hw, andb_true_r. unfold nameChar. by rewrite <- Hc.
Qed.

Lemma parseName_valid fuel st name st' :
  parseName fuel st = Ok name st' -> validName name = true.
Proof.
  unfold parseName. intros Hrun.
  destruct (isNameStartChar (current st)) eqn:Hstart; [|done]. simpl in Hrun.
  pose proof (isNameStartChar_in _ Hstart) as Hb.
  pose proof (isNameStartChar_isNameChar _ Hstart) as Hn.
  destruct (current_char st Hb) as [c Hc].
  ok_inv. destruct fuel as [|fuel]; [done|].
  simpl in Hm. rewrite Hb, Hn in Hm. ok_inv.
  apply parseNameLoop_chars in Hm as (w & -> & Hw).
  rewrite Hc. simpl. rewrite Hw, andb_true_r.
  unfold nameStart, nameChar. rewrite <- Hc. by rewrite Hstart, Hn.
Qed.

Lemma keys_store key value attributes :
  map fst (Js.store key value attributes)
  = if existsb (String.eqb key) (map fst attributes)
    then map fst attributes
    else (map fst attributes ++ [key])%list.
Proof.
  induction attributes as [|[k v] rest IH]; simpl; [done|].
  rewrite (String.eqb_sym key k).
  destruct (k === key) eqn:Heq; simpl; [by apply String.eqb_eq in Heq as ->|].
  rewrite IH. by destruct (existsb _ _).
Qed.

Lemma distinct_snoc l x :
  distinct l = true -> existsb (String.eqb x) l = false -> distinct (l ++ [x]) = true.
Proof.
  induction l as [|y l IH]; simpl; [done|]. intros Hd Hx.
  apply andb_prop in Hd as [Hy Hd]. apply orb_false_elim in Hx as [Hxy Hx].
  rewrite IH by done. rewrite existsb_app. simpl.
  apply negb_true_iff in Hy. rewrite Hy, (String.eqb_sym y x), Hxy. done.
Qed.

Lemma attributesOk_store key value attributes :
  validName key = true -> attributesOk attributes = true ->
  attributesOk (Js.store key value attributes) = true.
Proof.
  unfold attributesOk. intros Hkey Hok. apply andb_prop in Hok as [Hnames Hd].
  apply andb_true_intro. split.
  - clear Hd. induction attributes as [|[k v] rest IH]; simpl in *; [by rewrite Hkey|].
    apply andb_prop in Hnames as [Hk Hrest].
    destruct (k === key); simpl; [by rewrite Hkey|]. by rewrite Hk, IH.
  - rewrite keys_store. destruct (existsb _ _) eqn:Hin; [done|]. by apply distinct_snoc.
Qed.

Lemma attributesOk_set key value attributes :
  validName key = true -> attributesOk attributes = true ->
  attributesOk (Js.set key value attributes) = true.
Proof.
  intros Hkey Hok. unfold Js.set.
  destruct (Js.get key attributes); [by apply attributesOk_store|].
  destruct (key === "__proto__"); [done|by apply attributesOk_store].
Qed.

Section WithPlatform.
Context `{Platform}.

Lemma parseAttributesLoop_ok fuel : forall attributes st attributes' st',
  parseAttributesLoop fuel attributes st = Ok attributes' st' ->
  attributesOk attributes = true -> attributesOk attributes' = true.
Proof.
  induction fuel as [|fuel IH]; intros attributes st attributes' st' Hrun Hok; [done|].
  simpl in Hrun. ok_inv; try done.
  eapply IH; [eassumption|]. apply attributesOk_set; [|done].
  by eapply parseName_valid.
Qed.

Lemma all_rev p s : all p (Js.rev s) = all p s.
Proof.
  induction s as [|c s IH]; simpl; [done|].
  rewrite all_app, IH. simpl. rewrite andb_true_r. apply andb_comm.
Qed.

Lemma all_trimStart p s : all p s = true -> all p (Js.trimStart s) = true.
Proof.
  induction s as [|c s IH]; simpl; [done|]. intros Hall.
  destruct (Js.isTrimSpace c); [|done]. apply andb_prop in Hall as [_ Hall]. by apply IH.
Qed.

Lemma all_trim p s : all p s = true -> all p (Js.trim s) = true.
Proof.
  intros Hall. unfold Js.trim. rewrite all_rev. apply all_trimStart.
  rewrite all_rev. by apply all_trimStart.
Qed.

Lemma isElement_not_text n : isElement n = true -> isTextNode n = false.
Proof.
  destruct n as [name attributes children text]. simpl. intros Hel.
  destruct attributes, children, text; try done.
  destruct (name === "#text") eqn:Hname; [|done].
  apply String.eqb_eq in Hname as ->. done.
Qed.

Lemma interleaved_app l m :
  interleaved l = true -> interleaved m = true -> interleaved (l ++ m) = true.
Proof.
  intros Hl Hm. induction l as [|c l IH]; [done|].
  simpl in Hl. apply andb_prop in Hl as [Hc Hl].
  change (interleaved ((c :: l) ++ m))
    with ((if isTextNode c
           then match (l ++ m)%list with d :: _ => negb (isTextNode d) | [] => false end
           else true) && interleaved (l ++ m)).
  rewrite (IH Hl), andb_true_r.
  destruct (isTextNode c); [|done]. by destruct l.
Qed.

Lemma childrenOk_element children child :
  childrenOk children = true -> isElement child = true ->
  childrenOk (children ++ [child]) = true.
Proof.
  unfold childrenOk. intros Hok Hchild. apply andb_prop in Hok as [Hall Hint].
  rewrite forallb_app, Hall. simpl. rewrite Hchild, orb_true_r. simpl.
  apply interleaved_app; [done|]. simpl. by rewrite (isElement_not_text _ Hchild).
Qed.

Lemma childrenOk_text children text child :
  childrenOk children = true ->
  Js.truthy (Js.trim text) = true -> all solidChar text = true ->
  isElement child = true ->
  childrenOk ((children ++ [textNode text]) ++ [child]) = true.
Proof.
  unfold childrenOk. intros Hok Htext Hsolid Hchild. apply andb_prop in Hok as [Hall Hint].
  assert (Htn : isTextNode (textNode text) = true).
  { unfold textNode. simpl. by rewrite Htext, (all_trim _ _ Hsolid). }
  rewrite <- app_assoc.
  change ([textNode text] ++ [child])%list with [textNode text; child].
  rewrite forallb_app, Hall. cbn [forallb].
  rewrite Htn, Hchild, orb_true_r. cbn [orb andb].
  apply interleaved_app; [done|]. cbn [interleaved].
  by rewrite Htn, (isElement_not_text _ Hchild).
Qed.

Lemma buildElementNode_ok name attributes children text :
  validName name = true -> attributesOk attributes = true ->
  childrenOk children = true -> all solidChar text = true ->
  isElement (buildElementNode name attributes children text) = true.
Proof.
  unfold buildElementNode, childrenOk. intros Hname Hattrs Hch Hsolid.
  apply andb_prop in Hch as [Hall Hint].
  destruct (Js.truthy (Js.trim text) && (length children =? 0)) eqn:Htest;
    simpl; rewrite Hname, Hattrs, Hall, Hint; simpl; [|done].
  apply andb_prop in Htest as [-> ->]. simpl. by apply all_trim.
Qed.

Lemma solid_current st :
  inBounds st && isWhitespace (current st) = false ->
  all solidChar (current st) = true.
Proof.
  intros Hstop. destruct (inBounds st) eqn:Hb.
  - destruct (current_char st Hb) as [c Hc]. rewrite Hc in *. simpl in *.
    unfold solidChar, space. by rewrite Hstop.
  - by rewrite (current_out _ Hb).
Qed.

Ltac shape_facts :=
  repeat match goal with
    | u : unit |- _ => destruct u
    | H : parseName _ _ = Ok _ _ |- _ => apply parseName_valid in H
    | H : parseAttributes _ _ = Ok _ _ |- _ =>
        unfold parseAttributes in H;
        pose proof (parseAttributesLoop_ok _ _ _ _ _ H eq_refl); clear H
    | H : skipWhitespace _ _ = Ok _ _ |- _ => apply skipWhitespace_stops in H
    end.

Lemma parseElement_shape fuel :
  (forall st node st', parseElement fuel st = Ok node st' -> isElement node = true)
  /\ (forall name attributes st node st',
        parseElementContent fuel name attributes st = Ok node st' ->
        validName name = true -> attributesOk attributes = true ->
        isElement node = true)
  /\ (forall children text st content st',
        parseElementContentLoop fuel children text st = Ok content st' ->
        childrenOk children = true -> all solidChar text = true ->
        childrenOk content.1 = true /\ all solidChar content.2 = true).
Proof.
  induction fuel as [|fuel (IHe & IHc & IHl)]; [by repeat split|].
  repeat apply conj.
  - intros st node st' Hrun. simpl in Hrun. ok_inv; shape_facts.
    + simpl. rewrite !andb_true_r. by apply andb_true_intro.
    + by eapply IHc.
  - intros name attributes st node st' Hrun Hname Hattrs. simpl in Hrun. ok_inv.
    match goal with
    | Hloop : parseElementContentLoop _ _ _ _ = Ok _ _ |- _ =>
        destruct (IHl _ _ _ _ _ Hloop eq_refl eq_refl) as [Hch Hsolid]
    end.
    by apply buildElementNode_ok.
  - intros children text st content st' Hrun Hch Hsolid. simpl in Hrun.
    ok_inv; shape_facts; try done;
      repeat match goal with
        | Hchild : parseElement _ _ = Ok _ _ |- _ => apply IHe in Hchild
        end.
    + destruct (Js.truthy (Js.trim text)) eqn:Htext.
      * eapply IHl; [eassumption| |done]. by apply childrenOk_text.
      * eapply IHl; [eassumption| |done]. by apply childrenOk_element.
    + eapply IHl; [eassumption|done|].
      rewrite all_app, Hsolid. simpl. by apply solid_current.
Qed.

(** A tree [parse] returns is an element in the sense of [isElement], and
    so are all the elements in it: no text of it holds white space, an
    element with children has no text, and the last child of an element is
    never character data. *)
Theorem parse_shape xmlString result root :
  parse xmlString = Some result -> node result = Some root -> isElement root = true.
Proof.
  unfold parse, parseWith. intros Hres Hnode.
  destruct (document _ _) as [root' st|msg st|] eqn:Hdoc; [| |done];
    injection Hres as <-; [|done]. injection Hnode as ->.
  unfold document in Hdoc. ok_inv; by eapply (proj1 (parseElement_shape _)).
Qed.

End WithPlatform.
End TreeShape.
(** * The parser: the messages it reports *)

Module Messages.
Import Types XmlParser XmlParserFacts.

#[local] Arguments String.append : simpl nomatch.
#[local] Arguments advance : simpl never.

(** The messages of the [throw] statements of the parser that can be
    reached. *)
Inductive reported : string -> Prop :=
| expected_open c : reported ("Expected '<' but found '" ++ c ++ "'")
| unexpected_end_tag : reported "Unexpected end tag"
| expected_close c : reported ("Expected '>' but found '" ++ c ++ "'")
| end_tag_mismatch found expected :
    reported ("End tag '" ++ found ++ "' does not match start tag '" ++ expected ++ "'")
| expected_close_end_tag : reported "Expected '>' in end tag"
| expected_equals name : reported ("Expected '=' after attribute name '" ++ name ++ "'")
| expected_quote c : reported ("Expected quote but found '" ++ c ++ "'")
| unterminated_value : reported "Unterminated attribute value"
| invalid_name_start c : reported ("Invalid name start character: '" ++ c ++ "'")
| unterminated_entity : reported "Unterminated entity".

(** The two messages left: those of [parseName] after its loop and of
    [parseEntity] before it. *)
Lemma reported_reachable msg :
  reported msg -> msg <> "Expected element name" /\ msg <> "Expected entity".
Proof. intros Hmsg. split; intros ->; inversion Hmsg. Qed.

(** What is thrown, if anything is, satisfies [Q]. *)
Definition throwsOnly {A} (r : Res A) (Q : string -> Prop) : Prop :=
  match r with
  | Throw msg _ => Q msg
  | _ => True
  end.

Lemma throwsOnly_bind {A B} (m : P A) (k : A -> P B) (st : State) (Q : string -> Prop) :
  throwsOnly (m st) Q ->
  (forall a st', m st = Ok a st' -> throwsOnly (k a st') Q) ->
  throwsOnly (bind m k st) Q.
Proof.
  unfold bind. intros Hm Hk. destruct (m st) as [a st'|msg st'|]; [by apply Hk|done..].
Qed.

Lemma advance_throws st Q : throwsOnly (advance st) Q.
Proof. done. Qed.

Create HintDb throws.
#[local] Hint Resolve advance_throws : throws.

Ltac throws_step :=
  cbv beta;
  match goal with
  | |- throwsOnly (Ok _ _) _ => exact I
  | |- throwsOnly OutOfFuel _ => exact I
  | |- throwsOnly (ret _ _) _ => exact I
  | |- throwsOnly (advance _) _ => exact I
  | |- throwsOnly (Throw _ _) _ => simpl; solve [constructor]
  | |- throwsOnly (throw _ _) _ => simpl; solve [constructor]
  | |- throwsOnly (bind _ _ _) _ => apply throwsOnly_bind; [|intros ? ? ?]
  | |- throwsOnly (if ?c then _ else _) _ => destruct c eqn:?
  | |- throwsOnly ((if ?c then _ else _) _) _ => destruct c eqn:?
  | |- throwsOnly (_ _) _ => solve [eauto 3 with throws]
  end.

Ltac throws_loop fuel :=
  let IH := fresh "IH" in
  induction fuel as [|fuel IH]; intros; [exact I|]; simpl; repeat throws_step.

Lemma skipWhitespace_throws fuel st Q : throwsOnly (skipWhitespace fuel st) Q.
Proof. revert st. throws_loop fuel. Qed.
#[local] Hint Resolve skipWhitespace_throws : throws.

Lemma parseNameLoop_throws fuel name st Q : throwsOnly (parseNameLoop fuel name st) Q.
Proof. revert name st. throws_loop fuel. Qed.
#[local] Hint Resolve parseNameLoop_throws : throws.

(** The name [parseName] has read is not empty. *)
Lemma parseName_throws fuel st : throwsOnly (parseName fuel st) reported.
Proof.
  unfold parseName.
  destruct (isNameStartChar (current st)) eqn:Hstart; simpl negb; cbv iota;
    [|simpl; constructor].
  apply throwsOnly_bind; [apply parseNameLoop_throws|]. intros name st' Hrun.
  replace (Js.truthy name) with true; [done|]. symmetry.
  destruct fuel as [|fuel]; [done|]. simpl in Hrun.
  rewrite (isNameStartChar_in _ Hstart), (isNameStartChar_isNameChar _ Hstart) in Hrun.
  unfold bind, advance in Hrun.
  apply TreeShape.parseNameLoop_chars in Hrun as (w & -> & _).
  destruct (current st); [done|]. done.
Qed.
#[local] Hint Resolve parseName_throws : throws.

Lemma skipDeclarationLoop_throws fuel st Q : throwsOnly (skipDeclarationLoop fuel st) Q.
Proof. revert st. throws_loop fuel. Qed.
#[local] Hint Resolve skipDeclarationLoop_throws : throws.

Lemma skipDeclaration_throws fuel st Q : throwsOnly (skipDeclaration fuel st) Q.
Proof. unfold skipDeclaration. repeat throws_step. Qed.
#[local] Hint Resolve skipDeclaration_throws : throws.

Lemma skipProcessingInstruction_throws fuel st Q :
  throwsOnly (skipProcessingInstruction fuel st) Q.
Proof. revert st. throws_loop fuel. Qed.
#[local] Hint Resolve skipProcessingInstruction_throws : throws.

Lemma skipComment_throws fuel st Q : throwsOnly (skipComment fuel st) Q.
Proof. by rewrite skipComment_noop. Qed.
#[local] Hint Resolve skipComment_throws : throws.

Lemma skipProlog_throws fuel st Q : throwsOnly (skipProlog fuel st) Q.
Proof. revert st. throws_loop fuel. Qed.
#[local] Hint Resolve skipProlog_throws : throws.

Section WithPlatform.
Context `{Platform}.

Lemma parseEntityLoop_throws fuel entity st Q :
  throwsOnly (parseEntityLoop fuel entity st) Q.
Proof. revert entity st. throws_loop fuel. Qed.
#[local] Hint Resolve parseEntityLoop_throws : throws.

(** [parseEntity] is called on [&] only. *)
Lemma parseEntity_throws fuel st :
  (current st === "&") = true -> throwsOnly (parseEntity fuel st) reported.
Proof.
  intros Hc. unfold parseEntity. rewrite Hc. simpl negb. cbv iota. repeat throws_step.
Qed.
#[local] Hint Resolve parseEntity_throws : throws.

Lemma parseAttributeValueLoop_throws fuel quote value st :
  throwsOnly (parseAttributeValueLoop fuel quote value st) reported.
Proof. revert quote value st. throws_loop fuel. Qed.
#[local] Hint Resolve parseAttributeValueLoop_throws : throws.

Lemma parseAttributeValue_throws fuel st :
  throwsOnly (parseAttributeValue fuel st) reported.
Proof. unfold parseAttributeValue. repeat throws_step. Qed.
#[local] Hint Resolve parseAttributeValue_throws : throws.

Lemma parseAttributesLoop_throws fuel attributes st :
  throwsOnly (parseAttributesLoop fuel attributes st) reported.
Proof. revert attributes st. throws_loop fuel. Qed.
#[local] Hint Resolve parseAttributesLoop_throws : throws.

Lemma parseEndTag_throws fuel expectedName st :
  throwsOnly (parseEndTag fuel expectedName st) reported.
Proof. unfold parseEndTag. repeat throws_step. Qed.
#[local] Hint Resolve parseEndTag_throws : throws.

Lemma parseElement_throws_all fuel :
  (forall st, throwsOnly (parseElement fuel st) reported)
  /\ (forall name attributes st,
        throwsOnly (parseElementContent fuel name attributes st) reported)
  /\ (forall children text st,
        throwsOnly (parseElementContentLoop fuel children text st) reported).
Proof.
  induction fuel as [|fuel (IHe & IHc & IHl)]; [by repeat split|].
  unfold parseAttributes in *.
  repeat split; intros; simpl; repeat throws_step.
Qed.

Lemma document_throws fuel st : throwsOnly (document fuel st) reported.
Proof.
  pose proof (parseElement_throws_all fuel) as (He & _).
  unfold document. repeat throws_step.
Qed.

(** A diagnostic of [parse] has one of the ten messages of [reported]: the
    messages 'Expected element name' and 'Expected entity' are never
    reported. *)
Theorem parse_messages xmlString result :
  parse xmlString = Some result ->
  Forall
    (fun e =>
       reported (ValidationError.message e)
       /\ ValidationError.message e <> "Expected element name"
       /\ ValidationError.message e <> "Expected entity")
    (errors result).
Proof.
  intros Hres. unfold parse, parseWith in Hres.
  pose proof (document_throws (fuelFor xmlString) (initial xmlString)) as Hthrows.
  destruct (document _ _) as [root st|msg st|]; [| |done];
    injection Hres as <-; simpl; [done|].
  constructor; [|done]. simpl. split; [done|]. by apply reported_reachable.
Qed.

End WithPlatform.
End Messages.
(** * The validator: what it reports and when it returns *)

Module Diagnostics.
Import Types XmlValidator XmlValidatorFacts.

(** Every diagnostic pushed satisfies [Q]. *)
Definition pushes (Q : ValidationError.t -> Prop) (o : Outcome) : Prop :=
  match o with
  | Done pushed => Forall Q pushed
  | Thrown _ => True
  end.

(** The operation returns: no exception escapes it. *)
Definition completes (o : Outcome) : Prop :=
  match o with
  | Done _ => True
  | Thrown _ => False
  end.

Section Pushes.
Variable Q : ValidationError.t -> Prop.

Lemma pushes_skip : pushes Q skip.
Proof. constructor. Qed.

Lemma pushes_andThen a b : pushes Q a -> pushes Q b -> pushes Q (a ;; b).
Proof. destruct a, b; simpl; try done. intros. by apply Forall_app. Qed.

Lemma pushes_forEach {A} (body : A -> Outcome) l :
  (forall x, In x l -> pushes Q (body x)) -> pushes Q (forEach body l).
Proof.
  induction l as [|x l IH]; intros Hbody; [constructor|].
  change (forEach body (x :: l)) with (body x ;; forEach body l).
  apply pushes_andThen; [apply Hbody; by left|].
  apply IH. intros; apply Hbody. by right.
Qed.

Lemma pushes_when c o : pushes Q o -> pushes Q (when c o).
Proof. destruct c; [done|]. intros _. constructor. Qed.

Lemma pushes_addError line column message code :
  Q (ValidationError.mk line column message code) ->
  pushes Q (addError line column message code).
Proof. intros HQ. by repeat constructor. Qed.

End Pushes.

Lemma completes_andThen a b : completes a -> completes b -> completes (a ;; b).
Proof. by destruct a, b. Qed.

Lemma completes_forEach {A} (body : A -> Outcome) l :
  (forall x, In x l -> completes (body x)) -> completes (forEach body l).
Proof.
  induction l as [|x l IH]; intros Hbody; [done|].
  change (forEach body (x :: l)) with (body x ;; forEach body l).
  apply completes_andThen; [apply Hbody; by left|].
  apply IH. intros; apply Hbody. by right.
Qed.

Lemma completes_when c o : completes o -> completes (when c o).
Proof. by destruct c. Qed.

Lemma completes_Done o : completes o <-> exists pushed, o = Done pushed.
Proof. destruct o; simpl; split; try done; [by eexists|by intros [? ?]]. Qed.

Section WithPlatform.
Context `{Platform}.

(** ** Positions *)

(** The codes of the diagnostics of the validator. *)
Definition validatorCodes : list string :=
  ["ELEMENT_NOT_FOUND"; "ELEMENT_MISMATCH"; "MISSING_REQUIRED_ATTRIBUTE";
   "UNEXPECTED_ATTRIBUTE"; "FIXED_VALUE_VIOLATION"; "INVALID_ATTRIBUTE_VALUE";
   "INVALID_CONTENT"; "INVALID_ELEMENT_VALUE"; "INVALID_SIMPLE_TYPE_VALUE";
   "MIN_OCCURS_VIOLATION"; "MAX_OCCURS_VIOLATION"; "UNEXPECTED_ELEMENT";
   "MIN_LENGTH_VIOLATION"; "MAX_LENGTH_VIOLATION"; "PATTERN_VIOLATION";
   "MIN_INCLUSIVE_VIOLATION"; "MAX_INCLUSIVE_VIOLATION"].

Definition at_ (line column : nat) (e : ValidationError.t) : Prop :=
  ValidationError.line e = line /\ ValidationError.column e = column
  /\ existsb (String.eqb (ValidationError.code e)) validatorCodes = true.

Ltac positions_with known :=
  repeat first
    [ known
    | apply pushes_skip
    | apply pushes_andThen
    | apply pushes_when
    | apply pushes_addError; done
    | apply pushes_forEach; intros
    | match goal with |- pushes _ (Thrown _) => exact I end
    | match goal with |- pushes _ TypeError => exact I end
    | case_match ].

Lemma validateRestrictions_at value restrictions line column elementName :
  pushes (at_ line column) (validateRestrictions value restrictions line column elementName).
Proof. unfold validateRestrictions, validateRestriction. positions_with fail. Qed.

Lemma validateAttributes_at schema xmlNode xsdElement line column :
  pushes (at_ line column) (validateAttributes schema xmlNode xsdElement line column).
Proof. unfold validateAttributes, validateAttributesOf. positions_with fail. Qed.

Lemma validateElement_at schema xmlNode : forall xsdElement line column,
  pushes (at_ line column) (validateElement schema xmlNode xsdElement line column).
Proof.
  induction xmlNode as [name attributes children text IH] using XmlNode_induction.
  intros xsdElement line column. rewrite validateElement_unfold.
  destruct (_ !== _); [by apply pushes_addError|].
  apply pushes_andThen; [apply validateAttributes_at|].
  destruct (isBuiltInType _).
  { unfold validateSimpleContent.
    positions_with ltac:(apply validateRestrictions_at). }
  assert (pushes (at_ line column)
            (match lookup simpleTypeField (XsdSchema.simpleTypes schema)
                     (XsdElement.type xsdElement) with
             | Own simpleType => validateSimpleTypeContent
                                   (XmlNode.mk name attributes children text)
                                   simpleType line column
             | inherited =>
                 if truthyFound inherited then TypeError
                 else if Js.startsWith (XsdElement.type xsdElement) "#inline-"
                 then validateInlineContent (XmlNode.mk name attributes children text)
                        xsdElement line column
                 else skip
             end)) as Hsimple.
  { unfold validateSimpleTypeContent, validateInlineContent.
    positions_with ltac:(apply validateRestrictions_at). }
  destruct (lookup complexTypeField _ _) as [complexType|member|].
  - unfold validateComplexContent, validateParticle, checkOccurs, checkUnexpected.
    apply pushes_andThen; [|positions_with fail].
    apply pushes_forEach. intros particle _.
    apply pushes_andThen; [positions_with fail|].
    apply pushes_forEach. intros child Hin.
    unfold matchingChildrenOf, childElementsOf in Hin.
    apply filter_In in Hin as [Hin _]. apply filter_In in Hin as [Hin _].
    simpl in Hin. rewrite Forall_forall in IH. apply IH. by apply list_elem_of_In.
  - change (truthyFound (Foreign member)) with (Js.truthyInherited member) at 1.
    by destruct (Js.truthyInherited member).
  - done.
Qed.

Lemma validateInherited_at schema xmlNode member line column :
  pushes (at_ line column) (validateInherited schema xmlNode member line column).
Proof.
  unfold validateInherited, validateAttributesOf, validateComplexContent,
    validateParticle, validateSimpleTypeContent, checkOccurs, checkUnexpected.
  positions_with ltac:(first [apply validateRestrictions_at | apply validateElement_at]).
Qed.

(** Every diagnostic [validate] returns is at line 1, column 1, wherever
    in the document the element it is about stands, and its code is one of
    the seventeen of [validatorCodes]. *)
Theorem validate_positions schema xmlNode pushed :
  validate schema xmlNode = Done pushed ->
  Forall (fun e => ValidationError.line e = 1 /\ ValidationError.column e = 1
                   /\ existsb (String.eqb (ValidationError.code e)) validatorCodes = true)
    pushed.
Proof.
  intros Hrun. unfold validate in Hrun.
  destruct (lookup elementField _ _) as [rootElement|member|].
  - pose proof (validateElement_at schema xmlNode rootElement 1 1) as Hat.
    by rewrite Hrun in Hat.
  - destruct (Js.truthyInherited member).
    + pose proof (validateInherited_at schema xmlNode member 1 1) as Hat.
      by rewrite Hrun in Hat.
    + injection Hrun as <-. by repeat constructor.
  - injection Hrun as <-. by repeat constructor.
Qed.

(** ** Exceptions *)

(** The pattern facets among [restrictions] are regular expressions. *)
Definition compiles (restriction : XsdRestriction.t) : Prop :=
  XsdRestriction.type restriction = "pattern" ->
  RegExp (StringOf (XsdRestriction.value restriction)) <> None.

Definition elementCompiles (xsdElement : XsdElement.t) : Prop :=
  match XsdElement.restrictions xsdElement with
  | Some restrictions => Forall compiles restrictions
  | None => True
  end.

(** Every pattern facet the validator can come to is a regular
    expression: those of the root definitions, of the particles of the
    complex types and of the simple types. *)
Definition schemaCompiles (schema : XsdSchema.t) : Prop :=
  (forall key xsdElement,
     XsdSchema.elements schema !! key = Some xsdElement -> elementCompiles xsdElement)
  /\ (forall key complexType,
        XsdSchema.complexTypes schema !! key = Some complexType ->
        Forall elementCompiles (XsdComplexType.elements complexType))
  /\ (forall key simpleType,
        XsdSchema.simpleTypes schema !! key = Some simpleType ->
        Forall compiles (XsdSimpleType.restrictions simpleType)).

(** The mappings of the types inherit nothing the validator comes to: no
    type is named [__proto__], and no element definition the validator can
    come to has a type named like a member of [Object.prototype]. *)
Definition ownType (xsdElement : XsdElement.t) : Prop :=
  Js.objectPrototype (XsdElement.type xsdElement) = None.

Definition schemaOwnTypes (schema : XsdSchema.t) : Prop :=
  XsdSchema.complexTypes schema !! "__proto__" = None
  /\ XsdSchema.simpleTypes schema !! "__proto__" = None
  /\ (forall key xsdElement,
        XsdSchema.elements schema !! key = Some xsdElement -> ownType xsdElement)
  /\ (forall key complexType,
        XsdSchema.complexTypes schema !! key = Some complexType ->
        Forall ownType (XsdComplexType.elements complexType)).

(** A lookup that inherits nothing: the definition of the mapping itself,
    or nothing. *)
Lemma lookup_own {A} (field : A -> string -> option Js.Inherited)
    (mapping : gmap string A) key :
  mapping !! "__proto__" = None -> Js.objectPrototype key = None ->
  lookup field mapping key
  = match mapping !! key with
    | Some x => Own x
    | None => Absent
    end.
Proof. unfold lookup. intros -> ->. by destruct (mapping !! key). Qed.

(** What the element mapping inherits from a definition is no function. *)
Lemma elementField_plain xsdElement key member :
  elementField xsdElement key = Some member -> exists truthy, member = Js.Plain truthy.
Proof.
  unfold elementField. intros Hfield.
  repeat case_match; simplify_eq; by eexists.
Qed.

Ltac completes_with known :=
  repeat first
    [ known
    | exact I
    | apply completes_andThen
    | apply completes_when
    | apply completes_forEach; intros
    | case_match ].

Lemma validateRestrictions_completes value restrictions line column elementName :
  Forall compiles restrictions ->
  completes (validateRestrictions value restrictions line column elementName).
Proof.
  intros Hall. unfold validateRestrictions. apply completes_forEach.
  intros restriction Hin. rewrite Forall_forall in Hall.
  apply list_elem_of_In, Hall in Hin. unfold validateRestriction.
  destruct (_ === "minLength"); [by apply completes_when|].
  destruct (_ === "maxLength"); [by apply completes_when|].
  destruct (_ === "pattern") eqn:Hpattern.
  { apply String.eqb_eq, Hin in Hpattern.
    destruct (RegExp _); [by apply completes_when|done]. }
  completes_with fail.
Qed.

Lemma validateAttributes_completes schema xmlNode xsdElement line column :
  XsdSchema.complexTypes schema !! "__proto__" = None -> ownType xsdElement ->
  completes (validateAttributes schema xmlNode xsdElement line column).
Proof.
  intros Hprototype Htype. unfold validateAttributes, validateAttributesOf.
  rewrite lookup_own by done.
  destruct (XsdSchema.complexTypes schema !! XsdElement.type xsdElement); [|exact I].
  unfold addError. completes_with fail.
Qed.

Lemma validateElement_completes schema xmlNode : forall xsdElement line column,
  schemaCompiles schema -> schemaOwnTypes schema ->
  elementCompiles xsdElement -> ownType xsdElement ->
  completes (validateElement schema xmlNode xsdElement line column).
Proof.
  induction xmlNode as [name attributes children text IH] using XmlNode_induction.
  intros xsdElement line column Hschema Hown Helement Htype.
  destruct Hschema as (Helements & Hcomplex & Hsimple).
  destruct (Hown) as (Hcomplex' & Hsimple' & _ & Hparticles).
  rewrite validateElement_unfold.
  destruct (_ !== _); [done|].
  apply completes_andThen; [by apply validateAttributes_completes|].
  rewrite !lookup_own by done.
  unfold elementCompiles in Helement.
  destruct (isBuiltInType _).
  { unfold validateSimpleContent, addError.
    destruct (_ && _); [done|]. apply completes_andThen; [by apply completes_when|].
    destruct (XsdElement.restrictions xsdElement); [|done].
    by apply validateRestrictions_completes. }
  destruct (XsdSchema.complexTypes schema !! XsdElement.type xsdElement)
    as [complexType|] eqn:Hct.
  - unfold validateComplexContent, validateParticle, checkOccurs, checkUnexpected, addError.
    apply completes_andThen; [|completes_with fail].
    apply completes_forEach. intros particle Hparticle.
    apply completes_andThen; [completes_with fail|].
    apply completes_forEach. intros child Hin.
    unfold matchingChildrenOf, childElementsOf in Hin.
    apply filter_In in Hin as [Hin _]. apply filter_In in Hin as [Hin _].
    simpl in Hin. rewrite Forall_forall in IH.
    apply IH; [by apply list_elem_of_In|done|done|..].
    + specialize (Hcomplex _ _ Hct). rewrite Forall_forall in Hcomplex.
      by apply Hcomplex, list_elem_of_In.
    + specialize (Hparticles _ _ Hct). rewrite Forall_forall in Hparticles.
      by apply Hparticles, list_elem_of_In.
  - simpl truthyFound. cbv iota.
    destruct (XsdSchema.simpleTypes schema !! XsdElement.type xsdElement)
      as [simpleType|] eqn:Hst.
    { unfold validateSimpleTypeContent, addError.
      apply completes_andThen; [by apply completes_when|].
      apply validateRestrictions_completes. by eapply Hsimple. }
    destruct (Js.startsWith _ _); [|done].
    unfold validateInlineContent.
    destruct (XsdElement.restrictions xsdElement); [|done].
    by apply validateRestrictions_completes.
Qed.

(** On a schema all of whose pattern facets are regular expressions and
    whose mappings of types inherit nothing the validator comes to,
    [validate] returns its list for every document whose root is not named
    like a method of [Object.prototype]. The exceptions that escape
    otherwise are that of a pattern facet that does not compile and the
    TypeError of using an inherited value as a definition. *)
Theorem validate_returns schema xmlNode :
  schemaCompiles schema -> schemaOwnTypes schema ->
  Js.objectPrototype (XmlNode.name xmlNode) <> Some (Js.Method (XmlNode.name xmlNode)) ->
  exists pushed, validate schema xmlNode = Done pushed.
Proof.
  intros Hschema Hown Hroot. apply completes_Done. unfold validate, lookup.
  destruct (XsdSchema.elements schema !! XmlNode.name xmlNode)
    as [rootElement|] eqn:Hlookup.
  { destruct (Hschema) as (Helements & _). destruct (Hown) as (_ & _ & Htypes & _).
    apply validateElement_completes; [done|done|..].
    - by eapply Helements.
    - by eapply Htypes. }
  assert (forall truthy, completes (validateInherited schema xmlNode (Js.Plain truthy) 1 1))
    as Hplain by done.
  destruct (_ ≫= _) as [member|] eqn:Hfield.
  { destruct (XsdSchema.elements schema !! "__proto__") as [prototype|]; [|done].
    apply elementField_plain in Hfield as [truthy ->]. simpl.
    by destruct truthy. }
  destruct (Js.objectPrototype _) as [[method|truthy]|]; simpl; [|by destruct truthy|done].
  unfold validateInherited.
  destruct (_ !== _) eqn:Hname; [done|].
  apply negb_false_iff, String.eqb_eq in Hname. by rewrite <- Hname in Hroot.
Qed.

End WithPlatform.
End Diagnostics.
(** * The validator: what it does not check *)

Module Unchecked.
Import Types XmlValidator XmlValidatorFacts.

Lemma filter_filter {A} (f g : A -> bool) (l : list A) :
  List.filter f (List.filter g l) = List.filter g (List.filter f l).
Proof.
  induction l as [|x l IH]; simpl; [done|].
  destruct (f x) eqn:Hf, (g x) eqn:Hg; simpl; rewrite ?Hf, ?Hg, IH; done.
Qed.

(** The twelve built-in names hold no colon. *)
Lemma prefixed_not_builtIn type :
  1 <= QualifiedNames.colons type -> isBuiltInType type = false.
Proof.
  intros Hcolon. unfold isBuiltInType. simpl.
  repeat match goal with
    | |- context [type === ?name] =>
        replace (type === name) with false
          by (symmetry; apply String.eqb_neq; intros ->; simpl in Hcolon; lia)
    end.
  done.
Qed.

(** A definition of the mapping itself is what a lookup gives. *)
Lemma lookup_Some {A} (field : A -> string -> option Js.Inherited)
    (mapping : gmap string A) key x :
  mapping !! key = Some x -> lookup field mapping key = Own x.
Proof. unfold lookup. by intros ->. Qed.

(** A key the mapping does not hold, that names no property of the
    definitions and no member of [Object.prototype], gives nothing. *)
Lemma lookup_None {A} (field : A -> string -> option Js.Inherited)
    (mapping : gmap string A) key :
  mapping !! key = None -> (forall prototype, field prototype key = None) ->
  Js.objectPrototype key = None -> lookup field mapping key = Absent.
Proof.
  intros Hkey Hfield Hmember. unfold lookup. rewrite Hkey, Hmember.
  destruct (mapping !! "__proto__"); simpl; by rewrite ?Hfield.
Qed.

(** The names of the properties of a type and of the members of
    [Object.prototype] hold no colon. *)
Lemma prefixed_not_inherited `{Numbers} key :
  1 <= QualifiedNames.colons key ->
  Js.objectPrototype key = None
  /\ (forall complexType, complexTypeField complexType key = None)
  /\ (forall simpleType, simpleTypeField simpleType key = None).
Proof.
  intros Hcolon.
  assert (forall name, QualifiedNames.colons name = 0 -> (key === name) = false) as Hother.
  { intros name Hname. apply String.eqb_neq. intros ->. lia. }
  unfold Js.objectPrototype, complexTypeField, simpleTypeField. simpl existsb.
  by rewrite !Hother.
Qed.

Section WithPlatform.
Context `{Platform}.

(** The child elements of [xmlNode] are all declared in [complexType]. *)
Definition allDeclared (complexType : XsdComplexType.t) (children : list XmlNode.t) : bool :=
  forallb
    (fun child =>
       existsb (fun xsdEl => XsdElement.name xsdEl === XmlNode.name child)
         (XsdComplexType.elements complexType))
    (List.filter (fun child => XmlNode.name child !== "#text") children).

(** [children'] holds the children of each name in the order [children]
    holds them. *)
Definition sameByName (children children' : list XmlNode.t) : Prop :=
  forall name,
    List.filter (fun child => XmlNode.name child === name) children
    = List.filter (fun child => XmlNode.name child === name) children'.

Lemma sameByName_In children children' child :
  sameByName children children' -> In child children' -> In child children.
Proof.
  intros Hsame Hin. specialize (Hsame (XmlNode.name child)).
  assert (Hin' : In child (List.filter (fun c => XmlNode.name c === XmlNode.name child)
                             children')).
  { apply filter_In. split; [done|]. apply String.eqb_refl. }
  rewrite <- Hsame in Hin'. by apply filter_In in Hin' as [? _].
Qed.

Lemma validateComplexContent_order schema name attributes text children children'
    complexType line column :
  sameByName children children' ->
  allDeclared complexType children = true ->
  validateComplexContent schema (XmlNode.mk name attributes children text)
    complexType line column
  = validateComplexContent schema (XmlNode.mk name attributes children' text)
      complexType line column.
Proof.
  intros Hsame Hdeclared. unfold validateComplexContent, childElementsOf. simpl.
  assert (Hmatch : forall particle,
            matchingChildrenOf (List.filter (fun child => XmlNode.name child !== "#text")
                                  children) particle
            = matchingChildrenOf (List.filter (fun child => XmlNode.name child !== "#text")
                                    children') particle).
  { intros particle. unfold matchingChildrenOf.
    by rewrite !(filter_filter _ (fun child => XmlNode.name child !== "#text")), Hsame. }
  assert (Hunexpected : forall l,
            (forall child, In child l -> In child children) ->
            checkUnexpected (List.filter (fun child => XmlNode.name child !== "#text") l)
              complexType line column = skip).
  { intros l Hl. unfold checkUnexpected. apply forEach_skip. intros child Hin.
    unfold allDeclared in Hdeclared. rewrite forallb_forall in Hdeclared.
    rewrite Hdeclared; [done|].
    apply filter_In in Hin as [Hin Htext]. apply filter_In. split; [by apply Hl|done]. }
  rewrite !Hunexpected; [|by intros; eapply sameByName_In|done].
  f_equal. apply forEach_ext. intros particle _. unfold validateParticle.
  by rewrite Hmatch.
Qed.

(** The order of children of different names is not looked at: two
    elements of a complex type that differ only in their children, all of
    them declared in the type and, name by name, the same children in the
    same order, get the same diagnostics. *)
Theorem sequence_order_unchecked schema name attributes text children children'
    xsdElement complexType line column :
  isBuiltInType (XsdElement.type xsdElement) = false ->
  XsdSchema.complexTypes schema !! XsdElement.type xsdElement = Some complexType ->
  sameByName children children' ->
  allDeclared complexType children = true ->
  validateElement schema (XmlNode.mk name attributes children text) xsdElement line column
  = validateElement schema (XmlNode.mk name attributes children' text) xsdElement
      line column.
Proof.
  intros Hbuiltin Htype Hsame Hdeclared. rewrite !validateElement_unfold.
  rewrite Hbuiltin, (lookup_Some _ _ _ _ Htype).
  rewrite (validateComplexContent_order _ _ _ _ _ _ _ _ _ Hsame Hdeclared).
  unfold validateAttributes, validateAttributesOf. by rewrite (lookup_Some _ _ _ _ Htype).
Qed.

(** An element whose declared type is none of the built-in names as they
    are written, gives nothing in the mappings of the types and carries no
    inline restrictions is not checked at all, whatever its attributes,
    text and children. *)
Lemma validateElement_unresolved schema xmlNode xsdElement line column :
  XmlNode.name xmlNode = XsdElement.name xsdElement ->
  isBuiltInType (XsdElement.type xsdElement) = false ->
  lookup complexTypeField (XsdSchema.complexTypes schema) (XsdElement.type xsdElement)
  = Absent ->
  lookup simpleTypeField (XsdSchema.simpleTypes schema) (XsdElement.type xsdElement)
  = Absent ->
  XsdElement.restrictions xsdElement = None ->
  validateElement schema xmlNode xsdElement line column = Done [].
Proof.
  intros Hname Hbuiltin Hcomplex Hsimple Hnone. rewrite validateElement_unfold.
  rewrite Hname, String.eqb_refl. simpl negb. cbv iota.
  unfold validateAttributes, validateAttributesOf, validateInlineContent.
  rewrite Hbuiltin, Hcomplex, Hsimple, Hnone. simpl. by destruct (Js.startsWith _ _).
Qed.

(** A type written with a prefix, as in [type='xs:string'], is none of the
    built-in names: an element so declared, with no type of that name in
    the schema, is accepted whatever it holds. *)
Theorem prefixed_type_unchecked schema xmlNode xsdElement line column :
  1 <= QualifiedNames.colons (XsdElement.type xsdElement) ->
  XmlNode.name xmlNode = XsdElement.name xsdElement ->
  XsdSchema.complexTypes schema !! XsdElement.type xsdElement = None ->
  XsdSchema.simpleTypes schema !! XsdElement.type xsdElement = None ->
  XsdElement.restrictions xsdElement = None ->
  validateElement schema xmlNode xsdElement line column = Done [].
Proof.
  intros Hcolon Hname Hcomplex Hsimple Hnone.
  destruct (prefixed_not_inherited _ Hcolon) as (Hmember & Hfields & Hfields').
  apply validateElement_unresolved; try done.
  - by apply prefixed_not_builtIn.
  - by apply lookup_None.
  - by apply lookup_None.
Qed.

End WithPlatform.
End Unchecked.
Module InlineTypes.
Import Types XsdParser XmlValidator.

#[local] Arguments String.append : simpl nomatch.

Section WithPlatform.
Context `{Platform}.

Definition isLocal (localName : string) (child : XmlNode.t) : bool :=
  getLocalName (XmlNode.name child) === localName.

(** An element declared with an inline [complexType] and no inline
    [simpleType]: the builder gives it the type [#inline-] followed by its
    name and no restrictions, and keeps nothing of the complex type. *)
Lemma parseElement_inline elementNode :
  existsb (isLocal "complexType") (XmlNode.children elementNode) = true ->
  existsb (isLocal "simpleType") (XmlNode.children elementNode) = false ->
  parseElement elementNode
  = XsdElement.mk (XsdElement.name (newElement elementNode))
      ("#inline-" ++ XsdElement.name (newElement elementNode))
      (XsdElement.minOccurs (newElement elementNode))
      (XsdElement.maxOccurs (newElement elementNode)) [] [] None.
Proof.
  destruct elementNode as [name attributes children text].
  intros Hcomplex Hsimple. simpl in Hcomplex, Hsimple.
  unfold parseElement. fold parseComplexType.
  set (start := newElement (XmlNode.mk name attributes children text)).
  simpl XmlNode.children.
  assert (Hstart : XsdElement.attributes start = [] /\ XsdElement.children start = []
                   /\ XsdElement.restrictions start = None) by done.
  match goal with
  | |- fold_left ?step _ _ = _ =>
      assert (Hstep : forall children element,
                existsb (isLocal "simpleType") children = false ->
                XsdElement.attributes element = [] -> XsdElement.children element = [] ->
                XsdElement.restrictions element = None ->
                fold_left step children element
                = if existsb (isLocal "complexType") children
                  then XsdElement.mk (XsdElement.name element)
                         ("#inline-" ++ XsdElement.name element)
                         (XsdElement.minOccurs element) (XsdElement.maxOccurs element)
                         [] [] None
                  else element)
  end.
  { clear. induction children as [|child children IH] using rev_ind;
      intros element Hsimple Ha Hc Hr; [done|].
    rewrite existsb_app in Hsimple. apply orb_false_elim in Hsimple as [Hsimple Hchild].
    simpl in Hchild. rewrite orb_false_r in Hchild. unfold isLocal in Hchild.
    rewrite fold_left_app, existsb_app. cbn [fold_left existsb]. rewrite orb_false_r.
    rewrite (IH element Hsimple Ha Hc Hr).
    destruct (existsb (isLocal "complexType") children); unfold isLocal;
      rewrite Hchild; destruct (getLocalName (XmlNode.name child) === "complexType");
      unfold setType; destruct element; simpl in *; by subst. }
  destruct Hstart as (Ha & Hc & Hr).
  rewrite (Hstep children start Hsimple Ha Hc Hr), Hcomplex. done.
Qed.

(** Such an element is not checked: a node of its name is accepted
    whatever its attributes, text and children. *)
Theorem inline_complexType_unchecked elementNode schema xmlNode line column :
  existsb (isLocal "complexType") (XmlNode.children elementNode) = true ->
  existsb (isLocal "simpleType") (XmlNode.children elementNode) = false ->
  XsdSchema.complexTypes schema !! XsdElement.type (parseElement elementNode) = None ->
  XsdSchema.simpleTypes schema !! XsdElement.type (parseElement elementNode) = None ->
  XmlNode.name xmlNode = XsdElement.name (parseElement elementNode) ->
  validateElement schema xmlNode (parseElement elementNode) line column = Done [].
Proof.
  intros Hcomplex Hsimple. rewrite (parseElement_inline _ Hcomplex Hsimple).
  intros Hct Hst Hname.
  apply Unchecked.validateElement_unresolved; try done;
    by apply Unchecked.lookup_None.
Qed.

End WithPlatform.
End InlineTypes.
(** * The schema builder: what a built schema holds *)

Module BuiltSchema.
Import Types XsdParser.

#[local] Arguments String.append : simpl nomatch.

(** A name is split at its first colon: the local name is what follows
    it, and a name without a colon is its own local name. *)
Theorem getLocalName_split `{Platform} :
  (forall name, QualifiedNames.colons name = 0 -> getLocalName name = name)
  /\ (forall prefix localName,
        QualifiedNames.colons prefix = 0 ->
        getLocalName (prefix ++ String ":" localName) = localName).
Proof.
  split.
  - intros name Hnone. unfold getLocalName.
    pose proof (QualifiedNames.indexOf_colon name) as Hsplit.
    destruct (Js.indexOf ":" name) as [colonIndex|]; [|done].
    destruct Hsplit as (prefix & Hname & _). rewrite Hname in Hnone.
    rewrite QualifiedNames.colons_app in Hnone. simpl in Hnone. lia.
  - intros prefix localName Hnone. unfold getLocalName.
    pose proof (QualifiedNames.indexOf_colon (prefix ++ String ":" localName)) as Hsplit.
    destruct (Js.indexOf ":" _) as [colonIndex|].
    + destruct Hsplit as (prefix' & Hname & Hnone').
      by destruct (QualifiedNames.first_colon_unique _ _ _ _ Hnone Hnone' Hname).
    + rewrite QualifiedNames.colons_app in Hsplit. simpl in Hsplit. lia.
Qed.

Section WithPlatform.
Context `{Platform}.

(** The schema-level child [child] declares the element [name]. *)
Definition declaresElement (name : string) (child : XmlNode.t) : bool :=
  (getLocalName (XmlNode.name child) === "element")
  && (XsdElement.name (parseElement child) === name).

Definition declaresComplexType (name : string) (child : XmlNode.t) : bool :=
  (getLocalName (XmlNode.name child) === "complexType")
  && (XsdComplexType.name (parseComplexType child) === name).

Definition declaresSimpleType (name : string) (child : XmlNode.t) : bool :=
  (getLocalName (XmlNode.name child) === "simpleType")
  && (XsdSimpleType.name (parseSimpleType child) === name).

(** [mapping[name]] for a mapping to which the definitions [declared]
    have been assigned, each under its name: the definition of the name;
    or else what the definition named [__proto__], which the assignment
    has made the prototype of the mapping, has under [name]; or else what
    [Object.prototype] has. *)
Definition read {A} (field : A -> string -> option Js.Inherited)
    (declared : string -> option A) (name : string) : XmlValidator.Found A :=
  match declared name with
  | Some x => XmlValidator.Own x
  | None =>
      match declared "__proto__" ≫= (fun prototype => field prototype name) with
      | Some member => XmlValidator.Foreign member
      | None =>
          match Js.objectPrototype name with
          | Some member => XmlValidator.Foreign member
          | None => XmlValidator.Absent
          end
      end
  end.

(** The definitions assigned to the three mappings of a built schema:
    under a name, what the last child of the schema element that declares
    the name gives. *)
Lemma buildSchema_assigned schemaNode schema name :
  buildSchema schemaNode = inl schema ->
  XsdSchema.elements schema !! name
  = parseElement <$> List.find (declaresElement name) (rev (XmlNode.children schemaNode))
  /\ XsdSchema.complexTypes schema !! name
     = parseComplexType
         <$> List.find (declaresComplexType name) (rev (XmlNode.children schemaNode))
  /\ XsdSchema.simpleTypes schema !! name
     = parseSimpleType
         <$> List.find (declaresSimpleType name) (rev (XmlNode.children schemaNode)).
Proof.
  unfold buildSchema. destruct (_ && _); [done|]. intros [= <-].
  match goal with
  | |- context [fold_left ?step _ ?start] =>
      assert (Hstep : forall children s,
                let built := fold_left step children s in
                XsdSchema.elements built !! name
                = match List.find (declaresElement name) (rev children) with
                  | Some child => Some (parseElement child)
                  | None => XsdSchema.elements s !! name
                  end
                /\ XsdSchema.complexTypes built !! name
                   = match List.find (declaresComplexType name) (rev children) with
                     | Some child => Some (parseComplexType child)
                     | None => XsdSchema.complexTypes s !! name
                     end
                /\ XsdSchema.simpleTypes built !! name
                   = match List.find (declaresSimpleType name) (rev children) with
                     | Some child => Some (parseSimpleType child)
                     | None => XsdSchema.simpleTypes s !! name
                     end)
  end.
  { induction children as [|child children IH] using rev_ind; intros s; [done|].
    cbv zeta. rewrite fold_left_app, rev_app_distr. simpl rev. simpl app.
    cbn [fold_left List.find].
    destruct (IH s) as (IHe & IHc & IHs). cbv zeta in IHe, IHc, IHs.
    unfold declaresElement, declaresComplexType, declaresSimpleType.
    destruct (getLocalName (XmlNode.name child) === "element") eqn:Helement.
    { apply String.eqb_eq in Helement as Hlocal. rewrite ?Hlocal. simpl.
      rewrite lookup_insert. case_decide as Hkey.
      - rewrite Hkey, String.eqb_refl. done.
      - apply String.eqb_neq in Hkey. rewrite Hkey. done. }
    destruct (getLocalName (XmlNode.name child) === "complexType") eqn:Hcomplex.
    { apply String.eqb_eq in Hcomplex as Hlocal. rewrite ?Hlocal. simpl.
      rewrite lookup_insert. case_decide as Hkey.
      - rewrite Hkey, String.eqb_refl. done.
      - apply String.eqb_neq in Hkey. rewrite Hkey. done. }
    destruct (getLocalName (XmlNode.name child) === "simpleType") eqn:Hsimple.
    { apply String.eqb_eq in Hsimple as Hlocal. rewrite ?Hlocal. simpl.
      rewrite lookup_insert. case_decide as Hkey.
      - rewrite Hkey, String.eqb_refl. done.
      - apply String.eqb_neq in Hkey. rewrite Hkey. done. }
    simpl. done. }
  destruct (Hstep (XmlNode.children schemaNode)
              (XsdSchema.mk (Js.get "targetNamespace" (XmlNode.attributes schemaNode))
                 ∅ ∅ ∅ (parseNamespaces (XmlNode.attributes schemaNode))))
    as (He & Hc & Hs).
  cbv zeta in He, Hc, Hs. rewrite He, Hc, Hs. simpl.
  repeat apply conj; by destruct (List.find _ _).
Qed.

(** What is found under a name in the three mappings of a built schema:
    what the last child of the schema element that declares the name
    gives, a later declaration replacing an earlier one of the same name;
    and when no child declares the name, what is inherited under it, from
    the last definition named [__proto__] and from [Object.prototype], and
    nothing when nothing is inherited. *)
Theorem buildSchema_lookup schemaNode schema name :
  buildSchema schemaNode = inl schema ->
  XmlValidator.lookup XmlValidator.elementField (XsdSchema.elements schema) name
  = read XmlValidator.elementField
      (fun name =>
         parseElement
           <$> List.find (declaresElement name) (rev (XmlNode.children schemaNode)))
      name
  /\ XmlValidator.lookup XmlValidator.complexTypeField (XsdSchema.complexTypes schema) name
     = read XmlValidator.complexTypeField
         (fun name =>
            parseComplexType
              <$> List.find (declaresComplexType name) (rev (XmlNode.children schemaNode)))
         name
  /\ XmlValidator.lookup XmlValidator.simpleTypeField (XsdSchema.simpleTypes schema) name
     = read XmlValidator.simpleTypeField
         (fun name =>
            parseSimpleType
              <$> List.find (declaresSimpleType name) (rev (XmlNode.children schemaNode)))
         name.
Proof.
  intros Hbuild. unfold XmlValidator.lookup, read.
  destruct (buildSchema_assigned _ _ name Hbuild) as (-> & -> & ->).
  by destruct (buildSchema_assigned _ _ "__proto__" Hbuild) as (-> & -> & ->).
Qed.

End WithPlatform.
End BuiltSchema.
(** * The JSON to XML converter ([src/json-to-xml.ts]) *)

Module JsonToXml.

(** [JsonToXmlOptions], every field optional, and [Required] of it, the
    options of the converter. *)
Module JsonToXmlOptions.
Record t : Type := mk {
  attributePrefix : option string;
  textKey : option string;
  rootElement : option string;
  declaration : option bool;
  indent : option string
}.
End JsonToXmlOptions.

Module Options.
Record t : Type := mk {
  attributePrefix : string;
  textKey : string;
  rootElement : string;
  declaration : bool;
  indent : string
}.
End Options.

Section Values.
Context `{Numbers}.

(** A JSON value; an object is its entries in the order [Object.entries]
    gives them. *)
#[warning="-register-all"]
Inductive Json : Type :=
| JNull
| JBool (b : bool)
| JNumber (n : number)
| JString (s : string)
| JArray (items : list Json)
| JObject (entries : list (string * Json)).

End Values.

Section WithPlatform.
Context `{Platform}.

(** The constructor: [options.x ?? d]. *)
Definition construct (options : JsonToXmlOptions.t) : Options.t :=
  Options.mk
    (default "@" (JsonToXmlOptions.attributePrefix options))
    (default "#text" (JsonToXmlOptions.textKey options))
    (default "root" (JsonToXmlOptions.rootElement options))
    (default true (JsonToXmlOptions.declaration options))
    (default "  " (JsonToXmlOptions.indent options)).

(** [text.replace(/c/g, by)] for one character [c]. *)
Fixpoint replaceAll (c : ascii) (by_ : string) (text : string) : string :=
  match text with
  | "" => ""
  | String d text' =>
      if Ascii.eqb d c then by_ ++ replaceAll c by_ text'
      else String d (replaceAll c by_ text')
  end.

Definition escapeXml (text : string) : string :=
  replaceAll "'" "&apos;"
    (replaceAll Js.QUOTE "&quot;"
       (replaceAll ">" "&gt;"
          (replaceAll "<" "&lt;"
             (replaceAll "&" "&amp;" text)))).

(** [items.join(',')] of strings. *)
Fixpoint join (items : list string) : string :=
  match items with
  | [] => ""
  | [item] => item
  | item :: items' => item ++ "," ++ join items'
  end.

(** [String(value)] *)
Fixpoint toString (value : Json) : string :=
  match value with
  | JNull => "null"
  | JBool true => "true"
  | JBool false => "false"
  | JNumber n => numToString n
  | JString s => s
  | JArray items =>
      join (map (fun item => match item with JNull => "" | _ => toString item end) items)
  | JObject _ => "[object Object]"
  end.

Definition isPrimitive (value : Json) : bool :=
  match value with
  | JNull | JBool _ | JNumber _ | JString _ => true
  | JArray _ | JObject _ => false
  end.

(** [s.repeat(n)] *)
Fixpoint repeat (s : string) (n : nat) : string :=
  match n with
  | 0 => ""
  | S n' => s ++ repeat s n'
  end.

(** [xml.replace('>', by)]: the first occurrence only. *)
Fixpoint replaceFirst (c : ascii) (by_ : string) (text : string) : string :=
  match text with
  | "" => ""
  | String d text' =>
      if Ascii.eqb d c then by_ ++ text' else String d (replaceFirst c by_ text')
  end.

(** [xml.substring(0, xml.length - 1)] *)
Fixpoint dropLast (text : string) : string :=
  match text with
  | "" => ""
  | String _ "" => ""
  | String d text' => String d (dropLast text')
  end.

Record ElementInfo : Type := mkElementInfo {
  attributes : string;
  textContent : string;
  childElements : list string;
  hasAttributes : bool
}.

Section Methods.
Variable options : Options.t.
(** [this.objectToXml], for the calls the other methods make. *)
Variable recur : Json -> string -> nat -> string.

Definition arrayToXml (array : list Json) (elementName : string) (depth : nat) : string :=
  fold_left (fun xml item => xml ++ recur item elementName depth) array "".

Definition addChildElements (value : Json) (key : string) (depth : nat)
    (childElements : list string) : list string :=
  match value with
  | JArray items =>
      fold_left (fun childElements item => childElements ++ [recur item key (depth + 1)])%list
        items childElements
  | _ => (childElements ++ [recur value key (depth + 1)])%list
  end.

Definition processObjectProperties (obj : list (string * Json)) (depth : nat)
  : ElementInfo :=
  fold_left
    (fun info '(key, value) =>
       if Js.startsWith key (Options.attributePrefix options) then
         let attrName := Js.substringFrom (String.length (Options.attributePrefix options)) key in
         mkElementInfo
           (attributes info ++ " " ++ attrName ++ "=" ++ String Js.QUOTE ""
            ++ escapeXml (toString value) ++ String Js.QUOTE "")
           (textContent info) (childElements info) true
       else if key === Options.textKey options then
         mkElementInfo (attributes info) (toString value) (childElements info)
           (hasAttributes info)
       else
         mkElementInfo (attributes info) (textContent info)
           (addChildElements value key depth (childElements info)) (hasAttributes info))
    obj (mkElementInfo "" "" [] false).

Definition addElementContent (xml : string) (elementInfo : ElementInfo)
    (elementName indent_ : string) : string :=
  let nextIndent := indent_ ++ Options.indent options in
  if Js.truthy (textContent elementInfo) && (length (childElements elementInfo) =? 0)
  then xml ++ escapeXml (textContent elementInfo) ++ "</" ++ elementName ++ ">"
       ++ String Js.LF ""
  else if 0 <? length (childElements elementInfo) then
    let xml := xml ++ String Js.LF "" in
    let xml :=
      if Js.truthy (textContent elementInfo)
      then xml ++ nextIndent ++ escapeXml (textContent elementInfo) ++ String Js.LF ""
      else xml in
    let xml := fold_left (fun xml childXml => xml ++ childXml) (childElements elementInfo) xml in
    xml ++ indent_ ++ "</" ++ elementName ++ ">" ++ String Js.LF ""
  else if hasAttributes elementInfo
  then dropLast xml ++ "/>" ++ String Js.LF ""
  else replaceFirst ">" ("/>" ++ String Js.LF "") xml.

Definition complexObjectToXml (obj : list (string * Json)) (elementName : string)
    (depth : nat) : string :=
  let indent_ := repeat (Options.indent options) depth in
  let elementInfo := processObjectProperties obj depth in
  let xml := indent_ ++ "<" ++ elementName ++ attributes elementInfo ++ ">" in
  addElementContent xml elementInfo elementName indent_.

End Methods.

Fixpoint objectToXml (options : Options.t) (obj : Json) (elementName : string) (depth : nat)
    {struct obj} : string :=
  let indent_ := repeat (Options.indent options) depth in
  match obj with
  | JArray array => arrayToXml (objectToXml options) array elementName depth
  | JObject entries =>
      complexObjectToXml options (objectToXml options) entries elementName depth
  | _ =>
      indent_ ++ "<" ++ elementName ++ ">" ++ escapeXml (toString obj)
      ++ "</" ++ elementName ++ ">" ++ String Js.LF ""
  end.

Definition xmlDeclaration : string :=
  "<?xml version=" ++ String Js.QUOTE "1.0" ++ String Js.QUOTE " encoding="
  ++ String Js.QUOTE "UTF-8" ++ String Js.QUOTE "?>" ++ String Js.LF "".

(** [convert(jsonData, rootElement)]; [rootElement] is optional. *)
Definition convert (options : Options.t) (jsonData : Json) (rootElement_ : option string)
  : string :=
  let xml := if Options.declaration options then xmlDeclaration else "" in
  let root := Js.orElse rootElement_ (Options.rootElement options) in
  xml ++ objectToXml options jsonData root 0.

End WithPlatform.
End JsonToXml.
(** * The facade ([src/index.ts]) *)

Module XmlHelper.
Import Types.

Section Fields.
Context `{Numbers}.

(** The two fields [loadSchema] writes. A validator is the schema it was
    constructed with. *)
Record t : Type := mk {
  schema : option XsdSchema.t;
  validator : option XsdSchema.t
}.

(** [new XmlHelper()] *)
Definition new : t := mk None None.

Definition getSchema (this : t) : option XsdSchema.t := schema this.

Definition hasSchema (this : t) : bool :=
  match schema this with
  | Some _ => true
  | None => false
  end.

End Fields.

Section WithPlatform.
Context `{Platform}.


Definition noSchema : ValidationError.t :=
  ValidationError.mk 1 1 "No schema loaded. Call loadSchema() first." "NO_SCHEMA".

Definition parseFailed : ValidationError.t :=
  ValidationError.mk 1 1 "Failed to parse XML" "PARSE_FAILED".

(** [validateXml]: the list returned or the exception that escapes;
    [None] when the call does not return. *)
Definition validateXml (this : t) (xmlContent : string) : option XmlValidator.Outcome :=
  match schema this, validator this with
  | Some _, Some validatorSchema =>
      match XmlParser.parse xmlContent with
      | None => None
      | Some result =>
          if 0 <? length (XmlParser.errors result)
          then Some (XmlValidator.Done (XmlParser.errors result))
          else
            match XmlParser.node result with
            | None => Some (XmlValidator.Done [parseFailed])
            | Some node => Some (XmlValidator.validate validatorSchema node)
            end
      end
  | _, _ => Some (XmlValidator.Done [noSchema])
  end.

Definition parseXml (this : t) (xmlContent : string) : option XmlParser.ParseResult :=
  XmlParser.parse xmlContent.

(** [jsonToXml(jsonData, rootElement?, options?)] *)
Definition jsonToXml (this : t) (jsonData : JsonToXml.Json) (rootElement : option string)
    (options : option JsonToXml.JsonToXmlOptions.t) : string :=
  JsonToXml.convert
    (JsonToXml.construct
       (default (JsonToXml.JsonToXmlOptions.mk None None None None None) options))
    jsonData rootElement.

End WithPlatform.
End XmlHelper.

Module XmlHelperFacts.
Import Types XmlHelper.

Section WithPlatform.
Context `{Platform}.



(** [validateXml] with a schema loaded: the diagnostic of the parser when
    parsing fails, and otherwise what [validate] gives for the tree. The
    diagnostic PARSE_FAILED is never returned. *)
Theorem validateXml_outcomes this loaded xmlContent :
  schema this = Some loaded -> validator this = Some loaded ->
  validateXml this xmlContent
  = match XmlParser.parse xmlContent with
    | None => None
    | Some result =>
        match XmlParser.node result with
        | None => Some (XmlValidator.Done (XmlParser.errors result))
        | Some node => Some (XmlValidator.validate loaded node)
        end
    end.
Proof.
  intros Hschema Hvalidator. unfold validateXml. rewrite Hschema, Hvalidator.
  destruct (XmlParser.parse xmlContent) as [result|] eqn:Hparse; [|done].
  pose proof (parse_result_shape _ _ Hparse) as Hshape.
  destruct (XmlParser.node result) as [node|].
  - by rewrite Hshape.
  - destruct Hshape as (e & -> & _). done.
Qed.

End WithPlatform.
End XmlHelperFacts.
Module JsonToXmlFacts.
Import XmlParser XmlParserFacts JsonToXml.

#[local] Arguments String.append : simpl nomatch.

(** The reference [escapeXml] writes for a character. *)
Definition escapeChar (c : ascii) : string :=
  if Ascii.eqb c "&" then "&amp;"
  else if Ascii.eqb c "<" then "&lt;"
  else if Ascii.eqb c ">" then "&gt;"
  else if Ascii.eqb c Js.QUOTE then "&quot;"
  else if Ascii.eqb c "'" then "&apos;"
  else String c "".

Fixpoint escaped (text : string) : string :=
  match text with
  | "" => ""
  | String c text' => escapeChar c ++ escaped text'
  end.

Lemma replaceAll_app c by_ a b :
  replaceAll c by_ (a ++ b) = replaceAll c by_ a ++ replaceAll c by_ b.
Proof.
  induction a as [|d a IH]; simpl; [done|].
  destruct (Ascii.eqb d c); rewrite IH; [by rewrite append_assoc|done].
Qed.

Lemma replaceAll_cons d by_ c text :
  replaceAll d by_ (String c text) = replaceAll d by_ (String c "") ++ replaceAll d by_ text.
Proof. simpl. destruct (Ascii.eqb c d); [by rewrite append_nil_r|done]. Qed.

Lemma escapeXml_char c : escapeXml (String c "") = escapeChar c.
Proof.
  unfold escapeXml, escapeChar.
  destruct (Ascii.eqb_spec c "&") as [->|Hamp]; [done|].
  destruct (Ascii.eqb_spec c "<") as [->|Hlt]; [done|].
  destruct (Ascii.eqb_spec c ">") as [->|Hgt]; [done|].
  destruct (Ascii.eqb_spec c Js.QUOTE) as [->|Hquot]; [done|].
  destruct (Ascii.eqb_spec c "'") as [->|Hapos]; [done|].
  apply Ascii.eqb_neq in Hamp, Hlt, Hgt, Hquot, Hapos.
  simpl. rewrite Hamp. simpl. rewrite Hlt. simpl. rewrite Hgt. simpl. rewrite Hquot.
  simpl. by rewrite Hapos.
Qed.

(** The five passes of [escapeXml] amount to one pass that writes a
    reference for each of the five characters: no pass touches what an
    earlier pass wrote. *)
Lemma escapeXml_escaped text : escapeXml text = escaped text.
Proof.
  induction text as [|c text IH]; [done|].
  cbn [escaped]. rewrite <- IH, <- escapeXml_char. unfold escapeXml.
  rewrite (replaceAll_cons "&"). by rewrite !replaceAll_app.
Qed.

Definition markupFree (c : ascii) : bool :=
  negb (Ascii.eqb c "<" || Ascii.eqb c ">" || Ascii.eqb c Js.QUOTE || Ascii.eqb c "'").

Lemma escapeChar_markupFree c : all markupFree (escapeChar c) = true.
Proof.
  unfold escapeChar.
  destruct (Ascii.eqb_spec c "&") as [->|Hamp]; [done|].
  destruct (Ascii.eqb_spec c "<") as [->|Hlt]; [done|].
  destruct (Ascii.eqb_spec c ">") as [->|Hgt]; [done|].
  destruct (Ascii.eqb_spec c Js.QUOTE) as [->|Hquot]; [done|].
  destruct (Ascii.eqb_spec c "'") as [->|Hapos]; [done|].
  apply Ascii.eqb_neq in Hlt, Hgt, Hquot, Hapos.
  simpl. unfold markupFree. by rewrite Hlt, Hgt, Hquot, Hapos.
Qed.

Lemma escaped_markupFree text : all markupFree (escaped text) = true.
Proof.
  induction text as [|c text IH]; [done|].
  cbn [escaped]. by rewrite XmlParserFacts.all_app, escapeChar_markupFree, IH.
Qed.

(** What [escapeXml] returns holds none of [<], [>], the double and the
    single quote, whatever the text: the five passes, taken in their
    order, leave no character of the text that is markup. *)
Theorem escapeXml_markupFree text : all markupFree (escapeXml text) = true.
Proof. rewrite escapeXml_escaped. apply escaped_markupFree. Qed.

Section WithPlatform.
Context `{Platform}.

Definition notSemicolon (c : ascii) : bool := negb (Ascii.eqb c ";").

Lemma parseEntityLoop_run w : forall fuel acc st r,
  remaining st = w ++ String ";" r -> all notSemicolon w = true ->
  String.length w < fuel ->
  exists st', parseEntityLoop fuel acc st = Ok (acc ++ w) st'
              /\ remaining st' = String ";" r.
Proof.
  induction w as [|c w IH]; intros fuel acc st r Hr Hall Hfuel;
    (destruct fuel as [|fuel]; [simpl in Hfuel; lia|]); simpl in Hr; looking Hr;
    simpl; rewrite Hb, Hc.
  - rewrite append_nil_r. by exists st.
  - simpl in Hall. apply andb_prop in Hall as [Hn Hall].
    unfold notSemicolon in Hn. apply negb_true_iff, Ascii.eqb_neq in Hn.
    rewrite (eqb_char_false c ";" Hn). simpl.
    unfold bind, advance.
    destruct (IH fuel (acc ++ String c "") (advanceState st) r Ha Hall)
      as (st' & Hrun & Hrem); [simpl in Hfuel; lia|].
    exists st'. rewrite Hrun. by rewrite append_assoc.
Qed.

Lemma parseEntity_run entity fuel st r :
  remaining st = String "&" (entity ++ String ";" r) -> all notSemicolon entity = true ->
  String.length entity < fuel ->
  exists st', parseEntity fuel st = Ok (decodeEntity entity) st' /\ remaining st' = r.
Proof.
  intros Hr Hall Hfuel. looking Hr. unfold parseEntity. rewrite Hc. simpl.
  unfold bind at 1, advance at 1. clear Hb Hc Hp.
  destruct (parseEntityLoop_run entity fuel "" _ r Ha Hall Hfuel) as (st1 & Hrun & Hrem).
  unfold bind at 1. rewrite Hrun. simpl String.append.
  looking Hrem. rewrite Hc. simpl. unfold bind, advance, ret. by eexists.
Qed.

(** An attribute value [escapeXml] wrote, up to the closing quote, is read
    back as it was. *)
Lemma parseAttributeValueLoop_escaped value : forall fuel acc st r,
  remaining st = escaped value ++ String Js.QUOTE r ->
  rem st + 2 <= fuel ->
  exists st',
    parseAttributeValueLoop fuel (String Js.QUOTE "") acc st = Ok (acc ++ value) st'
    /\ remaining st' = String Js.QUOTE r.
Proof.
  induction value as [|c value IH]; intros fuel acc st r Hr Hfuel;
    (destruct fuel as [|fuel]; [lia|]).
  { simpl in Hr. looking Hr. simpl. rewrite Hb, Hc. simpl.
    rewrite append_nil_r. by exists st. }
  cbn [escaped] in Hr. rewrite append_assoc in Hr.
  assert (Hlen : rem st = String.length (escapeChar c)
                          + String.length (escaped value ++ String Js.QUOTE r)).
  { by rewrite <- remaining_length, Hr, append_length. }
  assert (Hentity : forall entity,
            escapeChar c = String "&" (entity ++ ";") ->
            all notSemicolon entity = true -> decodeEntity entity = String c "" ->
            exists st',
              parseAttributeValueLoop (S fuel) (String Js.QUOTE "") acc st
              = Ok (acc ++ String c value) st'
              /\ remaining st' = String Js.QUOTE r).
  { intros entity Hesc Hall Hdecode. rewrite Hesc in Hr, Hlen.
    change (String "&" (entity ++ ";") ++ escaped value ++ String Js.QUOTE r)
      with (String "&" ((entity ++ ";") ++ escaped value ++ String Js.QUOTE r)) in Hr.
    rewrite append_assoc in Hr. change (";" ++ ?x) with (String ";" x) in Hr.
    simpl String.length in Hlen. rewrite append_length in Hlen. simpl in Hlen.
    pose proof Hr as Hr'. looking Hr'. simpl parseAttributeValueLoop.
    rewrite Hb, Hc. simpl.
    destruct (parseEntity_run entity fuel st _ Hr Hall) as (st1 & Hrun & Hrem1); [lia|].
    unfold bind at 1. rewrite Hrun, Hdecode.
    destruct (IH fuel (acc ++ String c "") st1 r Hrem1) as (st' & Hrun' & Hrem').
    { rewrite <- remaining_length, Hrem1. lia. }
    exists st'. rewrite Hrun'. by rewrite append_assoc. }
  unfold escapeChar in Hr, Hlen, Hentity.
  destruct (Ascii.eqb_spec c "&") as [->|Hamp]; [by apply (Hentity "amp")|].
  destruct (Ascii.eqb_spec c "<") as [->|Hlt]; [by apply (Hentity "lt")|].
  destruct (Ascii.eqb_spec c ">") as [->|Hgt]; [by apply (Hentity "gt")|].
  destruct (Ascii.eqb_spec c Js.QUOTE) as [->|Hquot]; [by apply (Hentity "quot")|].
  destruct (Ascii.eqb_spec c "'") as [->|Hapos]; [by apply (Hentity "apos")|].
  clear Hentity. simpl in Hr, Hlen. looking Hr. simpl parseAttributeValueLoop.
  rewrite Hb, Hc, (eqb_char_false c Js.QUOTE Hquot), (eqb_char_false c "&" Hamp). simpl.
  unfold bind, advance.
  destruct (IH fuel (acc ++ String c "") (advanceState st) r Ha) as (st' & Hrun' & Hrem').
  { rewrite <- remaining_length, Ha. lia. }
  exists st'. rewrite Hrun'. by rewrite append_assoc.
Qed.

Lemma parseAttributeValue_escaped value fuel st r :
  remaining st = String Js.QUOTE (escaped value ++ String Js.QUOTE r) ->
  rem st + 2 <= fuel ->
  exists st', parseAttributeValue fuel st = Ok value st' /\ remaining st' = r.
Proof.
  intros Hr Hfuel.
  assert (Hlen : rem st = S (String.length (escaped value ++ String Js.QUOTE r))).
  { by rewrite <- remaining_length, Hr. }
  looking Hr. unfold parseAttributeValue. rewrite Hc. simpl.
  unfold bind at 1, advance at 1. clear Hb Hc Hp.
  destruct (parseAttributeValueLoop_escaped value fuel "" _ r Ha) as (st1 & Hrun & Hrem1).
  { rewrite <- remaining_length, Ha. lia. }
  unfold bind at 1. rewrite Hrun. simpl String.append.
  looking Hrem1. rewrite Hc. simpl. unfold bind, advance, ret. by eexists.
Qed.

(** ** Attributes as the converter writes them *)

Definition renderAttribute (attribute : string * string) : string :=
  " " ++ attribute.1 ++ "=" ++ String Js.QUOTE (escapeXml attribute.2 ++ String Js.QUOTE "").

Fixpoint renderAttributes (attributes : list (string * string)) : string :=
  match attributes with
  | [] => ""
  | attribute :: attributes' => renderAttribute attribute ++ renderAttributes attributes'
  end.

Definition setAll (attributes : list (string * string)) (start : Js.Dict) : Js.Dict :=
  fold_left (fun object attribute => Js.set attribute.1 attribute.2 object) attributes start.

Lemma nameStart_solid c : nameStart c = true -> space c = false.
Proof.
  unfold nameStart, space, isNameStartChar, isWhitespace. intros Hstart.
  destruct (String c "" === " ") eqn:H1;
    [apply String.eqb_eq in H1; injection H1 as ->; done|].
  destruct (String c "" === String Js.TAB "") eqn:H2;
    [apply String.eqb_eq in H2; injection H2 as ->; done|].
  destruct (String c "" === String Js.LF "") eqn:H3;
    [apply String.eqb_eq in H3; injection H3 as ->; done|].
  destruct (String c "" === String Js.CR "") eqn:H4;
    [apply String.eqb_eq in H4; injection H4 as ->; done|].
  done.
Qed.

Lemma parseAttributesLoop_rendered attributes : forall fuel start st c r,
  forallb (fun attribute => validName attribute.1) attributes = true ->
  remaining st = renderAttributes attributes ++ String c r ->
  c = "/"%char \/ c = ">"%char ->
  rem st + 3 <= fuel ->
  exists st',
    parseAttributesLoop fuel start st = Ok (setAll attributes start) st'
    /\ remaining st' = String c r.
Proof.
  induction attributes as [|[key value] attributes IH];
    intros fuel start st c0 r Hnames Hr Hstop Hfuel;
    (destruct fuel as [|fuel]; [lia|]).
  { simpl in Hr. pose proof Hr as Hr'. looking Hr'. simpl parseAttributesLoop. rewrite Hb.
    destruct (skipWhitespace_run fuel st ltac:(lia)) as (st1 & Hrun & Hrem1).
    unfold bind at 1. rewrite Hrun. rewrite Hr in Hrem1.
    assert (Hd : dropSpaces (String c0 r) = String c0 r) by (by destruct Hstop as [->| ->]).
    rewrite Hd in Hrem1. looking Hrem1. rewrite Hc0.
    exists st1. by destruct Hstop as [->| ->]. }
  simpl in Hnames. apply andb_prop in Hnames as [Hkey Hnames].
  destruct (validName_start _ Hkey) as (c & w & Hname & Hstart & _).
  cbn [renderAttributes] in Hr. unfold renderAttribute in Hr. simpl fst in Hr. simpl snd in Hr.
  rewrite escapeXml_escaped in Hr.
  set (rest := renderAttributes attributes ++ String c0 r) in *.
  assert (Hr1 : remaining st
                = String " " (key ++ String "=" (String Js.QUOTE
                     (escaped value ++ String Js.QUOTE rest)))).
  { rewrite Hr. simpl. rewrite !append_assoc. simpl. by rewrite !append_assoc. }
  clear Hr.
  assert (Hlen : rem st = 4 + String.length key + String.length (escaped value)
                          + String.length rest).
  { rewrite <- remaining_length, Hr1. simpl. rewrite !append_length. simpl.
    rewrite append_length. simpl. lia. }
  pose proof Hr1 as Hr'. looking Hr'. simpl parseAttributesLoop. rewrite Hb.
  clear Hb Hc Hp Ha.
  destruct (skipWhitespace_run fuel st ltac:(lia)) as (st1 & Hrun1 & Hrem1).
  unfold bind at 1. rewrite Hrun1. rewrite Hr1 in Hrem1.
  change (dropSpaces (String " " ?x)) with (dropSpaces x) in Hrem1.
  rewrite Hname in Hrem1. simpl in Hrem1. rewrite (nameStart_solid _ Hstart) in Hrem1.
  pose proof Hrem1 as Hrem1'. looking Hrem1'.
  rewrite Hc, !(eqb_char_false c) by (by apply (nameStart_not _ _ Hstart)).
  simpl orb. cbv iota. clear Hb Hc Hp Ha.
  destruct (parseName_run key fuel st1
              (String "=" (String Js.QUOTE (escaped value ++ String Js.QUOTE rest))) Hkey)
    as (st2 & Hrun2 & Hrem2); [by rewrite Hrem1, Hname|done|lia|].
  unfold bind at 1. rewrite Hrun2.
  destruct (skipWhitespace_run fuel st2) as (st3 & Hrun3 & Hrem3).
  { rewrite <- remaining_length, Hrem2. simpl. rewrite append_length. simpl. lia. }
  unfold bind at 1. rewrite Hrun3. rewrite Hrem2 in Hrem3. simpl in Hrem3.
  looking Hrem3. rewrite Hc. simpl negb. cbv iota. clear Hb Hc Hp.
  unfold bind at 1, advance at 1.
  destruct (skipWhitespace_run fuel (advanceState st3)) as (st4 & Hrun4 & Hrem4).
  { rewrite <- remaining_length, Ha. simpl. rewrite append_length. simpl. lia. }
  unfold bind at 1. rewrite Hrun4. rewrite Ha in Hrem4. simpl in Hrem4.
  destruct (parseAttributeValue_escaped value fuel st4 rest Hrem4) as (st5 & Hrun5 & Hrem5).
  { rewrite <- remaining_length, Hrem4. simpl. rewrite append_length. simpl. lia. }
  unfold bind at 1. rewrite Hrun5.
  destruct (IH fuel (Js.set key value start) st5 c0 r Hnames Hrem5 Hstop)
    as (st' & Hrun' & Hrem').
  { rewrite <- remaining_length, Hrem5. lia. }
  exists st'. by rewrite Hrun'.
Qed.

(** An empty element with the attributes the converter writes. *)
Lemma parseElement_rendered name attributes fuel st r :
  validName name = true ->
  forallb (fun attribute => validName attribute.1) attributes = true ->
  remaining st = "<" ++ name ++ renderAttributes attributes ++ "/>" ++ r ->
  rem st + 4 <= fuel ->
  exists st',
    parseElement fuel st = Ok (Types.XmlNode.mk name (setAll attributes []) [] None) st'.
Proof.
  intros Hvalid Hnames Hr Hfuel.
  destruct (validName_start _ Hvalid) as (c & w & Hname & Hstart & _).
  assert (Hlen : rem st = 1 + String.length name
                          + String.length (renderAttributes attributes ++ "/>" ++ r)).
  { rewrite <- remaining_length, Hr. simpl. by rewrite append_length. }
  destruct fuel as [|fuel]; [lia|]. simpl in Hr. looking Hr.
  simpl parseElement. rewrite Hc. decide_tests.
  unfold bind at 1, advance at 1. clear Hb Hc Hp.
  assert (Hcur : current (advanceState st) = String c "").
  { rewrite Hname in Ha. simpl in Ha. by destruct (look _ _ _ Ha) as (_ & -> & _). }
  rewrite Hcur, (eqb_char_false c "/") by (by apply (nameStart_not _ _ Hstart)).
  destruct (parseName_run name fuel _ (renderAttributes attributes ++ "/>" ++ r) Hvalid Ha)
    as (st1 & Hrun1 & Hrem1); [|lia|].
  { destruct attributes as [|[key value] attributes]; done. }
  unfold bind at 1. rewrite Hrun1.
  destruct (parseAttributesLoop_rendered attributes fuel [] st1 "/" (String ">" r) Hnames)
    as (st2 & Hrun2 & Hrem2); [done|by left| |].
  { rewrite <- remaining_length, Hrem1. lia. }
  unfold bind at 1, parseAttributes. rewrite Hrun2.
  destruct (skipWhitespace_run fuel st2) as (st3 & Hrun3 & Hrem3).
  { rewrite <- remaining_length, Hrem2. rewrite append_length in Hlen. simpl in *. lia. }
  unfold bind at 1. rewrite Hrun3. rewrite Hrem2 in Hrem3. simpl in Hrem3.
  looking Hrem3. rewrite Hc, Hp. simpl. unfold bind, advance, ret. by eexists.
Qed.

(** ** The declaration the converter writes *)

(** What [skipProcessingInstruction] leaves of the input: what follows the
    first [?>], or the last character when there is none. *)
Fixpoint afterInstruction (s : string) : string :=
  match s with
  | "" => ""
  | String c s' =>
      match s' with
      | "" => s
      | String d s'' =>
          if Ascii.eqb c "?" && Ascii.eqb d ">" then s'' else afterInstruction s'
      end
  end.

Lemma skipProcessingInstruction_run fuel st :
  rem st < fuel ->
  exists st', skipProcessingInstruction fuel st = Ok tt st'
              /\ remaining st' = afterInstruction (remaining st).
Proof.
  revert st. induction fuel as [|fuel IH]; intros st Hfuel; [lia|].
  pose proof (remaining_length st) as Hlen.
  destruct (remaining st) as [|c [|d r]] eqn:Hr; simpl in Hlen; simpl skipProcessingInstruction.
  - replace (position st + 1 <? String.length (xml st)) with false
      by (symmetry; apply Nat.ltb_ge; unfold rem in Hlen; lia).
    exists st. by rewrite Hr.
  - replace (position st + 1 <? String.length (xml st)) with false
      by (symmetry; apply Nat.ltb_ge; unfold rem in Hlen; lia).
    exists st. by rewrite Hr.
  - replace (position st + 1 <? String.length (xml st)) with true
      by (symmetry; apply Nat.ltb_lt; unfold rem in Hlen; lia).
    looking Hr. rewrite Hc, Hp. change (Js.charAt (String d r) 0) with (String d "").
    rewrite !Prolog.char_eqb_eq.
    change (afterInstruction (String c (String d r)))
      with (if Ascii.eqb c "?" && Ascii.eqb d ">" then r
            else afterInstruction (String d r)).
    destruct (Ascii.eqb c "?" && Ascii.eqb d ">").
    + unfold bind, advance. looking Ha. by eexists.
    + unfold bind, advance. rewrite <- Ha. apply IH.
      pose proof (advanceState_rem st Hb). lia.
Qed.

Lemma skipProlog_instruction fuel st :
  inBounds st = true -> current st = "<" -> peek 1 st = "?" ->
  skipProlog (S fuel) st
  = (skipProcessingInstruction fuel ;; skipWhitespace fuel ;; skipProlog fuel) st.
Proof. intros Hb Hc Hp. simpl. by rewrite Hb, Hc, Hp. Qed.

(** A document of one element, with or without the declaration before
    it. *)
Lemma parse_document (declared : bool) c body node :
  nameStart c = true ->
  (forall fuel st,
     remaining st = String "<" (String c body) -> rem st + 4 <= fuel ->
     exists st', parseElement fuel st = Ok node st') ->
  parse ((if declared then xmlDeclaration else "") ++ String "<" (String c body))
  = Some (mkParseResult (Some node) []).
Proof.
  intros Hstart Helement.
  remember ((if declared then xmlDeclaration else "") ++ String "<" (String c body))
    as xmlString eqn:Hxml.
  unfold parse, parseWith, document.
  assert (Hfuel : String.length xmlString + 4 <= fuelFor xmlString) by (unfold fuelFor; lia).
  destruct (fuelFor xmlString) as [|[|fuel]]; [lia|lia|].
  destruct (skipWhitespace_run (S (S fuel)) (initial xmlString))
    as (st1 & Hrun1 & Hrem1); [unfold rem; simpl; lia|].
  unfold bind at 1. rewrite Hrun1. rewrite remaining_initial in Hrem1.
  unfold bind at 1. rewrite peek_short by (simpl; lia).
  assert (Hroot : forall st, remaining st = String "<" (String c body) ->
            skipProlog (S fuel) st = Ok tt st).
  { intros st Hr. apply (skipProlog_root fuel st c body).
    - done.
    - by apply (nameStart_not _ _ Hstart).
    - by apply (nameStart_not _ _ Hstart). }
  assert (Hmono : forall st, skipProlog (S fuel) st = Ok tt st ->
            skipProlog (S (S fuel)) st = Ok tt st).
  { intros st Hrun. destruct (skipProlog_monotone (S fuel) (S (S fuel)) st) as [Hoof|<-];
      [lia|congruence|done]. }
  destruct declared.
  - assert (Hrem1' : remaining st1 = xmlDeclaration ++ String "<" (String c body)).
    { by rewrite Hrem1, Hxml. }
    assert (Hlen1 : rem st1 = String.length xmlString).
    { by rewrite <- remaining_length, Hrem1', Hxml. }
    pose proof Hrem1' as Hlook. unfold xmlDeclaration in Hlook. simpl in Hlook.
    looking Hlook. unfold bind at 1. rewrite (skipProlog_instruction _ _ Hb Hc Hp).
    clear Hb Hc Hp Ha.
    destruct (skipProcessingInstruction_run (S fuel) st1 ltac:(lia)) as (st2 & Hrun2 & Hrem2).
    unfold bind at 1. rewrite Hrun2. rewrite Hrem1' in Hrem2.
    change (afterInstruction (xmlDeclaration ++ String "<" (String c body)))
      with (String Js.LF (String "<" (String c body))) in Hrem2.
    assert (Hlen2 : rem st2 <= String.length xmlString).
    { rewrite <- remaining_length, Hrem2, Hxml. simpl. lia. }
    destruct (skipWhitespace_run (S fuel) st2 ltac:(lia)) as (st3 & Hrun3 & Hrem3).
    unfold bind at 1. rewrite Hrun3. rewrite Hrem2 in Hrem3.
    change (dropSpaces (String Js.LF ?x)) with (dropSpaces x) in Hrem3.
    change (dropSpaces (String "<" ?x)) with (String "<" x) in Hrem3.
    rewrite (Hroot st3 Hrem3).
    destruct (Helement (S (S fuel)) st3 Hrem3) as (st4 & ->); [|done].
    rewrite <- remaining_length, Hrem3. rewrite Hxml in Hfuel.
    rewrite append_length in Hfuel. simpl in *. lia.
  - simpl in Hxml. rewrite Hxml in Hrem1.
    change (dropSpaces (String "<" ?x)) with (String "<" x) in Hrem1.
    unfold bind at 1. rewrite (Hmono st1 (Hroot st1 Hrem1)).
    destruct (Helement (S (S fuel)) st1 Hrem1) as (st4 & ->); [|done].
    rewrite <- remaining_length, Hrem1, <- Hxml. lia.
Qed.

Lemma parse_root (declared : bool) name body node :
  validName name = true ->
  (forall fuel st,
     remaining st = "<" ++ name ++ body -> rem st + 4 <= fuel ->
     exists st', parseElement fuel st = Ok node st') ->
  parse ((if declared then xmlDeclaration else "") ++ "<" ++ name ++ body)
  = Some (mkParseResult (Some node) []).
Proof.
  intros Hvalid Helement.
  destruct (validName_start _ Hvalid) as (c & w & -> & Hstart & _).
  by apply (parse_document declared c (w ++ body) node).
Qed.

(** ** What the converter writes *)

Lemma fold_append {A} (f : A -> string) (l : list A) (start : string) :
  fold_left (fun xml item => xml ++ f item) l start
  = start ++ fold_left (fun xml item => xml ++ f item) l "".
Proof.
  revert start. induction l as [|x l IH]; intros start; simpl; [by rewrite append_nil_r|].
  rewrite (IH (start ++ f x)), (IH (f x)). by rewrite append_assoc.
Qed.

Lemma objectToXml_array options array elementName depth :
  objectToXml options (JArray array) elementName depth
  = fold_left (fun xml item => xml ++ objectToXml options item elementName depth) array "".
Proof. done. Qed.

(** An array is written as its items one after the other under the one
    name, so that an array in an array is written as if its items stood in
    the outer array, and an empty array is not written at all. *)
Theorem arrays_flatten options elementName depth :
  (forall before after,
     objectToXml options (JArray (before ++ after)) elementName depth
     = objectToXml options (JArray before) elementName depth
       ++ objectToXml options (JArray after) elementName depth)
  /\ (forall inner rest,
        objectToXml options (JArray (JArray inner :: rest)) elementName depth
        = objectToXml options (JArray (inner ++ rest)) elementName depth)
  /\ objectToXml options (JArray []) elementName depth = "".
Proof.
  assert (Happ : forall before after,
            objectToXml options (JArray (before ++ after)) elementName depth
            = objectToXml options (JArray before) elementName depth
              ++ objectToXml options (JArray after) elementName depth).
  { intros before after. rewrite !objectToXml_array, fold_left_app. apply fold_append. }
  repeat apply conj; [exact Happ| |done].
  intros inner rest. rewrite Happ.
  change (JArray inner :: rest) with ([JArray inner] ++ rest)%list. rewrite Happ.
  by f_equal.
Qed.

Lemma objectToXml_primitive options value elementName :
  isPrimitive value = true ->
  objectToXml options value elementName 0
  = "<" ++ elementName ++ ">" ++ escapeXml (toString value) ++ "</" ++ elementName ++ ">"
    ++ String Js.LF "".
Proof. by destruct value. Qed.

Lemma markupFree_notMarkup text : all markupFree text = true -> all notMarkup text = true.
Proof.
  induction text as [|c text IH]; simpl; [done|]. intros Hall.
  apply andb_prop in Hall as [Hc Hall]. rewrite (IH Hall), andb_true_r.
  unfold markupFree in Hc. unfold notMarkup. by destruct (Ascii.eqb c "<").
Qed.

(** A string, number, boolean or null written by the converter and read
    by the parser: the element comes back, and its text is the escaped
    text without its white space. *)
Theorem primitive_read_back options value name :
  isPrimitive value = true -> validName name = true ->
  parse (convert options value (Some name))
  = Some (mkParseResult
            (Some (buildElementNode name [] [] (withoutSpaces (escapeXml (toString value)))))
            []).
Proof.
  intros Hprimitive Hvalid. unfold convert.
  replace (Js.orElse (Some name) (Options.rootElement options)) with name
    by (unfold Js.orElse; by destruct name).
  rewrite (objectToXml_primitive _ _ _ Hprimitive).
  apply (parse_root (Options.declaration options) name
           (">" ++ escapeXml (toString value) ++ "</" ++ name ++ ">" ++ String Js.LF ""));
    [done|].
  intros fuel st Hr Hfuel.
  apply (parseElement_text fuel name (escapeXml (toString value))
           ("</" ++ name ++ ">" ++ String Js.LF "") st); try done.
  - rewrite escapeXml_escaped. apply markupFree_notMarkup, escaped_markupFree.
  - right. by eexists.
Qed.


Definition written (attributes : list (string * Json)) : list (string * string) :=
  map (fun attribute => (attribute.1, toString attribute.2)) attributes.









(** No name is [__proto__], the key under which a string is not kept. *)
Definition kept (attributes : list (string * string)) : bool :=
  forallb (fun attribute => attribute.1 !== "__proto__") attributes.



(** An attribute written twice in a start tag is not an error: the
    element has the attribute once, with the value written last, and an
    attribute named [__proto__] not at all. *)
Theorem repeated_attribute name key first second :
  validName name = true -> validName key = true ->
  parse ("<" ++ name ++ renderAttributes [(key, first); (key, second)] ++ "/>")
  = Some (mkParseResult
            (Some (Types.XmlNode.mk name
                     (if key === "__proto__" then [] else [(key, second)]) [] None))
            []).
Proof.
  intros Hvalid Hkey.
  assert (Hset : setAll [(key, first); (key, second)] []
                 = if key === "__proto__" then [] else [(key, second)]).
  { unfold setAll, Js.set. simpl.
    destruct (key === "__proto__"); simpl; by rewrite ?String.eqb_refl. }
  apply (parse_root false name
           (renderAttributes [(key, first); (key, second)] ++ "/>")); [done|].
  intros fuel st Hr Hfuel. rewrite <- Hset.
  apply (parseElement_rendered name [(key, first); (key, second)] fuel st ""); try done.
  simpl. by rewrite Hkey.
Qed.

End WithPlatform.
End JsonToXmlFacts.
(** * The converter and the parser: what is read back of what is written *)

Module WrittenTrees.
Import Types XmlParser XmlParserFacts JsonToXml JsonToXmlFacts.

#[local] Arguments String.append : simpl nomatch.

Section WithPlatform.
Context `{Platform}.
Variable options : Options.t.

(** The three kinds of entries [processObjectProperties] tells apart, in
    the order it tests for them. *)
Definition isAttribute (key : string) : bool :=
  Js.startsWith key (Options.attributePrefix options).

Definition isText (key : string) : bool :=
  negb (isAttribute key) && (key === Options.textKey options).

Definition isChild (key : string) : bool :=
  negb (isAttribute key) && (key !== Options.textKey options).

Definition attributeName (key : string) : string :=
  Js.substringFrom (String.length (Options.attributePrefix options)) key.

(** The attributes an object gives its element: names and values as
    written, in the order of the entries. *)
Definition attributesOf (entries : list (string * Json)) : list (string * string) :=
  flat_map
    (fun '(key, value) =>
       if isAttribute key then [(attributeName key, toString value)] else [])
    entries.

(** The text of an object: the string of its last text entry. *)
Definition textFrom (start : string) (entries : list (string * Json)) : string :=
  fold_left (fun text '(key, value) => if isText key then toString value else text)
    entries start.

Definition textOf (entries : list (string * Json)) : string := textFrom "" entries.

(** The elements read back of [value] written under [name]: one for a
    primitive value or an object, one after the other those of the items
    for an array.  Text is escaped and loses its white space; the text of
    an object with child elements comes first, as a [#text] child. *)
Fixpoint nodes (value : Json) (name : string) : list XmlNode.t :=
  match value with
  | JArray items => flat_map (fun item => nodes item name) items
  | JObject entries =>
      let attributes := setAll (attributesOf entries) [] in
      let text := withoutSpaces (escapeXml (textOf entries)) in
      let children :=
        flat_map (fun '(key, child) => if isChild key then nodes child key else [])
          entries in
      [match children with
       | [] => buildElementNode name attributes [] text
       | _ =>
           XmlNode.mk name attributes
             ((if Js.truthy (Js.trim text) then [textNode text] else []) ++ children)%list
             None
       end]
  | _ => [buildElementNode name [] [] (withoutSpaces (escapeXml (toString value)))]
  end.


(** ** What the converter writes for an object *)










(** ** What the content loop reads *)






(** The children and the text the loop holds after the elements [nodes]:
    text before the first of them has become a [#text] child, unless it
    is blank. *)
Definition after (children : list XmlNode.t) (text : string) (nodes : list XmlNode.t)
  : list XmlNode.t * string :=
  match nodes with
  | [] => (children, text)
  | _ =>
      if Js.truthy (Js.trim text)
      then ((children ++ [textNode text]) ++ nodes, "")%list
      else (children ++ nodes, text)%list
  end.


(** [text] is read by the content loop as the elements [nodes], white
    space before it and after it apart. *)
Definition reads (text : string) (nodes : list XmlNode.t) : Prop :=
  forall fuel st lead rest children acc,
    remaining st = lead ++ text ++ rest -> all space lead = true ->
    rem st + 5 <= fuel ->
    exists fuel' st' lead',
      remaining st' = lead' ++ rest /\ all space lead' = true /\ rem st' + 5 <= fuel'
      /\ parseElementContentLoop fuel children acc st
         = parseElementContentLoop fuel' (after children acc nodes).1
             (after children acc nodes).2 st'.



(** [text] is read by [parseElement] as [node], whatever follows it. *)
Definition element (text : string) (node : XmlNode.t) : Prop :=
  (exists c text', text = String "<" (String c text') /\ nameStart c = true)
  /\ forall fuel st rest,
       remaining st = text ++ rest -> rem st + 4 <= fuel ->
       exists st', parseElement fuel st = Ok node st' /\ remaining st' = rest.


(** ** Elements as the converter writes them *)







(** ** What the converter writes, as the parser reads it *)

(** Elements one after the other, each on a line of its own after
    [indent]. *)
Inductive written (indent : string) : string -> list XmlNode.t -> Prop :=
| written_nil : written indent "" []
| written_cons text node texts nodes :
    element text node -> written indent texts nodes ->
    written indent (indent ++ text ++ String Js.LF texts) (node :: nodes).







Section Indented.
Hypothesis Hindent : all space (Options.indent options) = true.













End Indented.

End WithPlatform.
End WrittenTrees.

(** * Instances *)

Lemma text_before_root_witness :
  XmlParserFacts.all XmlParserFacts.space "  " = true
  /\ XmlParser.parse (H := Fragment.platform) "  hello"
     = Some (XmlParser.mkParseResult None
               [Types.ValidationError.mk 1 3 "Expected '<' but found 'h'" "PARSE_ERROR"]).
Proof.
  split; [reflexivity|].
  apply (Prolog.text_before_root (H := Fragment.platform) "  " "hello"); reflexivity.
Defined.

Lemma parse_shape_witness :
  XmlParser.parse (H := Fragment.platform) "<a x='1'> t <b/> u </a>"
  = Some (XmlParser.mkParseResult
            (Some (Types.XmlNode.mk "a" [("x", "1")]
                     [Types.XmlNode.mk "#text" [] [] (Some "t");
                      Types.XmlNode.mk "b" [] [] None]
                     None))
            [])
  /\ TreeShape.isElement
       (Types.XmlNode.mk "a" [("x", "1")]
          [Types.XmlNode.mk "#text" [] [] (Some "t"); Types.XmlNode.mk "b" [] [] None]
          None)
     = true.
Proof.
  split; [vm_compute; reflexivity|].
  apply (TreeShape.parse_shape (H := Fragment.platform) "<a x='1'> t <b/> u </a>"
           (XmlParser.mkParseResult
              (Some (Types.XmlNode.mk "a" [("x", "1")]
                       [Types.XmlNode.mk "#text" [] [] (Some "t");
                        Types.XmlNode.mk "b" [] [] None]
                       None))
              []));
    [vm_compute|]; reflexivity.
Defined.

Lemma validate_positions_witness :
  XmlValidator.validate (H := Fragment.platform) librarySchema (library [book [] "A"])
  = XmlValidator.Done [missingId]
  /\ Forall (fun e => Types.ValidationError.line e = 1 /\ Types.ValidationError.column e = 1
                      /\ existsb (String.eqb (Types.ValidationError.code e))
                           Diagnostics.validatorCodes = true)
       [missingId].
Proof.
  split; [vm_compute; reflexivity|].
  apply (Diagnostics.validate_positions (H := Fragment.platform) librarySchema
           (library [book [] "A"])).
  vm_compute. reflexivity.
Defined.

(** A schema with a pattern facet that is a regular expression. *)
Definition isbnSchema : Types.XsdSchema.t (H := Fragment.integers) :=
  Types.XsdSchema.mk None
    {[ "isbn" := Types.XsdElement.mk "isbn" "ISBN" (Some 1%Z) (Types.Bounded (Some 1%Z))
                   [] [] None ]}
    ∅
    {[ "ISBN" := Types.XsdSimpleType.mk "ISBN" "string" [isbnFacet] ]}
    ∅.

Lemma validate_returns_witness :
  Diagnostics.schemaCompiles (H := Fragment.platform) isbnSchema
  /\ Diagnostics.schemaOwnTypes (H := Fragment.platform) isbnSchema
  /\ exists pushed,
       XmlValidator.validate (H := Fragment.platform) isbnSchema
         (Types.XmlNode.mk "isbn" [] [] (Some "none"))
       = XmlValidator.Done pushed.
Proof.
  assert (Hown : Diagnostics.schemaOwnTypes (H := Fragment.platform) isbnSchema).
  { repeat apply conj; try reflexivity.
    - intros key xsdElement Hlook. simpl in Hlook.
      apply lookup_singleton_Some in Hlook as [_ <-]. reflexivity.
    - intros key complexType Hlook. simpl in Hlook. by rewrite lookup_empty in Hlook. }
  assert (Hcompiles : Diagnostics.schemaCompiles (H := Fragment.platform) isbnSchema).
  { repeat apply conj.
    - intros key xsdElement Hlook. simpl in Hlook.
      apply lookup_singleton_Some in Hlook as [_ <-]. exact I.
    - intros key complexType Hlook. simpl in Hlook. by rewrite lookup_empty in Hlook.
    - intros key simpleType Hlook. simpl in Hlook.
      apply lookup_singleton_Some in Hlook as [_ <-].
      constructor; [|constructor]. intros _. vm_compute. discriminate. }
  split; [exact Hcompiles|]. split; [exact Hown|].
  apply (Diagnostics.validate_returns (H := Fragment.platform) isbnSchema
           (Types.XmlNode.mk "isbn" [] [] (Some "none")) Hcompiles Hown).
  simpl. discriminate.
Defined.

(** A type with two particles, and an element of it. *)
Definition pairSchema : Types.XsdSchema.t (H := Fragment.integers) :=
  Types.XsdSchema.mk None
    {[ "pair" := Types.XsdElement.mk "pair" "Pair" (Some 1%Z) (Types.Bounded (Some 1%Z))
                   [] [] None ]}
    {[ "Pair" := Types.XsdComplexType.mk "Pair"
                   [Types.XsdElement.mk "first" "string" (Some 1%Z) (Types.Bounded (Some 1%Z))
                      [] [] None;
                    Types.XsdElement.mk "second" "int" (Some 1%Z) (Types.Bounded (Some 1%Z))
                      [] [] None]
                   [] ]}
    ∅ ∅.

Lemma sequence_order_unchecked_witness :
  XmlValidator.validateElement (H := Fragment.platform) pairSchema
    (Types.XmlNode.mk "pair" []
       [Types.XmlNode.mk "first" [] [] (Some "a"); Types.XmlNode.mk "second" [] [] (Some "b")]
       None)
    (Types.XsdElement.mk "pair" "Pair" (Some 1%Z) (Types.Bounded (Some 1%Z)) [] [] None) 1 1
  = XmlValidator.validateElement (H := Fragment.platform) pairSchema
      (Types.XmlNode.mk "pair" []
         [Types.XmlNode.mk "second" [] [] (Some "b"); Types.XmlNode.mk "first" [] [] (Some "a")]
         None)
      (Types.XsdElement.mk "pair" "Pair" (Some 1%Z) (Types.Bounded (Some 1%Z)) [] [] None) 1 1.
Proof.
  apply (Unchecked.sequence_order_unchecked (H := Fragment.platform) pairSchema "pair" [] None
           [Types.XmlNode.mk "first" [] [] (Some "a"); Types.XmlNode.mk "second" [] [] (Some "b")]
           [Types.XmlNode.mk "second" [] [] (Some "b"); Types.XmlNode.mk "first" [] [] (Some "a")]
           (Types.XsdElement.mk "pair" "Pair" (Some 1%Z) (Types.Bounded (Some 1%Z)) [] [] None)
           (Types.XsdComplexType.mk "Pair"
              [Types.XsdElement.mk "first" "string" (Some 1%Z) (Types.Bounded (Some 1%Z))
                 [] [] None;
               Types.XsdElement.mk "second" "int" (Some 1%Z) (Types.Bounded (Some 1%Z))
                 [] [] None]
              []) 1 1).
  - reflexivity.
  - reflexivity.
  - intros name. cbn [List.filter Types.XmlNode.name].
    destruct ("first" === name) eqn:Hfirst, ("second" === name) eqn:Hsecond; try reflexivity.
    apply String.eqb_eq in Hfirst, Hsecond. congruence.
  - reflexivity.
Defined.

Lemma prefixed_type_unchecked_witness :
  1 <= QualifiedNames.colons "xs:int"
  /\ XmlValidator.validateElement (H := Fragment.platform)
       (Types.XsdSchema.mk None ∅ ∅ ∅ ∅)
       (Types.XmlNode.mk "age" [("unit", "years")] [] (Some "old"))
       (Types.XsdElement.mk "age" "xs:int" (Some 1%Z) (Types.Bounded (Some 1%Z)) [] [] None)
       1 1
     = XmlValidator.Done [].
Proof.
  split; [simpl; lia|].
  apply (Unchecked.prefixed_type_unchecked (H := Fragment.platform));
    first [reflexivity | simpl; lia].
Defined.

(** An element declared with an inline complex type, as the parser gives
    it to the builder. *)
Definition personNode : Types.XmlNode.t :=
  Types.XmlNode.mk "xs:element" [("name", "person")]
    [Types.XmlNode.mk "xs:complexType" []
       [Types.XmlNode.mk "xs:sequence" []
          [Types.XmlNode.mk "xs:element" [("name", "age"); ("type", "int")] [] None]
          None]
       None]
    None.

Lemma inline_complexType_unchecked_witness :
  XsdParser.parseElement (H := Fragment.platform) personNode
  = Types.XsdElement.mk "person" "#inline-person" (Some 1%Z) (Types.Bounded (Some 1%Z))
      [] [] None
  /\ XmlValidator.validateElement (H := Fragment.platform)
       (Types.XsdSchema.mk None
          {[ "person" := XsdParser.parseElement (H := Fragment.platform) personNode ]} ∅ ∅ ∅)
       (Types.XmlNode.mk "person" [] [Types.XmlNode.mk "age" [] [] (Some "old")] None)
       (XsdParser.parseElement (H := Fragment.platform) personNode) 1 1
     = XmlValidator.Done [].
Proof.
  split; [vm_compute; reflexivity|].
  apply (InlineTypes.inline_complexType_unchecked (H := Fragment.platform) personNode);
    reflexivity.
Defined.

(** A schema element that declares [a] twice. *)
Definition twiceNode : Types.XmlNode.t :=
  Types.XmlNode.mk "xs:schema" []
    [Types.XmlNode.mk "xs:element" [("name", "a"); ("type", "int")] [] None;
     Types.XmlNode.mk "xs:element" [("name", "a"); ("type", "date")] [] None]
    None.

Lemma buildSchema_lookup_witness :
  exists schema,
    XsdParser.buildSchema (H := Fragment.platform) twiceNode = inl schema
    /\ XmlValidator.lookup (XmlValidator.elementField (H := Fragment.integers))
         (Types.XsdSchema.elements schema) "a"
       = XmlValidator.Own
           (Types.XsdElement.mk "a" "date" (Some 1%Z) (Types.Bounded (Some 1%Z))
              [] [] None)
    /\ XmlValidator.lookup (XmlValidator.elementField (H := Fragment.integers))
         (Types.XsdSchema.elements schema) "valueOf"
       = XmlValidator.Foreign (Js.Method "valueOf").
Proof.
  destruct (XsdParser.buildSchema (H := Fragment.platform) twiceNode) as [schema|msg] eqn:Hbuild;
    [|vm_compute in Hbuild; discriminate].
  exists schema. split; [reflexivity|]. split.
  - refine (eq_trans (proj1 (BuiltSchema.buildSchema_lookup (H := Fragment.platform)
                               twiceNode schema "a" Hbuild)) _).
    reflexivity.
  - refine (eq_trans (proj1 (BuiltSchema.buildSchema_lookup (H := Fragment.platform)
                               twiceNode schema "valueOf" Hbuild)) _).
    reflexivity.
Defined.


Lemma validateXml_outcomes_witness :
  XmlHelper.validateXml (H := Fragment.platform)
    (XmlHelper.mk (H := Fragment.integers) (Some noteSchema) (Some noteSchema)) "<note>x</note"
  = match XmlParser.parse (H := Fragment.platform) "<note>x</note" with
    | None => None
    | Some result =>
        match XmlParser.node result with
        | None => Some (XmlValidator.Done (XmlParser.errors result))
        | Some node => Some (XmlValidator.validate (H := Fragment.platform) noteSchema node)
        end
    end.
Proof.
  apply (XmlHelperFacts.validateXml_outcomes (H := Fragment.platform)
           (XmlHelper.mk (H := Fragment.integers) (Some noteSchema) (Some noteSchema)) noteSchema); reflexivity.
Defined.

Lemma primitive_read_back_witness :
  XmlParser.parse (H := Fragment.platform)
    (JsonToXml.convert (H := Fragment.platform)
       (JsonToXml.construct (JsonToXml.JsonToXmlOptions.mk None None None None None))
       (JsonToXml.JString "Tom & Jerry") (Some "title"))
  = Some (XmlParser.mkParseResult
            (Some (Types.XmlNode.mk "title" [] [] (Some "Tom&amp;Jerry"))) []).
Proof.
  apply (JsonToXmlFacts.primitive_read_back (H := Fragment.platform)
           (JsonToXml.construct (JsonToXml.JsonToXmlOptions.mk None None None None None))
           (JsonToXml.JString "Tom & Jerry") "title"); reflexivity.
Defined.


Lemma repeated_attribute_witness :
  XmlParser.parse (H := Fragment.platform)
    ("<a" ++ JsonToXmlFacts.renderAttributes [("x", "1"); ("x", "2")] ++ "/>")
  = Some (XmlParser.mkParseResult (Some (Types.XmlNode.mk "a" [("x", "2")] [] None)) [])
  /\ XmlParser.parse (H := Fragment.platform)
       ("<a" ++ JsonToXmlFacts.renderAttributes [("__proto__", "1"); ("__proto__", "2")]
        ++ "/>")
     = Some (XmlParser.mkParseResult (Some (Types.XmlNode.mk "a" [] [] None)) []).
Proof.
  split.
  - apply (JsonToXmlFacts.repeated_attribute (H := Fragment.platform) "a" "x" "1" "2");
      reflexivity.
  - apply (JsonToXmlFacts.repeated_attribute (H := Fragment.platform) "a" "__proto__"
             "1" "2"); reflexivity.
Defined.



Lemma parse_messages_witness :
  XmlParser.parse (H := Fragment.platform) "<a b=1/>"
  = Some (XmlParser.mkParseResult None
            [Types.ValidationError.mk 1 6 "Expected quote but found '1'" "PARSE_ERROR"])
  /\ Forall
       (fun e =>
          Messages.reported (Types.ValidationError.message e)
          /\ Types.ValidationError.message e <> "Expected element name"
          /\ Types.ValidationError.message e <> "Expected entity")
       [Types.ValidationError.mk 1 6 "Expected quote but found '1'" "PARSE_ERROR"].
Proof.
  split; [vm_compute; reflexivity|].
  apply (Messages.parse_messages (H := Fragment.platform) "<a b=1/>"
           (XmlParser.mkParseResult None
              [Types.ValidationError.mk 1 6 "Expected quote but found '1'" "PARSE_ERROR"])).
  vm_compute. reflexivity.
Defined.
